(** * scripts/sync_icons.py: a shallow embedding and its verified properties

    The script regenerates the managed icon files of the "web" and
    "desktop" targets from one square source image.  This development
    embeds it function by function: Python's [str] primitives the script
    relies on, the static target registry, the [--targets] parser, the
    source loader, the writer and [main].

    Conventions of the embedding.
    - A Python [str] is a [string]; its characters stand for the code
      points 0..255.
    - A Python exception is a value of [exn]; a function that may raise
      returns [exn + A] ([inl] is the raised exception).
    - The file system is explicit state ([Disk]); what the operating
      system and ImageMagick decide is read from a [World].
    - [argparse], [pathlib], [shutil] and Pillow are libraries, not part
      of the script; the behaviours of theirs that the script depends on
      are written down where they are used.

    Outside the embedding.
    - A command line is the two options [--source] and [--targets], each
      given at most once; [-h], which makes the argument parser print
      its help and exit with status 0, is not a command line here.
    - [Path.expanduser] raises [RuntimeError] for a [~user] whose home
      directory is unknown; [main] does not catch it.  The [World] only
      describes source arguments that expand.
    - What the interpreter itself writes to standard error (the
      traceback of an uncaught exception, a warning shown by the
      [warnings] module) is not part of an [Outcome]. *)

From Stdlib Require Import ZArith Ascii String.
From stdpp Require Import base gmap strings list sorting pretty.

#[local] Set Warnings "-clear-no-such-hyp".

Local Open Scope Z_scope.

(** ** Python string primitives *)

Module Py.

(** [str.isspace] on the code points below 256: TAB..CR, FS..US, SPACE,
    NEL (0x85) and NBSP (0xa0). *)
Definition isspace (c : ascii) : bool :=
  let n := Z.of_N (N_of_ascii c) in
  ((9 <=? n) && (n <=? 13)) || ((28 <=? n) && (n <=? 32))
  || (n =? 133) || (n =? 160).

Fixpoint lstrip (s : string) : string :=
  match s with
  | EmptyString => EmptyString
  | String c s' => if isspace c then lstrip s' else s
  end.

Fixpoint rstrip (s : string) : string :=
  match s with
  | EmptyString => EmptyString
  | String c s' =>
      match rstrip s' with
      | EmptyString => if isspace c then EmptyString else String c EmptyString
      | r => String c r
      end
  end.

(** [s.strip()] *)
Definition strip (s : string) : string := rstrip (lstrip s).

(** [s.split(sep)] for a one-character separator: never empty, and
    [len(result) = s.count(sep) + 1]. *)
Fixpoint split (sep : ascii) (s : string) : list string :=
  match s with
  | EmptyString => [EmptyString]
  | String c s' =>
      if Ascii.eqb c sep then EmptyString :: split sep s'
      else match split sep s' with
           | [] => [String c EmptyString]
           | seg :: segs => String c seg :: segs
           end
  end.

(** [sep.join(parts)] *)
Fixpoint join (sep : string) (parts : list string) : string :=
  match parts with
  | [] => EmptyString
  | x :: rest =>
      match rest with
      | [] => x
      | _ :: _ => x +:+ sep +:+ join sep rest
      end
  end.

(** [c.lower()] on the code points below 256: A..Z and the Latin-1
    capitals 0xC0..0xDE (but not the multiplication sign 0xD7). *)
Definition lower_char (c : ascii) : ascii :=
  let n := Z.of_N (N_of_ascii c) in
  if ((65 <=? n) && (n <=? 90))
     || ((192 <=? n) && (n <=? 222) && negb (n =? 215))
  then ascii_of_N (Z.to_N (n + 32)) else c.

Fixpoint lower (s : string) : string :=
  match s with
  | EmptyString => EmptyString
  | String c s' => String (lower_char c) (lower s')
  end.

(** [s.rfind(c)]: index of the last occurrence, [-1] when there is none. *)
Fixpoint rfind (c : ascii) (s : string) : Z :=
  match s with
  | EmptyString => -1
  | String a s' =>
      let i := rfind c s' in
      if 0 <=? i then i + 1
      else if Ascii.eqb a c then 0 else -1
  end.

(** [s[i:]] for [0 <= i] *)
Fixpoint slice_from (i : nat) (s : string) : string :=
  match i, s with
  | O, _ => s
  | S _, EmptyString => EmptyString
  | S i', String _ s' => slice_from i' s'
  end.

Definition len (s : string) : Z := Z.of_nat (String.length s).

(** [sub in s] *)
Fixpoint contains (sub s : string) : bool :=
  String.prefix sub s ||
  match s with
  | EmptyString => false
  | String _ s' => contains sub s'
  end.


(** [str(n)] of an [int] *)
Definition str_of_int (n : Z) : string := pretty n.

(** [sorted(xs)] of a set of [str]: ascending by code points. *)
Definition sorted (xs : gset string) : list string :=
  merge_sort String.le (elements xs).

End Py.

(** ** Exceptions *)

Inductive exn : Type :=
| ArgumentTypeError (msg : string)
| ValueError (msg : string)
| KeyError (key : string)
| UnidentifiedImageError
| CalledProcessError
| DecompressionBombError
| OSError (msg : string).

(** ** The target registry *)

Record TargetConfig : Type := {
  png : list (Z * string);
  ico : list string;
  svg : list string
}.

Record CliArgs : Type := {
  source : string;
  targets : list string
}.

Definition ICO_ENTRY_SIZES : list Z := [16; 24; 32; 48; 64; 128; 256].
Definition PNG_COMPRESS_LEVEL : Z := 9.

Definition web_config : TargetConfig := {|
  png := [ (16, "web/public/favicon-16x16.png");
           (32, "web/public/favicon-32x32.png");
           (512, "web/public/videnoa_icon.png") ];
  ico := [ "web/public/favicon.ico" ];
  svg := [ "web/public/favicon.svg" ]
|}.

Definition desktop_config : TargetConfig := {|
  png := [ (512, "crates/desktop/icons/icon.png");
           (32, "crates/desktop/icons/icon-32.png");
           (64, "crates/desktop/icons/icon-64.png");
           (128, "crates/desktop/icons/icon-128.png");
           (256, "crates/desktop/icons/icon-256.png") ];
  ico := [ "crates/desktop/icons/icon.ico" ];
  svg := []
|}.

Definition MANAGED_TARGETS : gmap string TargetConfig :=
  <["desktop" := desktop_config]> (<["web" := web_config]> ∅).

(** ** [parse_targets] *)

(** [[segment.strip() for segment in value.split(",") if segment.strip()]] *)
Definition raw_targets_of (value : string) : list string :=
  Py.strip <$> filter (λ segment, Py.strip segment ≠ EmptyString)
                      (Py.split "," value).

(** The loop that fills [deduped], with its two mutable locals. *)
Fixpoint dedupe (raw_targets : list string) (seen : gset string)
    (deduped : list string) : list string :=
  match raw_targets with
  | [] => deduped
  | target :: rest =>
      if decide (target ∈ seen) then dedupe rest seen deduped
      else dedupe rest ({[target]} ∪ seen) (deduped ++ [target])
  end.

Definition parse_targets (value : string) : exn + list string :=
  let raw_targets := raw_targets_of value in
  match raw_targets with
  | [] => inl (ArgumentTypeError "--targets must include at least one target")
  | _ :: _ =>
      let known : gset string := dom MANAGED_TARGETS in
      let unknown := Py.sorted (list_to_set raw_targets ∖ known) in
      match unknown with
      | _ :: _ =>
          let supported := Py.join "," (Py.sorted known) in
          let unknown_str := Py.join "," unknown in
          inl (ArgumentTypeError
                 ("unknown target(s): " +:+ unknown_str +:+
                  ". Supported targets: " +:+ supported))
      | [] => inr (dedupe raw_targets ∅ [])
      end
  end.

(** ** [parse_args] and the argument parser

    [argparse] is Python's standard library.  Three facts about it are
    used: a [type=] callable that raises [ArgumentTypeError] makes the
    parser report "argument --targets: <message>"; a missing required
    option is reported as "the following arguments are required: ...";
    and [ArgumentParser.error] writes the usage line and
    "<prog>: error: <message>" to standard error and exits with
    status 2.  Conversion errors are reported before missing options. *)

(** What the command line gives for the two options; [None] when the
    option is absent.  A command line with [-h] is not an [Argv]. *)
Record Argv : Type := {
  opt_source : option string;
  opt_targets : option string
}.

Definition format_usage (prog : string) : string :=
  "usage: " +:+ prog +:+ " [-h] --source SOURCE --targets TARGETS" +:+
  String "010" EmptyString.

(** [parse_args]: the parsed arguments, or the message handed to
    [ArgumentParser.error]. *)
Definition parse_args (argv : Argv) : string + CliArgs :=
  match opt_targets argv with
  | Some value =>
      match parse_targets value with
      | inl (ArgumentTypeError msg) => inl ("argument --targets: " +:+ msg)
      | inl _ =>
          (* not reached: [parse_targets] raises nothing else *)
          inl "argument --targets: invalid parse_targets value"
      | inr ts =>
          match opt_source argv with
          | Some s => inr {| source := s; targets := ts |}
          | None => inl "the following arguments are required: --source"
          end
      end
  | None =>
      match opt_source argv with
      | Some _ => inl "the following arguments are required: --targets"
      | None =>
          inl "the following arguments are required: --source, --targets"
      end
  end.

(** ** Images and files *)

(** Pixel data is kept symbolic: where it was decoded from and what was
    done to it. *)
Inductive Pixels : Type :=
| Decoded (id : N)
| AsRGBA (p : Pixels)
| Resampled (p : Pixels) (w h : Z) (resample : Z).

Record Image : Type := {
  width : Z;
  height : Z;
  pixels : Pixels
}.

(** Pillow's [LANCZOS] constant, under both of its names. *)
Definition LANCZOS : Z := 1.

(** [_resample_filter]: [Image.Resampling.LANCZOS] where the enum
    exists, else [Image.LANCZOS], else [1]. *)
Definition _resample_filter (has_resampling : bool)
    (legacy : option Z) : Z :=
  if has_resampling then LANCZOS else default 1 legacy.

(** [image.convert("RGBA")] *)
Definition convert_rgba (im : Image) : Image :=
  {| width := width im; height := height im; pixels := AsRGBA (pixels im) |}.

(** [Image.frombytes("RGBA", rgba.size, rgba.tobytes())] *)
Definition normalize (rgba : Image) : Image :=
  {| width := width rgba; height := height rgba; pixels := pixels rgba |}.

(** [im.resize((w, h), resample)]: a copy when the size is unchanged. *)
Definition resize (im : Image) (w h : Z) (resample : Z) : Image :=
  if (width im =? w) && (height im =? h) then im
  else {| width := w; height := h;
          pixels := Resampled (pixels im) w h resample |}.

(** What a file holds, as far as Pillow and [shutil] can tell. *)
Inductive FileData : Type :=
| ImageFile (format : string) (im : Image)
| IcoFile (frames : list Image)
| BrokenImageFile (errmsg : string)
| OtherFile (id : N).

Inductive Node : Type :=
| Dir
| File (data : FileData).

Inductive WriteEvent : Type :=
| SavedPng (path : string) (size : Z) (compress_level : Z)
| SavedIco (path : string) (sizes : list (Z * Z))
| CopiedSvg (src dst : string).

Definition event_path (e : WriteEvent) : string :=
  match e with
  | SavedPng p _ _ => p
  | SavedIco p _ => p
  | CopiedSvg _ dst => dst
  end.

(** The mutable part: the file tree, regular files and directories by
    resolved path, and the journal of the writes that succeeded, oldest
    first, each under the output path its [save_*] call was given. *)
Record Disk : Type := {
  nodes : gmap string Node;
  journal : list WriteEvent
}.

(** What ImageMagick makes of its input before any option is applied:
    a picture at the picture's own size, or, should the program go
    wrong without saying so, something Pillow cannot identify or cannot
    decode. *)
Inductive Drawing : Type :=
| Picture (im : Image)
| Unidentifiable (id : N)
| Damaged (errmsg : string).

(** How [subprocess.run(cmd, check=True, ...)] ends for the rasterizer:
    the program could not be started ([OSError]), or it ran and exited,
    having drawn its input or not. *)
Inductive ProcessResult : Type :=
| NotStarted (msg : string)
| Exited (status : Z) (drawing : option Drawing).

(** What [load_svg_image] gets out of the rasterizer: a non-zero exit
    status ([CalledProcessError]), an [OSError] of [subprocess.run], or
    the content of the rendered file, if the program wrote one. *)
Inductive ConvertResult : Type :=
| ConvertFailed
| ConvertRaised (msg : string)
| ConvertDone (rendered : option FileData).

(** The read-only surroundings of one run.
    - [expand_resolve]: [Path.expanduser] then [Path.resolve], for the
      arguments that expand.
    - [temp_dir]: the directory [tempfile.TemporaryDirectory] makes.
    - [subprocess_run]: what running a command line does, given the
      node at the rasterizer's input path.
    - [can_mkdir]: whether the operating system lets a missing
      directory be made at this path, the directory above it being
      there.
    - [can_write]: whether the operating system lets a file at this
      path be opened for writing.
    - [same_file]: [os.path.samefile] for two paths that differ as
      strings (hard links, links on the way to the destination).
    - [ico_refusal], [refused_save_leaves]: the message of the
      [ValueError] Pillow's ICO encoder raises when it is left without
      a frame, and what becomes of a file that was already at the
      destination then; both are Pillow's business. *)
Record World : Type := {
  prog : string;
  ROOT_DIR : string;
  expand_resolve : string → string;
  which : string → option string;
  temp_dir : string;
  subprocess_run : list string → option Node → ProcessResult;
  can_mkdir : string → bool;
  can_write : string → bool;
  same_file : string → string → bool;
  ico_refusal : string;
  refused_save_leaves : FileData → FileData;
  has_resampling : bool;
  legacy_lanczos : option Z
}.

Definition RESAMPLE_FILTER (w : World) : Z :=
  _resample_filter (has_resampling w) (legacy_lanczos w).

(** [Path(source_arg).expanduser().resolve()] *)
Definition resolve_source (w : World) (source_arg : string) : string :=
  expand_resolve w source_arg.

(** ** Paths *)

(** [Path.name] of a resolved path: what follows the last slash. *)
Definition path_name (p : string) : string :=
  Py.slice_from (Z.to_nat (Py.rfind "/" p + 1)) p.

(** [Path.suffix] *)
Definition suffix (p : string) : string :=
  let name := path_name p in
  let i := Py.rfind "." name in
  if (0 <? i) && (i <? Py.len name - 1)
  then Py.slice_from (Z.to_nat i) name
  else EmptyString.

(** [root / relative] for a relative right operand. *)
Definition joinpath (root relative : string) : string :=
  if String.eqb root "/" then "/" +:+ relative
  else root +:+ "/" +:+ relative.

(** The directories above a resolved path, outermost first and without
    the file system's root: what [Path.parents] lists, or
    [Path.parent] and what [mkdir(parents=True)] may have to create
    above it. *)
Fixpoint parents (p : string) : list string :=
  match p with
  | EmptyString => []
  | String c rest =>
      let deeper := String c <$> parents rest in
      match rest with
      | String "/" _ => String c EmptyString :: deeper
      | _ => deeper
      end
  end.

(** ** The rasterizer *)

(** The side of the box given to [-resize]. *)
Definition RASTER_BOX : Z := 1024.

(** [cmd] of [load_svg_image]. *)
Definition convert_command (convert_bin source_path rendered_png : string)
    : list string :=
  [ convert_bin; source_path; "-background"; "none";
    "-resize"; "1024x1024"; "PNG32:" +:+ rendered_png ].

(** ImageMagick's [-resize WxH]: the picture is scaled, up or down and
    keeping its proportions, to the largest size that fits the box, so
    its longer side becomes the side of the box; the shorter side is
    rounded to the nearest pixel and is at least one pixel. *)
Definition scale_to_fit (box : Z) (im : Image) : Image :=
  let scaled (short long : Z) :=
    Z.max 1 ((2 * short * box + long) / (2 * long)) in
  if height im <=? width im
  then {| width := box; height := scaled (height im) (width im);
          pixels := pixels im |}
  else {| width := scaled (width im) (height im); height := box;
          pixels := pixels im |}.

(** What [convert ... -resize 1024x1024 PNG32:out] leaves in [out]. *)
Definition rendered_file (drawing : Drawing) : FileData :=
  match drawing with
  | Picture im => ImageFile "PNG" (scale_to_fit RASTER_BOX im)
  | Unidentifiable id => OtherFile id
  | Damaged errmsg => BrokenImageFile errmsg
  end.

(** The [subprocess.run] call of [load_svg_image] and the rendered file
    it leaves in the temporary directory. *)
Definition run_convert (w : World) (convert_bin source_path : string)
    (node : option Node) : ConvertResult :=
  let rendered_png := joinpath (temp_dir w) "source-rendered.png" in
  match subprocess_run w
          (convert_command convert_bin source_path rendered_png) node with
  | NotStarted msg => ConvertRaised msg
  | Exited status drawing =>
      if status =? 0 then ConvertDone (rendered_file <$> drawing)
      else ConvertFailed
  end.

(** ** The source loader *)

(** Pillow's [Image.MAX_IMAGE_PIXELS].  [Image.open] raises
    [DecompressionBombError] for an image of more than twice as many
    pixels, and issues a [DecompressionBombWarning] for one of more
    than this many. *)
Definition MAX_IMAGE_PIXELS : Z := 89478485.

(** The largest frame of an ICO file, which is what Pillow opens. *)
Definition largest_frame (frames : list Image) : option Image :=
  foldr (λ im best,
           match best with
           | None => Some im
           | Some b => if width b <? width im then Some im else Some b
           end) None frames.

Definition bomb_checked (format : string) (im : Image)
    : exn + (string * Image) :=
  if 2 * MAX_IMAGE_PIXELS <? width im * height im
  then inl DecompressionBombError
  else inr (format, im).

(** [Image.open(path)] followed by [image.load()]: the format and the
    decoded image, [UnidentifiedImageError], [DecompressionBombError]
    or [OSError]. *)
Definition pil_open (node : option Node) : exn + (string * Image) :=
  match node with
  | None => inl (OSError "No such file or directory")
  | Some Dir => inl (OSError "Is a directory")
  | Some (File (ImageFile format im)) => bomb_checked format im
  | Some (File (IcoFile frames)) =>
      match largest_frame frames with
      | Some im => bomb_checked "ICO" im
      | None => inl UnidentifiedImageError
      end
  | Some (File (BrokenImageFile errmsg)) => inl (OSError errmsg)
  | Some (File (OtherFile _)) => inl UnidentifiedImageError
  end.

(** Whether [Image.open] issues a [DecompressionBombWarning]. *)
Definition pil_open_warns (node : option Node) : bool :=
  match node with
  | Some (File (ImageFile _ im)) => MAX_IMAGE_PIXELS <? width im * height im
  | Some (File (IcoFile frames)) =>
      match largest_frame frames with
      | Some im => MAX_IMAGE_PIXELS <? width im * height im
      | None => false
      end
  | _ => false
  end.

Definition load_png_image (d : Disk) (source_path : string) : exn + Image :=
  match pil_open (nodes d !! source_path) with
  | inr (format, image) =>
      if decide (format ≠ "PNG")
      then inl (ValueError ("source must be a PNG image: " +:+ source_path))
      else inr (convert_rgba image)
  | inl UnidentifiedImageError =>
      inl (ValueError ("source is not a readable image: " +:+ source_path))
  | inl (OSError error) =>
      inl (ValueError ("cannot read source image: " +:+ source_path +:+
                       ": " +:+ error))
  | inl e => inl e
  end.

(** The rendered PNG lives in a fresh temporary directory that is gone
    when the function returns, so it is a local value here and never
    part of the [Disk]. *)
Definition load_svg_image (w : World) (d : Disk) (source_path : string)
    : exn + Image :=
  match which w "convert" with
  | None | Some EmptyString =>
      inl (ValueError
             "source is SVG but ImageMagick 'convert' is not installed")
  | Some convert_bin =>
      match run_convert w convert_bin source_path (nodes d !! source_path) with
      | ConvertFailed => inl (ValueError "cannot rasterize SVG source")
      | ConvertRaised msg => inl (OSError msg)
      | ConvertDone rendered_png =>
          match pil_open (File <$> rendered_png) with
          | inr (_, image) => inr (convert_rgba image)
          | inl UnidentifiedImageError =>
              inl (ValueError ("rendered SVG is not a readable image: " +:+
                               source_path))
          | inl (OSError error) =>
              inl (ValueError ("cannot read rendered SVG image: " +:+
                               source_path +:+ ": " +:+ error))
          | inl e => inl e
          end
      end
  end.

Definition not_square_message (rgba : Image) (source_path : string) : string :=
  "source image must be square, got " +:+ Py.str_of_int (width rgba) +:+
  "x" +:+ Py.str_of_int (height rgba) +:+ ": " +:+ source_path.

Definition load_source_image (w : World) (d : Disk) (source_path : string)
    : exn + Image :=
  match nodes d !! source_path with
  | None => inl (ValueError ("source file does not exist: " +:+ source_path))
  | Some Dir =>
      inl (ValueError ("source path is not a file: " +:+ source_path))
  | Some (File _) =>
      let suffix := Py.lower (suffix source_path) in
      let loaded :=
        if String.eqb suffix ".png" then load_png_image d source_path
        else if String.eqb suffix ".svg" then load_svg_image w d source_path
        else inl (ValueError ("source must be a .svg or .png image: " +:+
                              source_path)) in
      match loaded with
      | inl e => inl e
      | inr rgba =>
          if decide (width rgba ≠ height rgba)
          then inl (ValueError (not_square_message rgba source_path))
          else inr (normalize rgba)
      end
  end.

(** ** Effects of the writer: state and exceptions *)

Definition IO (A : Type) : Type := Disk → (exn + A) * Disk.

Definition io_ret {A} (a : A) : IO A := λ d, (inr a, d).
Definition io_raise {A} (e : exn) : IO A := λ d, (inl e, d).
Definition io_bind {A B} (m : IO A) (k : A → IO B) : IO B :=
  λ d, match m d with
       | (inr a, d') => k a d'
       | (inl e, d') => (inl e, d')
       end.

#[global] Instance io_mret : MRet IO := @io_ret.
#[global] Instance io_mbind : MBind IO := λ A B k m, io_bind m k.

(** [for x in xs: body], threading the loop's mutable local. *)
Fixpoint for_each {A S} (xs : list A) (body : A → S → IO S) (s : S) : IO S :=
  match xs with
  | [] => mret s
  | x :: rest => s' ← body x s; for_each rest body s'
  end.

(** [os.mkdir] of one missing directory. *)
Definition make_dir (q : string) (m : gmap string Node) : gmap string Node :=
  match m !! q with
  | None => <[q := Dir]> m
  | Some _ => m
  end.

(** The tree with every missing directory above [output_path] made. *)
Definition with_parents (output_path : string) (m : gmap string Node)
    : gmap string Node :=
  foldl (λ m q, make_dir q m) m (parents output_path).

(** Whether [q] is a directory or can be made one: not where a regular
    file is, and for a missing directory as the operating system
    allows. *)
Definition dir_or_makeable (w : World) (m : gmap string Node) (q : string)
    : bool :=
  match m !! q with
  | Some Dir => true
  | Some (File _) => false
  | None => can_mkdir w q
  end.

(** The directories [qs], outermost first, made one after the other up
    to the first that cannot be; whether all were made, and the tree
    with those that were. *)
Fixpoint make_dirs (w : World) (qs : list string) (m : gmap string Node)
    : bool * gmap string Node :=
  match qs with
  | [] => (true, m)
  | q :: rest =>
      if dir_or_makeable w m q then make_dirs w rest (make_dir q m)
      else (false, m)
  end.

(** [output_path.parent.mkdir(parents=True, exist_ok=True)]: makes the
    missing directories, outermost first; raises an [OSError]
    ([FileExistsError], [NotADirectoryError], [PermissionError]) at the
    first one that is a regular file or that the operating system does
    not let it make, the directories made before it staying. *)
Definition mkdir_parents (w : World) (output_path : string) : IO unit :=
  λ d, match make_dirs w (parents output_path) (nodes d) with
       | (true, m) => (inr (), {| nodes := m; journal := journal d |})
       | (false, m) =>
           (inl (OSError ("cannot make the directory of " +:+ output_path)),
            {| nodes := m; journal := journal d |})
       end.

(** Opening [path] for writing and writing [data]: refused for a
    directory and where the operating system says so. *)
Definition write_file (w : World) (path : string) (data : FileData)
    (e : WriteEvent) : IO unit :=
  λ d, match nodes d !! path with
       | Some Dir => (inl (OSError ("is a directory: " +:+ path)), d)
       | _ =>
           if can_write w path
           then (inr (), {| nodes := <[path := File data]> (nodes d);
                             journal := journal d ++ [e] |})
           else (inl (OSError ("cannot write " +:+ path)), d)
       end.

Definition save_png (w : World) (source : Image) (size : Z)
    (output_path : string) : IO unit :=
  mkdir_parents w output_path;;
  let rendered := resize source size size (RESAMPLE_FILTER w) in
  write_file w output_path (ImageFile "PNG" rendered)
             (SavedPng output_path size PNG_COMPRESS_LEVEL).

(** Pillow's ICO encoder behind [Image.save(format="ICO", sizes=...)],
    as its handbook documents it: "Any sizes bigger than the original
    size or 256 will be ignored."  The remaining sizes are written in
    ascending order without duplicates.  Each frame is a LANCZOS
    thumbnail of the image, which for the square images the loader lets
    through is the image resized to that size. *)
Definition ico_frames (source : Image) (sizes : list (Z * Z)) : list Image :=
  (λ size : Z * Z, resize source size.1 size.2 LANCZOS) <$>
  filter (λ size : Z * Z,
            ¬ (width source < size.1 ∨ height source < size.2 ∨
               256 < size.1 ∨ 256 < size.2))
         (merge_sort (λ a b : Z * Z, a.1 < b.1 ∨ (a.1 = b.1 ∧ a.2 ≤ b.2))
                     (remove_dups sizes)).

(** [Image.save] when every requested size is ignored: the file is
    opened as for any save, then the encoder raises [ValueError]. *)
Definition refused_save (w : World) (path : string) : IO unit :=
  λ d, match nodes d !! path with
       | Some Dir => (inl (OSError ("is a directory: " +:+ path)), d)
       | node =>
           if can_write w path
           then (inl (ValueError (ico_refusal w)),
                 {| nodes := match node with
                             | Some (File old) =>
                                 <[path := File (refused_save_leaves w old)]>
                                   (nodes d)
                             | _ => nodes d
                             end;
                    journal := journal d |})
           else (inl (OSError ("cannot write " +:+ path)), d)
       end.

Definition save_ico (w : World) (source : Image) (output_path : string)
    : IO unit :=
  mkdir_parents w output_path;;
  let sizes := (λ size, (size, size)) <$> ICO_ENTRY_SIZES in
  match ico_frames source sizes with
  | [] => refused_save w output_path
  | _ :: _ =>
      write_file w output_path (IcoFile (ico_frames source sizes))
                 (SavedIco output_path sizes)
  end.

(** Where [shutil.copy2(src, dst)] puts the copy: into [dst] under the
    name of the source when [dst] is a directory, else at [dst]. *)
Definition copy_destination (m : gmap string Node) (src dst : string)
    : string :=
  match m !! dst with
  | Some Dir => joinpath dst (path_name src)
  | _ => dst
  end.

(** [shutil.copy2(src, dst)]: refuses to copy a file onto itself
    ([SameFileError], an [OSError]), reads the source and writes the
    destination.  [e] is the journal entry of the caller. *)
Definition copy2 (w : World) (src dst : string) (e : WriteEvent) : IO unit :=
  λ d, let dst := copy_destination (nodes d) src dst in
       if String.eqb src dst || same_file w src dst
       then (inl (OSError ("same file: " +:+ src)), d)
       else match nodes d !! src with
            | Some (File data) => write_file w dst data e d
            | _ => (inl (OSError ("cannot read " +:+ src)), d)
            end.

Definition save_svg (w : World) (source_path output_path : string)
    : IO unit :=
  mkdir_parents w output_path;;
  copy2 w source_path output_path (CopiedSvg source_path output_path).

(** ** The writer *)

Definition lookup_target (target : string) : IO TargetConfig :=
  match MANAGED_TARGETS !! target with
  | Some config => io_ret config
  | None => io_raise (KeyError target)
  end.

Definition sync_targets (w : World) (source : Image) (source_path : string)
    (targets : list string) : IO (list string) :=
  let source_is_svg :=
    String.eqb (Py.lower (suffix source_path)) ".svg" in
  for_each targets (λ target written,
    config ← lookup_target target;
    written ← for_each (png config) (λ '(size, relative_path) written,
        let output_path := joinpath (ROOT_DIR w) relative_path in
        save_png w source size output_path;;
        mret (written ++ [output_path])) written;
    written ← for_each (ico config) (λ relative_path written,
        let output_path := joinpath (ROOT_DIR w) relative_path in
        save_ico w source output_path;;
        mret (written ++ [output_path])) written;
    if source_is_svg
    then for_each (svg config) (λ relative_path written,
        let output_path := joinpath (ROOT_DIR w) relative_path in
        save_svg w source_path output_path;;
        mret (written ++ [output_path])) written
    else mret written) [].

(** ** [main] *)

(** How the process ends: [main] returned a status that becomes the
    exit status, the argument parser exited on its own, or an exception
    escaped ([stdout] and [stderr] are the chunks the script and the
    argument parser wrote, in order). *)
Inductive Outcome : Type :=
| Exit (code : Z) (stdout stderr : list string)
| Uncaught (e : exn).

Definition newline : string := String "010" EmptyString.

Definition main (w : World) (argv : Argv) (d : Disk) : Outcome * Disk :=
  match parse_args argv with
  | inl message =>
      (Exit 2 [] [format_usage (prog w);
                  prog w +:+ ": error: " +:+ message +:+ newline], d)
  | inr args =>
      let source_path := resolve_source w (source args) in
      match load_source_image w d source_path with
      | inl (ValueError error) =>
          (Exit 1 [] ["error: " +:+ error +:+ newline], d)
      | inl e => (Uncaught e, d)
      | inr source_image =>
          match sync_targets w source_image source_path (targets args) d with
          | (inl (ValueError error), d') =>
              (Exit 1 [] ["error: " +:+ error +:+ newline], d')
          | (inl e, d') => (Uncaught e, d')
          | (inr written, d') =>
              (Exit 0 ["synced " +:+
                       Py.str_of_int (Z.of_nat (length written)) +:+
                       " icon files" +:+ newline] [], d')
          end
      end
  end.

(** ** Reference definitions for the statements

    These are not taken from the script: they say, in the words of its
    description, what the script is compared against. *)

(** "Order of first occurrence preserved, duplicates dropped." *)
Fixpoint first_occurrences (l : list string) : list string :=
  match l with
  | [] => []
  | x :: rest => x :: filter (λ y, y ≠ x) (first_occurrences rest)
  end.


(** The source counts as SVG when its lower-cased suffix is [.svg]. *)
Definition source_is_svg (source_path : string) : bool :=
  String.eqb (Py.lower (suffix source_path)) ".svg".

(** [Path.is_file] *)
Definition is_file (node : option Node) : Prop :=
  ∃ data, node = Some (File data).

(** The tail of the loader: "verifies width equals height; fails
    otherwise", then the normalized copy. *)
Definition square_or_raise (loaded : exn + Image) (source_path : string)
    : exn + Image :=
  match loaded with
  | inl e => inl e
  | inr rgba =>
      if decide (width rgba ≠ height rgba)
      then inl (ValueError (not_square_message rgba source_path))
      else inr (normalize rgba)
  end.

(** The file at a path, if it is a regular file. *)
Definition file_at (d : Disk) (path : string) : option FileData :=
  match nodes d !! path with
  | Some (File data) => Some data
  | _ => None
  end.

(** One file the writer produces. *)
Inductive Action : Type :=
| WritePng (size : Z) (path : string)
| WriteIco (path : string)
| CopySvg (path : string).

Definition action_path (a : Action) : string :=
  match a with
  | WritePng _ p => p
  | WriteIco p => p
  | CopySvg p => p
  end.

Definition is_copy (a : Action) : bool :=
  match a with CopySvg _ => true | _ => false end.

(** "Within a target, PNGs then ICO then SVG, in each list's declared
    order", the SVG part only for an SVG source. *)
Definition target_plan (root : string) (is_svg : bool)
    (config : TargetConfig) : list Action :=
  ((λ entry : Z * string, WritePng entry.1 (joinpath root entry.2))
     <$> png config) ++
  ((λ relative, WriteIco (joinpath root relative)) <$> ico config) ++
  (if is_svg
   then (λ relative, CopySvg (joinpath root relative)) <$> svg config
   else []).

(** "Targets in selection order." *)
Definition plan (root : string) (is_svg : bool)
    (targets : list string) : list Action :=
  targets ≫= λ target,
    match MANAGED_TARGETS !! target with
    | Some config => target_plan root is_svg config
    | None => []
    end.

Definition perform (w : World) (source : Image) (source_path : string)
    (a : Action) : IO unit :=
  match a with
  | WritePng size p => save_png w source size p
  | WriteIco p => save_ico w source p
  | CopySvg p => save_svg w source_path p
  end.

Fixpoint perform_all (w : World) (source : Image) (source_path : string)
    (l : list Action) : IO unit :=
  match l with
  | [] => mret ()
  | a :: rest =>
      perform w source source_path a;; perform_all w source source_path rest
  end.

(** The same order on the registry's relative paths alone. *)
Definition relative_paths (is_svg : bool) (targets : list string)
    : list string :=
  targets ≫= λ target,
    match MANAGED_TARGETS !! target with
    | Some config =>
        (snd <$> png config) ++ ico config ++
        (if is_svg then svg config else [])
    | None => []
    end.

(** What lands in the file of a rendering action. *)
Definition written_data (w : World) (source : Image) (a : Action)
    : option FileData :=
  match a with
  | WritePng size _ =>
      Some (ImageFile "PNG" (resize source size size (RESAMPLE_FILTER w)))
  | WriteIco _ =>
      Some (IcoFile (ico_frames source
                       ((λ size, (size, size)) <$> ICO_ENTRY_SIZES)))
  | CopySvg _ => None
  end.

(** The journal entry an action leaves. *)
Definition event_of (source_path : string) (a : Action) : WriteEvent :=
  match a with
  | WritePng size p => SavedPng p size PNG_COMPRESS_LEVEL
  | WriteIco p => SavedIco p ((λ size, (size, size)) <$> ICO_ENTRY_SIZES)
  | CopySvg p => CopiedSvg source_path p
  end.

Definition is_saved_png (e : WriteEvent) : bool :=
  match e with SavedPng _ _ _ => true | _ => false end.
Definition is_saved_ico (e : WriteEvent) : bool :=
  match e with SavedIco _ _ => true | _ => false end.
Definition is_copied_svg (e : WriteEvent) : bool :=
  match e with CopiedSvg _ _ => true | _ => false end.

(** The sizes an ICO file embeds. *)
Definition embedded_sizes (data : FileData) : list (Z * Z) :=
  match data with
  | IcoFile frames => (λ im, (width im, height im)) <$> frames
  | _ => []
  end.

(** Every character of [s] satisfies [P]. *)
Fixpoint all_chars (P : ascii → bool) (s : string) : bool :=
  match s with
  | EmptyString => true
  | String c s' => P c && all_chars P s'
  end.

Definition not_char (c : ascii) : ascii → bool := λ a, negb (Ascii.eqb a c).

(** What an action leaves in its file, the copied source data given. *)
Definition action_data (w : World) (source : Image) (source_data : FileData)
    (a : Action) : FileData :=
  match a with
  | WritePng size _ =>
      ImageFile "PNG" (resize source size size (RESAMPLE_FILTER w))
  | WriteIco _ =>
      IcoFile (ico_frames source ((λ size, (size, size)) <$> ICO_ENTRY_SIZES))
  | CopySvg _ => source_data
  end.

(** Every relative path the registry lists. *)
Definition registry_paths : list string :=
  relative_paths true ["web"; "desktop"].

(** The path at which the file of an action lands on the tree [m]. *)
Definition destination (m : gmap string Node) (source_path : string)
    (a : Action) : string :=
  match a with
  | CopySvg p => copy_destination m source_path p
  | _ => action_path a
  end.

(** The paths at which an action can leave a file: its output path,
    and for a copy the path inside the output path, should that be a
    directory. *)
Definition reach (source_path : string) (a : Action) : list string :=
  action_path a ::
  (if is_copy a then [joinpath (action_path a) (path_name source_path)]
   else []).

(** Two actions that cannot get in each other's way: no path one of
    them can write is a path the other can write or a directory above
    the other's output path. *)
Definition apart (source_path : string) (a b : Action) : Prop :=
  ∀ ka kb, ka ∈ reach source_path a → kb ∈ reach source_path b →
    ka ≠ kb ∧ (ka ∉ parents (action_path b)) ∧
    (kb ∉ parents (action_path a)).

Definition scattered (source_path : string) (l : list Action) : Prop :=
  NoDup l ∧ ∀ a b, a ∈ l → b ∈ l → a ≠ b → apart source_path a b.

(** What the tree must be like for an action to go through, the source
    file holding [source_data]. *)
Definition ready (w : World) (source : Image) (source_path : string)
    (source_data : FileData) (a : Action) (m : gmap string Node) : Prop :=
  (∀ q, q ∈ parents (action_path a) → dir_or_makeable w m q = true) ∧
  m !! destination m source_path a ≠ Some Dir ∧
  can_write w (destination m source_path a) = true ∧
  match a with
  | WritePng _ _ => True
  | WriteIco _ =>
      ico_frames source ((λ size, (size, size)) <$> ICO_ENTRY_SIZES) ≠ []
  | CopySvg _ =>
      destination m source_path a ≠ source_path ∧
      same_file w source_path (destination m source_path a) = false ∧
      m !! source_path = Some (File source_data)
  end.

(** The tree after an action that went through. *)
Definition put (w : World) (source : Image) (source_path : string)
    (source_data : FileData) (a : Action) (m : gmap string Node)
    : gmap string Node :=
  <[destination m source_path a :=
      File (action_data w source source_data a)]>
    (with_parents (action_path a) m).

(** An action whose file and directories are in place on a tree that
    is still ready for it: performing it again changes nothing. *)
Definition settled (w : World) (source : Image) (source_path : string)
    (source_data : FileData) (a : Action) (m : gmap string Node) : Prop :=
  ready w source source_path source_data a m ∧
  (∀ q, q ∈ parents (action_path a) → is_Some (m !! q)) ∧
  m !! destination m source_path a =
    Some (File (action_data w source source_data a)).

(** The directories the actions of a list may have to make. *)
Definition parents_of (l : list Action) : list string :=
  l ≫= λ a, parents (action_path a).

(** [ext] is [lowered] with any of its letters in upper case; the
    upper-case letter is 32 code points below the lower-case one. *)
Fixpoint case_mix (lowered ext : string) : Prop :=
  match lowered, ext with
  | EmptyString, EmptyString => True
  | String l lowered', String c ext' =>
      (c = l ∨ c = ascii_of_nat (nat_of_ascii l - 32)) ∧
      case_mix lowered' ext'
  | _, _ => False
  end.

(** ** Concrete runs

    A checkout at [/repo], sources under [/art], every write permitted. *)

Module Run.

Definition picture (side_w side_h : Z) (id : N) : Image :=
  {| width := side_w; height := side_h; pixels := Decoded id |}.

Definition tree : gmap string Node :=
  <["/art/icon.png" := File (ImageFile "PNG" (picture 512 512 1))]> $
  <["/art/small.PNG" := File (ImageFile "PNG" (picture 64 64 2))]> $
  <["/art/wide.png" := File (ImageFile "PNG" (picture 640 480 3))]> $
  <["/art/icon.svg" := File (OtherFile 4)]> $
  <["/art/Logo.SVG" := File (OtherFile 5)]> $
  <["/art" := Dir]> ∅.

Definition disk : Disk := {| nodes := tree; journal := [] |}.

(** ImageMagick is installed and draws every SVG as a square of 48
    pixels, which [-resize] brings to 1024x1024. *)
Definition world : World := {|
  prog := "sync_icons.py";
  ROOT_DIR := "/repo";
  expand_resolve := λ p, p;
  which := λ name,
    if String.eqb name "convert" then Some "/usr/bin/convert" else None;
  temp_dir := "/tmp/videnoa-icon-q7";
  subprocess_run := λ _ node,
    match node with
    | Some (File (OtherFile id)) =>
        Exited 0 (Some (Picture (picture 48 48 id)))
    | _ => Exited 1 None
    end;
  can_mkdir := λ _, true;
  can_write := λ _, true;
  same_file := λ _ _, false;
  ico_refusal := "no size fits the image";
  refused_save_leaves := λ _, OtherFile 0;
  has_resampling := true;
  legacy_lanczos := Some 1
|}.

(** The same machine without ImageMagick. *)
Definition world_without_convert : World := {|
  prog := prog world;
  ROOT_DIR := ROOT_DIR world;
  expand_resolve := expand_resolve world;
  which := λ _, None;
  temp_dir := temp_dir world;
  subprocess_run := subprocess_run world;
  can_mkdir := can_mkdir world;
  can_write := can_write world;
  same_file := same_file world;
  ico_refusal := ico_refusal world;
  refused_save_leaves := refused_save_leaves world;
  has_resampling := has_resampling world;
  legacy_lanczos := legacy_lanczos world
|}.

Definition argv (source_arg targets_arg : string) : Argv :=
  {| opt_source := Some source_arg; opt_targets := Some targets_arg |}.


End Run.

(** ** Further runs *)

Module Scene.

Definition tree : gmap string Node :=
  <["/art/icon.png" := File (ImageFile "PNG" (Run.picture 512 512 1))]> $
  <["/art/photo.png" := File (ImageFile "JPEG" (Run.picture 32 32 7))]> $
  <["/art/noise.png" := File (OtherFile 8)]> $
  <["/art/cut.png" := File (BrokenImageFile "image file is truncated")]> $
  <["/art/tiny.png" := File (ImageFile "PNG" (Run.picture 8 8 16))]> $
  <["/art/vast.png" :=
      File (ImageFile "PNG" (Run.picture 20000 20000 17))]> $
  <["/art/.svg" := File (OtherFile 9)]> $
  <["/art/.SVG" := File (OtherFile 15)]> $
  <["/art/icon.gif" := File (ImageFile "GIF" (Run.picture 64 64 12))]> $
  <["/art/icon.svg" := File (OtherFile 4)]> $
  <["/art/bad.svg" := File (OtherFile 10)]> $
  <["/art/void.svg" := File (OtherFile 13)]> $
  <["/repo/web/public/favicon.svg" := File (OtherFile 11)]> $
  <["/art" := Dir]> ∅.

Definition disk : Disk := {| nodes := tree; journal := [] |}.

(** ImageMagick fails on [bad.svg], writes garbage for [void.svg] and
    draws every other SVG as a square; the ICO file of the web target
    cannot be written. *)
Definition world : World := {|
  prog := "sync_icons.py";
  ROOT_DIR := "/repo";
  expand_resolve := λ p, p;
  which := λ name,
    if String.eqb name "convert" then Some "/usr/bin/convert" else None;
  temp_dir := "/tmp/videnoa-icon-q7";
  subprocess_run := λ _ node,
    match node with
    | Some (File (OtherFile 10)) => Exited 1 None
    | Some (File (OtherFile 13)) => Exited 0 (Some (Unidentifiable 14))
    | Some (File (OtherFile id)) =>
        Exited 0 (Some (Picture (Run.picture 48 48 id)))
    | _ => Exited 1 None
    end;
  can_mkdir := λ _, true;
  can_write := λ p, negb (String.eqb p "/repo/web/public/favicon.ico");
  same_file := λ _ _, false;
  ico_refusal := "no size fits the image";
  refused_save_leaves := λ _, OtherFile 0;
  has_resampling := true;
  legacy_lanczos := Some 1
|}.

(** The machine of [Run.world] with a [/repo/web] in which no directory
    can be made. *)
Definition world_without_mkdir : World := {|
  prog := prog Run.world;
  ROOT_DIR := ROOT_DIR Run.world;
  expand_resolve := expand_resolve Run.world;
  which := which Run.world;
  temp_dir := temp_dir Run.world;
  subprocess_run := subprocess_run Run.world;
  can_mkdir := λ q, negb (String.eqb q "/repo/web/public");
  can_write := can_write Run.world;
  same_file := same_file Run.world;
  ico_refusal := ico_refusal Run.world;
  refused_save_leaves := refused_save_leaves Run.world;
  has_resampling := has_resampling Run.world;
  legacy_lanczos := legacy_lanczos Run.world
|}.

(** A checkout in which the web target's SVG output path is a
    directory. *)
Definition tree_with_directory : gmap string Node :=
  <["/repo/web/public/favicon.svg" := Dir]> Run.tree.

Definition disk_with_directory : Disk :=
  {| nodes := tree_with_directory; journal := [] |}.

End Scene.

(** * Properties *)

(** ** Sanity checks on concrete inputs *)

Example parse_targets_web_desktop_web :
  parse_targets "web,desktop,web" = inr ["web"; "desktop"].
Proof. vm_compute. reflexivity. Qed.

Example parse_targets_bogus :
  parse_targets " bogus , web,zzz" =
  inl (ArgumentTypeError
         "unknown target(s): bogus,zzz. Supported targets: desktop,web").
Proof. vm_compute. reflexivity. Qed.

Example parse_targets_blank :
  parse_targets " , ," =
  inl (ArgumentTypeError "--targets must include at least one target").
Proof. vm_compute. reflexivity. Qed.

Example str_of_int_512 : Py.str_of_int 512 = "512".
Proof. vm_compute. reflexivity. Qed.

Example suffix_upper : suffix "/repo/assets/Icon.SVG" = ".SVG".
Proof. vm_compute. reflexivity. Qed.

Example suffix_hidden : suffix "/repo/assets/.svg" = "".
Proof. vm_compute. reflexivity. Qed.

Example suffix_tar : suffix "/repo/a.b/icon.tar.PNG" = ".PNG".
Proof. vm_compute. reflexivity. Qed.

Example suffix_none : suffix "/repo/a.b/icon" = "".
Proof. vm_compute. reflexivity. Qed.

Example run_png_web :
  (main Run.world (Run.argv "/art/icon.png" "web") Run.disk).1 =
  Exit 0 ["synced 4 icon files" +:+ newline] [].
Proof. vm_compute. reflexivity. Qed.

Example run_svg_web_desktop_web :
  event_path <$>
    journal (main Run.world (Run.argv "/art/Logo.SVG" "web,desktop,web")
               Run.disk).2 =
  [ "/repo/web/public/favicon-16x16.png";
    "/repo/web/public/favicon-32x32.png";
    "/repo/web/public/videnoa_icon.png";
    "/repo/web/public/favicon.ico";
    "/repo/web/public/favicon.svg";
    "/repo/crates/desktop/icons/icon.png";
    "/repo/crates/desktop/icons/icon-32.png";
    "/repo/crates/desktop/icons/icon-64.png";
    "/repo/crates/desktop/icons/icon-128.png";
    "/repo/crates/desktop/icons/icon-256.png";
    "/repo/crates/desktop/icons/icon.ico" ].
Proof. vm_compute. reflexivity. Qed.

Example run_svg_desktop :
  (main Run.world (Run.argv "/art/icon.svg" "desktop") Run.disk).1 =
  Exit 0 ["synced 6 icon files" +:+ newline] [].
Proof. vm_compute. reflexivity. Qed.

Example run_missing_source :
  main Run.world (Run.argv "/art/nothing.png" "web") Run.disk =
  (Exit 1 [] ["error: source file does not exist: /art/nothing.png" +:+
              newline], Run.disk).
Proof. vm_compute. reflexivity. Qed.

Example run_directory_source :
  main Run.world (Run.argv "/art" "web") Run.disk =
  (Exit 1 [] ["error: source path is not a file: /art" +:+ newline],
   Run.disk).
Proof. vm_compute. reflexivity. Qed.

Example run_blank_targets :
  (main Run.world (Run.argv "/art/icon.png" " , ") Run.disk).1 =
  Exit 2 []
    [ format_usage "sync_icons.py";
      "sync_icons.py: error: argument --targets: " +:+
      "--targets must include at least one target" +:+ newline ].
Proof. vm_compute. reflexivity. Qed.

Example full_size_ico :
  embedded_sizes <$>
    file_at (main Run.world (Run.argv "/art/icon.png" "web") Run.disk).2
            "/repo/web/public/favicon.ico" =
  Some [(16, 16); (24, 24); (32, 32); (48, 48); (64, 64);
        (128, 128); (256, 256)].
Proof. vm_compute. reflexivity. Qed.

(** ** Lemmas on the string primitives *)

Section py_strings.
Implicit Types (s a b sub : string) (c : ascii).

Lemma split_nonempty c s : Py.split c s ≠ [].
Proof.
  destruct s as [|x s]; simpl; [done|].
  destruct (Ascii.eqb x c); [done|]. by destruct (Py.split c s).
Qed.

Lemma app_nil_l b : EmptyString +:+ b = b.
Proof. reflexivity. Qed.

Lemma app_cons c a b : String c a +:+ b = String c (a +:+ b).
Proof. reflexivity. Qed.

Lemma len_cons c s : Py.len (String c s) = Py.len s + 1.
Proof. unfold Py.len. cbn [String.length]. lia. Qed.

Lemma len_nonneg s : 0 ≤ Py.len s.
Proof. unfold Py.len. lia. Qed.

Lemma len_app a b : Py.len (a +:+ b) = Py.len a + Py.len b.
Proof.
  induction a as [|x a IH]; [rewrite app_nil_l; unfold Py.len; simpl; lia|].
  rewrite app_cons, !len_cons, IH. lia.
Qed.

Lemma all_chars_app (P : ascii → bool) a b :
  all_chars P (a +:+ b) = all_chars P a && all_chars P b.
Proof.
  induction a as [|x a IH]; [done|].
  rewrite app_cons. simpl. by rewrite IH, andb_assoc.
Qed.

Lemma rfind_absent c s :
  all_chars (not_char c) s = true → Py.rfind c s = -1.
Proof.
  induction s as [|x s IH]; simpl; [done|].
  intros [Hx Hs]%andb_prop. rewrite (IH Hs). simpl.
  unfold not_char in Hx. by destruct (Ascii.eqb x c).
Qed.

Lemma rfind_app_last c a b :
  all_chars (not_char c) b = true →
  Py.rfind c (a +:+ String c b) = Py.len a.
Proof.
  intros Hb. induction a as [|x a IH].
  - rewrite app_nil_l. simpl. rewrite (rfind_absent _ _ Hb). simpl.
    by rewrite Ascii.eqb_refl.
  - rewrite app_cons. cbn [Py.rfind]. rewrite IH, len_cons.
    pose proof (len_nonneg a).
    by destruct (Z.leb_spec 0 (Py.len a)); [|lia].
Qed.

Lemma slice_from_app a b : Py.slice_from (String.length a) (a +:+ b) = b.
Proof.
  induction a as [|x a IH]; [rewrite app_nil_l; by destruct b|].
  rewrite app_cons. done.
Qed.

Lemma prefix_app sub b : String.prefix sub (sub +:+ b) = true.
Proof.
  induction sub as [|x sub IH]; [rewrite app_nil_l; by destruct b|].
  rewrite app_cons. simpl. destruct (ascii_dec x x); [done|congruence].
Qed.

Lemma contains_app a sub b : Py.contains sub (a +:+ sub +:+ b) = true.
Proof.
  induction a as [|x a IH].
  - rewrite app_nil_l. pose proof (prefix_app sub b) as H.
    destruct (sub +:+ b); cbn [Py.contains]; by rewrite H.
  - rewrite app_cons. cbn [Py.contains]. rewrite IH. apply orb_true_r.
Qed.

Lemma app_assoc_str a b s : (a +:+ b) +:+ s = a +:+ (b +:+ s).
Proof.
  induction a as [|x a IH]; [done|]. by rewrite !app_cons, IH.
Qed.

Lemma path_name_app dir name :
  all_chars (not_char "/") name = true →
  path_name (dir +:+ String "/" name) = name.
Proof.
  intros Hn. unfold path_name. rewrite (rfind_app_last _ _ _ Hn).
  replace (Z.to_nat (Py.len dir + 1)) with (String.length (dir +:+ "/")).
  - replace (dir +:+ String "/" name) with ((dir +:+ "/") +:+ name)
      by (by rewrite app_assoc_str). apply slice_from_app.
  - pose proof (len_app dir "/") as H. unfold Py.len in *.
    simpl String.length in H. lia.
Qed.

(** A file name [stem.ext] with a non-empty stem and a non-empty,
    dot-free extension has the suffix [.ext]. *)
Lemma suffix_stem_ext dir stem ext :
  stem ≠ EmptyString → ext ≠ EmptyString →
  all_chars (not_char "/") stem = true →
  all_chars (not_char "/") ext = true →
  all_chars (not_char ".") ext = true →
  suffix (dir +:+ String "/" (stem +:+ String "." ext)) = String "." ext.
Proof.
  intros Hstem Hext Hs1 He1 He2. unfold suffix.
  rewrite path_name_app.
  2:{ rewrite all_chars_app. simpl. rewrite Hs1, He1. done. }
  rewrite (rfind_app_last _ _ _ He2), len_app, len_cons.
  assert (0 < Py.len stem).
  { destruct stem; [done|]. rewrite len_cons. pose proof (len_nonneg stem). lia. }
  assert (0 < Py.len ext).
  { destruct ext; [done|]. rewrite len_cons. pose proof (len_nonneg ext). lia. }
  destruct (Z.ltb_spec 0 (Py.len stem)); [|lia].
  destruct (Z.ltb_spec (Py.len stem)
              (Py.len stem + (Py.len ext + 1) - 1)); [|lia].
  simpl. unfold Py.len. rewrite Nat2Z.id. apply slice_from_app.
Qed.
End py_strings.

(** ** Lemmas on the registry and on [parse_targets] *)

Section registry.
Lemma known_targets : dom MANAGED_TARGETS = ({["desktop"; "web"]} : gset string).
Proof.
  unfold MANAGED_TARGETS. rewrite !dom_insert_L, dom_empty_L. set_solver.
Qed.

Lemma lookup_web : MANAGED_TARGETS !! "web" = Some web_config.
Proof. reflexivity. Qed.

Lemma lookup_desktop : MANAGED_TARGETS !! "desktop" = Some desktop_config.
Proof. reflexivity. Qed.

Lemma registered_iff (t : string) :
  is_Some (MANAGED_TARGETS !! t) ↔ t = "web" ∨ t = "desktop".
Proof.
  rewrite <- elem_of_dom, known_targets. set_solver.
Qed.

Lemma registered_cases (t : string) (config : TargetConfig) :
  MANAGED_TARGETS !! t = Some config →
  (t = "web" ∧ config = web_config) ∨
  (t = "desktop" ∧ config = desktop_config).
Proof.
  intros H. destruct (proj1 (registered_iff t)) as [->| ->]; [by eexists|..].
  - left. rewrite lookup_web in H. by simplify_eq.
  - right. rewrite lookup_desktop in H. by simplify_eq.
Qed.
End registry.

Section parse_targets_facts.
Implicit Types (value tok : string) (raw ts : list string)
  (seen : gset string).

Lemma raw_targets_elem value tok :
  tok ∈ raw_targets_of value ↔
  ∃ segment, segment ∈ Py.split "," value ∧
             Py.strip segment = tok ∧ tok ≠ EmptyString.
Proof.
  unfold raw_targets_of. rewrite list_elem_of_fmap. split.
  - intros (seg & -> & [Hne Hin]%list_elem_of_filter). eauto.
  - intros (seg & Hin & <- & Hne). exists seg. split; [done|].
    by apply list_elem_of_filter.
Qed.

Lemma elem_of_sorted (x : string) (X : gset string) :
  x ∈ Py.sorted X ↔ x ∈ X.
Proof.
  unfold Py.sorted. by rewrite merge_sort_Permutation, elem_of_elements.
Qed.

Lemma sorted_nil (X : gset string) : Py.sorted X = [] ↔ X = ∅.
Proof.
  unfold Py.sorted. split.
  - intros H. apply leibniz_equiv, elements_empty_iff.
    apply Permutation_nil_r. by rewrite <- (merge_sort_Permutation String.le), H.
  - intros ->. by rewrite elements_empty.
Qed.

Lemma sorted_known : Py.sorted (dom MANAGED_TARGETS) = ["desktop"; "web"].
Proof. vm_compute. reflexivity. Qed.

(** The loop appends to [deduped] the first occurrences not yet seen. *)
Lemma dedupe_first_occurrences raw seen deduped :
  dedupe raw seen deduped =
  deduped ++ filter (λ x, x ∉ seen) (first_occurrences raw).
Proof.
  revert seen deduped. induction raw as [|x raw IH]; intros seen deduped.
  - simpl. by rewrite app_nil_r.
  - cbn [dedupe first_occurrences]. rewrite filter_cons.
    rewrite list_filter_filter.
    destruct (decide (x ∈ seen)) as [Hin|Hout].
    + rewrite IH. destruct (decide (x ∉ seen)); [done|]. f_equal.
      apply list_filter_iff. intros y. split; [|tauto].
      intros Hy. split; [done|]. by intros ->.
    + rewrite IH. destruct (decide (x ∉ seen)); [|done].
      rewrite <- app_assoc. simpl. do 2 f_equal.
      apply list_filter_iff. intros y. set_solver.
Qed.

Lemma first_occurrences_elem raw (x : string) :
  x ∈ first_occurrences raw ↔ x ∈ raw.
Proof.
  induction raw as [|y raw IH]; simpl; [done|].
  rewrite !elem_of_cons, list_elem_of_filter, IH.
  destruct (decide (x = y)); naive_solver.
Qed.

Lemma first_occurrences_NoDup raw : NoDup (first_occurrences raw).
Proof.
  induction raw as [|y raw IH]; simpl; [constructor|].
  constructor; [|by apply NoDup_filter].
  rewrite list_elem_of_filter. tauto.
Qed.

Lemma first_occurrences_sublist raw : first_occurrences raw `sublist_of` raw.
Proof.
  induction raw as [|y raw IH]; simpl; [done|].
  apply sublist_skip. etrans; [apply sublist_filter|done].
Qed.

Lemma filter_all (P : string → Prop) `{!∀ x, Decision (P x)} raw :
  (∀ x, P x) → filter P raw = raw.
Proof.
  intros HP. induction raw as [|y raw IH]; [done|].
  rewrite filter_cons, IH. destruct (decide (P y)) as [|[]]; [done|apply HP].
Qed.

(** When [parse_targets] returns, and what. *)
Lemma parse_targets_inr value ts :
  parse_targets value = inr ts ↔
  raw_targets_of value ≠ [] ∧
  (∀ tok, tok ∈ raw_targets_of value → tok ∈ dom MANAGED_TARGETS) ∧
  ts = first_occurrences (raw_targets_of value).
Proof.
  unfold parse_targets. destruct (raw_targets_of value) as [|t raw] eqn:E.
  { split; [done|]. by intros [? _]. }
  destruct (Py.sorted _) as [|u unknown] eqn:Eu.
  - apply sorted_nil in Eu. rewrite dedupe_first_occurrences. simpl app.
    rewrite filter_all by set_solver. split.
    + intros [= <-]. split; [done|]. split; [|done].
      intros tok Htok. apply dec_stable. intros Hn.
      assert (tok ∈ (list_to_set (t :: raw) ∖ dom MANAGED_TARGETS
                     : gset string)) as Hin
        by (apply elem_of_difference; split;
            [by apply elem_of_list_to_set|done]).
      rewrite Eu in Hin. set_solver.
    + by intros (_ & _ & ->).
  - split; [done|]. intros (_ & Hall & _).
    assert (u ∈ Py.sorted (list_to_set (t :: raw) ∖ dom MANAGED_TARGETS))
      as Hu by (rewrite Eu; left).
    apply elem_of_sorted, elem_of_difference in Hu as [Hu1 Hu2].
    apply elem_of_list_to_set in Hu1. by apply Hall in Hu1.
Qed.

Lemma parse_targets_registered value ts :
  parse_targets value = inr ts →
  Forall (λ t, is_Some (MANAGED_TARGETS !! t)) ts.
Proof.
  intros (_ & Hall & ->)%parse_targets_inr. apply Forall_forall.
  intros t Ht%first_occurrences_elem%Hall. by apply elem_of_dom in Ht.
Qed.

Lemma parse_targets_NoDup value ts : parse_targets value = inr ts → NoDup ts.
Proof.
  intros (_ & _ & ->)%parse_targets_inr. apply first_occurrences_NoDup.
Qed.
End parse_targets_facts.

(** ** Lemmas on the writer *)

Section writer.
Context (w : World) (source : Image) (source_path : string).
Implicit Types (d : Disk) (a : Action) (l : list Action) (e : exn).

Local Abbreviation run := (perform_all w source source_path).
Local Abbreviation step := (perform w source source_path).

Lemma bind_run {A B} (m : IO A) (k : A → IO B) d :
  (m ≫= k) d =
  match m d with
  | (inr x, d') => k x d'
  | (inl e, d') => (inl e, d')
  end.
Proof. reflexivity. Qed.

Lemma run_cons a l d :
  run (a :: l) d =
  match step a d with
  | (inr _, d') => run l d'
  | (inl e, d') => (inl e, d')
  end.
Proof. reflexivity. Qed.

Lemma run_app l1 l2 d :
  run (l1 ++ l2) d =
  match run l1 d with
  | (inr _, d') => run l2 d'
  | (inl e, d') => (inl e, d')
  end.
Proof.
  revert d. induction l1 as [|a l1 IH]; intros d; [done|].
  rewrite <- app_comm_cons, !run_cons.
  destruct (step a d) as [[e|[]] d1]; [done|]. apply IH.
Qed.

(** A loop whose body performs one action and records its path. *)
Lemma for_each_actions {A} (f : A → Action)
    (body : A → list string → IO (list string)) :
  (∀ x written d,
     body x written d =
     match step (f x) d with
     | (inr _, d') => (inr (written ++ [action_path (f x)]), d')
     | (inl e, d') => (inl e, d')
     end) →
  ∀ xs written d,
    for_each xs body written d =
    match run (f <$> xs) d with
    | (inr _, d') => (inr (written ++ (action_path <$> (f <$> xs))), d')
    | (inl e, d') => (inl e, d')
    end.
Proof.
  intros Hbody xs. induction xs as [|x xs IH]; intros written d.
  - simpl. by rewrite app_nil_r.
  - cbn [for_each]. rewrite bind_run, Hbody, fmap_cons, run_cons.
    destruct (step (f x) d) as [[e|[]] d1]; [done|].
    rewrite IH. destruct (run (f <$> xs) d1) as [[e|[]] d2]; [done|].
    by rewrite fmap_cons, <- app_assoc.
Qed.

Lemma plan_cons root is_svg t ts config :
  MANAGED_TARGETS !! t = Some config →
  plan root is_svg (t :: ts) =
  target_plan root is_svg config ++ plan root is_svg ts.
Proof. intros H. unfold plan. by rewrite bind_cons, H. Qed.

(** The nested loops of [sync_targets] perform the plan, in order, and
    return its paths. *)
Lemma sync_targets_plan ts d :
  Forall (λ t, is_Some (MANAGED_TARGETS !! t)) ts →
  sync_targets w source source_path ts d =
  match run (plan (ROOT_DIR w) (source_is_svg source_path) ts) d with
  | (inr _, d') =>
      (inr (action_path <$>
              plan (ROOT_DIR w) (source_is_svg source_path) ts), d')
  | (inl e, d') => (inl e, d')
  end.
Proof.
  intros Hts. unfold sync_targets.
  match goal with |- for_each _ ?b _ _ = _ => set (body := b) end.
  enough (∀ written,
    for_each ts body written d =
    match run (plan (ROOT_DIR w) (source_is_svg source_path) ts) d with
    | (inr _, d') =>
        (inr (written ++ (action_path <$>
                plan (ROOT_DIR w) (source_is_svg source_path) ts)), d')
    | (inl e, d') => (inl e, d')
    end) as Hgen by apply Hgen.
  revert d. induction Hts as [|t ts [config Ht] Hts IH]; intros d written.
  - simpl. by rewrite app_nil_r.
  - cbn [for_each]. rewrite bind_run. unfold body at 1.
    rewrite bind_run. unfold lookup_target. rewrite Ht.
    cbn [io_ret]. rewrite (plan_cons _ _ _ _ _ Ht).
    unfold target_plan. rewrite <- !app_assoc, !fmap_app, run_app.
    rewrite bind_run.
    rewrite (for_each_actions
               (λ entry : Z * string,
                  WritePng entry.1 (joinpath (ROOT_DIR w) entry.2)))
      by (by intros [size relative] ??).
    destruct (run _ d) as [[e|[]] d1]; [done|].
    rewrite bind_run, run_app.
    rewrite (for_each_actions
               (λ relative, WriteIco (joinpath (ROOT_DIR w) relative)))
      by (intros ???; reflexivity).
    destruct (run _ d1) as [[e|[]] d2]; [done|].
    fold (source_is_svg source_path). rewrite run_app.
    destruct (source_is_svg source_path).
    + rewrite (for_each_actions
                 (λ relative, CopySvg (joinpath (ROOT_DIR w) relative)))
        by (intros ???; reflexivity).
      destruct (run _ d2) as [[e|[]] d3]; [done|].
      rewrite IH. destruct (run _ d3) as [[e|[]] d4]; [done|].
      by rewrite <- !app_assoc.
    + cbn [mret io_mret io_ret perform_all]. rewrite IH.
      destruct (run _ d2) as [[e|[]] d4]; [done|].
      by rewrite <- !app_assoc.
Qed.
End writer.

(** ** Lemmas on paths *)

Section paths.
Implicit Types (p q r s root : string) (c : ascii).

Lemma parents_elem p q :
  q ∈ parents p → q ≠ EmptyString ∧ ∃ x, p = q +:+ String "/" x.
Proof.
  revert q. induction p as [|c rest IH]; intros q; [by intros ?%elem_of_nil|].
  cbn [parents].
  assert (q ∈ String c <$> parents rest →
          q ≠ EmptyString ∧ ∃ x, String c rest = q +:+ String "/" x) as Hdeep.
  { intros (q' & -> & Hq')%list_elem_of_fmap.
    destruct (IH _ Hq') as [_ [x ->]]. split; [done|]. by exists x. }
  destruct rest as [|c' rest']; [done|].
  destruct (Ascii.eqb_spec c' "/") as [->|Hne].
  - intros [->|Hq]%elem_of_cons; [|by apply Hdeep].
    split; [done|]. by exists rest'.
  - intros Hq. apply Hdeep.
    destruct c' as [[] [] [] [] [] [] [] []]; try done.
Qed.

Lemma length_app_str a b :
  String.length (a +:+ b) = (String.length a + String.length b)%nat.
Proof. induction a as [|c a IH]; [done|]. rewrite app_cons. simpl. lia. Qed.

Lemma parents_shorter p q :
  q ∈ parents p → (String.length q < String.length p)%nat.
Proof.
  intros [_ [x ->]]%parents_elem. rewrite length_app_str. simpl. lia.
Qed.

Lemma joinpath_app root r s : joinpath root r +:+ s = joinpath root (r +:+ s).
Proof.
  unfold joinpath. destruct (String.eqb root "/");
    by rewrite ?app_assoc_str.
Qed.

Lemma joinpath_not_root root r : r ≠ EmptyString → joinpath root r ≠ "/".
Proof.
  intros Hr. unfold joinpath. destruct (String.eqb_spec root "/") as [->|Hroot].
  - destruct r; [done|]. discriminate.
  - destruct root as [|c root]; [destruct r; [done|discriminate]|].
    rewrite app_cons. destruct root; [|discriminate].
    by intros [= ->].
Qed.

Lemma joinpath_nest root r n :
  r ≠ EmptyString →
  joinpath (joinpath root r) n = joinpath root (r +:+ String "/" n).
Proof.
  intros Hr. unfold joinpath at 1.
  destruct (String.eqb_spec (joinpath root r) "/") as [Heq|_];
    [by apply joinpath_not_root in Heq|].
  apply joinpath_app.
Qed.

Lemma length_joinpath p x :
  (String.length p ≤ String.length (joinpath p x))%nat.
Proof.
  unfold joinpath. destruct (String.eqb_spec p "/") as [->|_];
    rewrite !length_app_str; simpl; lia.
Qed.

Lemma parents_not_self p : p ∉ parents p.
Proof. intros ?%parents_shorter. lia. Qed.

Lemma parents_not_inside p x : joinpath p x ∉ parents p.
Proof. intros ?%parents_shorter. pose proof (length_joinpath p x). lia. Qed.
End paths.

(** ** Lemmas on the effects of one action *)

Section effects.
Context (w : World) (source : Image) (source_path : string).
Implicit Types (d : Disk) (a b : Action) (l : list Action) (e : exn)
  (m : gmap string Node) (k p q : string) (D : FileData).

Local Abbreviation run := (perform_all w source source_path).
Local Abbreviation step := (perform w source source_path).
Local Abbreviation sizes := ((λ size : Z, (size, size)) <$> ICO_ENTRY_SIZES).

Lemma make_dirs_lookup (qs : list string) m k :
  foldl (λ m q, make_dir q m) m qs !! k =
  match m !! k with
  | Some n => Some n
  | None => if decide (k ∈ qs) then Some Dir else None
  end.
Proof.
  revert m. induction qs as [|q qs IH]; intros m; simpl.
  - by destruct (m !! k).
  - rewrite IH. unfold make_dir. destruct (m !! q) eqn:Hq.
    + destruct (m !! k) eqn:Hk; [done|].
      repeat case_decide; try done; set_solver.
    + destruct (decide (k = q)) as [->|Hne].
      * rewrite lookup_insert_eq, Hq.
        destruct (decide (q ∈ q :: qs)) as [|[]]; [done|by left].
      * rewrite lookup_insert_ne by done. destruct (m !! k); [done|].
        repeat case_decide; try done; set_solver.
Qed.

Lemma with_parents_lookup p m k :
  with_parents p m !! k =
  match m !! k with
  | Some n => Some n
  | None => if decide (k ∈ parents p) then Some Dir else None
  end.
Proof. apply make_dirs_lookup. Qed.

Lemma with_parents_some p m k n :
  m !! k = Some n → with_parents p m !! k = Some n.
Proof. intros H. by rewrite with_parents_lookup, H. Qed.

Lemma with_parents_keep p m k :
  k ∉ parents p → with_parents p m !! k = m !! k.
Proof.
  intros H. rewrite with_parents_lookup. destruct (m !! k); [done|].
  by case_decide.
Qed.

Lemma with_parents_file p m k D :
  with_parents p m !! k = Some (File D) ↔ m !! k = Some (File D).
Proof.
  rewrite with_parents_lookup. destruct (m !! k); [done|].
  by case_decide.
Qed.

Lemma make_dir_makeable m q q' :
  dir_or_makeable w m q' = true →
  dir_or_makeable w (make_dir q' m) q = dir_or_makeable w m q ∨
  (q = q' ∧ dir_or_makeable w (make_dir q' m) q = true).
Proof.
  unfold dir_or_makeable, make_dir. intros Hq'.
  destruct (m !! q') as [n|] eqn:E; [by left|].
  destruct (decide (q = q')) as [->|Hne].
  - right. by rewrite lookup_insert_eq.
  - left. by rewrite lookup_insert_ne.
Qed.

(** What [mkdir] leaves, whether it could make every directory or not. *)
Lemma make_dirs_inv (qs : list string) m ok m' :
  make_dirs w qs m = (ok, m') →
  (∀ k, m' !! k = m !! k ∨
        (m !! k = None ∧ m' !! k = Some Dir ∧ k ∈ qs)) ∧
  (ok = true →
   m' = foldl (λ m q, make_dir q m) m qs ∧
   ∀ q, q ∈ qs → dir_or_makeable w m q = true).
Proof.
  revert m. induction qs as [|q0 qs IH]; intros m; simpl.
  { intros [= <- <-]. split; [by left|]. split; [done|].
    by intros q ?%elem_of_nil. }
  destruct (dir_or_makeable w m q0) eqn:Hq0;
    [|intros [= <- <-]; split; [by left|done]].
  intros [Hk Hok]%IH. split.
  - intros k. destruct (Hk k) as [Hsame|(Hnone & Hdir & Hin)].
    + rewrite Hsame. unfold make_dir.
      destruct (m !! q0) as [n|] eqn:E; [by left|].
      destruct (decide (k = q0)) as [->|Hne].
      * right. rewrite lookup_insert_eq. split_and!; [done..|by left].
      * left. by rewrite lookup_insert_ne.
    + right. split_and!; [|done|by right].
      unfold make_dir in Hnone. destruct (m !! q0) as [n|] eqn:E; [done|].
      destruct (decide (k = q0)) as [->|Hne];
        [by rewrite lookup_insert_eq in Hnone|].
      by rewrite lookup_insert_ne in Hnone.
  - intros ->. destruct (Hok eq_refl) as [-> Hall]. split; [done|].
    intros q [->|Hin]%elem_of_cons; [done|].
    destruct (make_dir_makeable m q q0 Hq0) as [<-|[-> _]]; [|done].
    by apply Hall.
Qed.

Lemma make_dirs_ok (qs : list string) m :
  (∀ q, q ∈ qs → dir_or_makeable w m q = true) →
  make_dirs w qs m = (true, foldl (λ m q, make_dir q m) m qs).
Proof.
  revert m. induction qs as [|q0 qs IH]; intros m Hall; simpl; [done|].
  rewrite (Hall q0) by (by left). apply IH.
  intros q Hin.
  destruct (make_dir_makeable m q q0 (Hall q0 ltac:(by left)))
    as [->|[_ ->]]; [|done].
  apply Hall. by right.
Qed.

Lemma copy_destination_with_parents p m :
  copy_destination (with_parents p m) source_path p =
  copy_destination m source_path p.
Proof.
  unfold copy_destination.
  by rewrite (with_parents_keep _ _ _ (parents_not_self p)).
Qed.

Lemma destination_reach m a : destination m source_path a ∈ reach source_path a.
Proof.
  destruct a as [size p|p|p]; cbn [destination reach action_path is_copy];
    [by left..|].
  unfold copy_destination. destruct (m !! p) as [[|]|]; set_solver.
Qed.

Lemma destination_above m a :
  destination m source_path a ∉ parents (action_path a).
Proof.
  destruct a as [size p|p|p]; cbn [destination action_path];
    [apply parents_not_self..|].
  unfold copy_destination.
  destruct (m !! p) as [[|]|];
    auto using parents_not_self, parents_not_inside.
Qed.

Lemma destination_ext m1 m2 a :
  (m1 !! action_path a = Some Dir ↔ m2 !! action_path a = Some Dir) →
  destination m1 source_path a = destination m2 source_path a.
Proof.
  destruct a as [size p|p|p]; cbn [destination action_path]; [done..|].
  unfold copy_destination. intros H.
  destruct (m1 !! p) as [[|D1]|] eqn:E1, (m2 !! p) as [[|D2]|] eqn:E2;
    try done; naive_solver.
Qed.

Lemma mkdir_parents_inv p d r d' :
  mkdir_parents w p d = (r, d') →
  (r = inr () ∧
   (∀ q, q ∈ parents p → dir_or_makeable w (nodes d) q = true) ∧
   nodes d' = with_parents p (nodes d) ∧ journal d' = journal d) ∨
  (∃ msg, r = inl (OSError msg) ∧ journal d' = journal d ∧
     ∀ k, nodes d' !! k = nodes d !! k ∨
          (nodes d !! k = None ∧ nodes d' !! k = Some Dir ∧
           k ∈ parents p)).
Proof.
  unfold mkdir_parents.
  destruct (make_dirs w (parents p) (nodes d)) as [[|] m] eqn:E;
    apply make_dirs_inv in E as [Hk Hok]; intros [= <- <-]; [left|right].
  - destruct (Hok eq_refl) as [-> Hall]. by split_and!.
  - eexists. by split_and!.
Qed.

Lemma mkdir_parents_ok p d :
  (∀ q, q ∈ parents p → dir_or_makeable w (nodes d) q = true) →
  mkdir_parents w p d =
    (inr (), {| nodes := with_parents p (nodes d); journal := journal d |}).
Proof. intros H. unfold mkdir_parents. by rewrite make_dirs_ok. Qed.

Lemma write_file_inv p data ev d r d' :
  write_file w p data ev d = (r, d') →
  (r = inr () ∧ nodes d !! p ≠ Some Dir ∧ can_write w p = true ∧
   nodes d' = <[p := File data]> (nodes d) ∧
   journal d' = journal d ++ [ev]) ∨
  (∃ msg, r = inl (OSError msg) ∧ d' = d).
Proof.
  unfold write_file.
  destruct (nodes d !! p) as [[|old]|] eqn:E;
    [intros [= <- <-]; right; eauto|..];
    (destruct (can_write w p); intros [= <- <-]; [left|right; eauto]);
    by split_and!.
Qed.

Lemma write_file_ok p data ev d :
  nodes d !! p ≠ Some Dir → can_write w p = true →
  write_file w p data ev d =
    (inr (), {| nodes := <[p := File data]> (nodes d);
                journal := journal d ++ [ev] |}).
Proof.
  intros Hd Hw. unfold write_file. rewrite Hw.
  by destruct (nodes d !! p) as [[|old]|].
Qed.

Lemma refused_save_inv p d r d' :
  refused_save w p d = (r, d') →
  journal d' = journal d ∧
  (∀ k, k ≠ p → nodes d' !! k = nodes d !! k) ∧
  (r = inl (ValueError (ico_refusal w)) ∨ ∃ msg, r = inl (OSError msg)).
Proof.
  unfold refused_save.
  destruct (nodes d !! p) as [[|old]|] eqn:E;
    [intros [= <- <-]; split_and!; eauto|..];
    (destruct (can_write w p); intros [= <- <-]; simpl;
     split_and!; eauto; intros k Hk; by rewrite ?lookup_insert_ne).
Qed.

(** What an action that went through found and did. *)
Lemma perform_ok_inv a d d' :
  step a d = (inr (), d') →
  (∀ q, q ∈ parents (action_path a) →
        dir_or_makeable w (nodes d) q = true) ∧
  nodes d !! destination (nodes d) source_path a ≠ Some Dir ∧
  can_write w (destination (nodes d) source_path a) = true ∧
  journal d' = journal d ++ [event_of source_path a] ∧
  ∃ x, nodes d' = <[destination (nodes d) source_path a := File x]>
                    (with_parents (action_path a) (nodes d)) ∧
       (∀ f, written_data w source a = Some f → x = f) ∧
       (∀ p, a = WriteIco p → ico_frames source sizes ≠ []) ∧
       (is_copy a = true →
        destination (nodes d) source_path a ≠ source_path ∧
        same_file w source_path (destination (nodes d) source_path a)
          = false ∧
        nodes d !! source_path = Some (File x)).
Proof.
  destruct a as [size p|p|p];
    cbn [perform action_path event_of destination is_copy written_data].
  - unfold save_png. rewrite bind_run.
    destruct (mkdir_parents w p d) as [[e|[]] d1] eqn:Hm; [done|].
    apply mkdir_parents_inv in Hm as [(_ & Hq & Hn & Hj)|(? & ? & _)]; [|done].
    intros [(_ & Hd & Hw & Hn' & Hj')|(? & ? & _)]%write_file_inv; [|done].
    rewrite Hn, Hj in *.
    rewrite (with_parents_keep _ _ _ (parents_not_self p)) in Hd.
    split_and!; try done. eexists. split_and!; [done| |done|done].
    by intros f [= <-].
  - unfold save_ico. rewrite bind_run.
    destruct (mkdir_parents w p d) as [[e|[]] d1] eqn:Hm; [done|].
    apply mkdir_parents_inv in Hm as [(_ & Hq & Hn & Hj)|(? & ? & _)]; [|done].
    destruct (ico_frames source sizes) as [|frame frames] eqn:Hframes.
    { by intros (_ & _ & [?|[? ?]])%refused_save_inv. }
    intros [(_ & Hd & Hw & Hn' & Hj')|(? & ? & _)]%write_file_inv; [|done].
    rewrite Hn, Hj in *.
    rewrite (with_parents_keep _ _ _ (parents_not_self p)) in Hd.
    split_and!; try done. eexists. split_and!; [done| |done|done].
    by intros f [= <-].
  - unfold save_svg. rewrite bind_run.
    destruct (mkdir_parents w p d) as [[e|[]] d1] eqn:Hm; [done|].
    apply mkdir_parents_inv in Hm as [(_ & Hq & Hn & Hj)|(? & ? & _)]; [|done].
    unfold copy2. rewrite Hn, copy_destination_with_parents.
    set (dst := copy_destination (nodes d) source_path p).
    destruct (String.eqb_spec source_path dst) as [|Hne]; [done|].
    destruct (same_file w source_path dst) eqn:Hsame; [done|]. simpl.
    destruct (with_parents p (nodes d) !! source_path) as [[|data]|] eqn:Hsrc;
      [done| |done].
    apply with_parents_file in Hsrc.
    intros [(_ & Hd & Hw & Hn' & Hj')|(? & ? & _)]%write_file_inv; [|done].
    rewrite Hn, Hj in *.
    rewrite with_parents_keep in Hd
      by apply (destination_above (nodes d) (CopySvg p)).
    split_and!; try done. exists data. by split_and!.
Qed.

Lemma perform_ready D a d d' :
  step a d = (inr (), d') →
  (is_copy a = true → nodes d !! source_path = Some (File D)) →
  ready w source source_path D a (nodes d) ∧
  nodes d' = put w source source_path D a (nodes d) ∧
  journal d' = journal d ++ [event_of source_path a].
Proof.
  intros (Hq & Hd & Hw & Hj & x & Hn & Hx & Hico & Hcopy)%perform_ok_inv HD.
  assert (x = action_data w source D a) as ->.
  { destruct a as [size p|p|p]; cbn [action_data];
      [by apply Hx..|].
    destruct (Hcopy eq_refl) as (_ & _ & Hsrc).
    rewrite (HD eq_refl) in Hsrc. by injection Hsrc. }
  split_and!; [|done..]. unfold ready. split_and!; [done..|].
  destruct a as [size p|p|p]; [done|by eapply Hico|by apply Hcopy].
Qed.

(** An action goes through when the tree is ready for it. *)
Lemma perform_ok D a d :
  ready w source source_path D a (nodes d) →
  step a d =
    (inr (), {| nodes := put w source source_path D a (nodes d);
                journal := journal d ++ [event_of source_path a] |}).
Proof.
  intros (Hq & Hd & Hw & Ha). unfold put.
  destruct a as [size p|p|p];
    cbn [perform action_path event_of destination action_data] in *.
  - unfold save_png. rewrite bind_run, mkdir_parents_ok by done.
    rewrite write_file_ok; [done| |done]. cbn [nodes].
    by rewrite (with_parents_keep _ _ _ (parents_not_self p)).
  - unfold save_ico. rewrite bind_run, mkdir_parents_ok by done.
    destruct (ico_frames source sizes) as [|frame frames] eqn:Hframes;
      [done|].
    rewrite <- Hframes. rewrite write_file_ok; [done| |done]. cbn [nodes].
    by rewrite (with_parents_keep _ _ _ (parents_not_self p)).
  - unfold save_svg. rewrite bind_run, mkdir_parents_ok by done.
    unfold copy2. cbn [nodes]. rewrite copy_destination_with_parents.
    destruct Ha as (Hne & Hsame & Hsrc).
    destruct (String.eqb_spec source_path
                (copy_destination (nodes d) source_path p)) as [Heq|_];
      [by rewrite <- Heq in Hne|].
    rewrite Hsame. simpl.
    rewrite (with_parents_some _ _ _ _ Hsrc).
    rewrite write_file_ok; [done| |done]. cbn [nodes].
    by rewrite with_parents_keep
      by apply (destination_above (nodes d) (CopySvg p)).
Qed.

(** What any action, failing or not, can change. *)
Lemma perform_effect a d r d' k :
  step a d = (r, d') →
  nodes d' !! k = nodes d !! k ∨ k ∈ reach source_path a ∨
  (nodes d !! k = None ∧ nodes d' !! k = Some Dir ∧
   k ∈ parents (action_path a)).
Proof.
  assert (∀ p, with_parents p (nodes d) !! k = nodes d !! k ∨
               (nodes d !! k = None ∧
                with_parents p (nodes d) !! k = Some Dir ∧ k ∈ parents p))
    as Hdirs.
  { intros p. rewrite with_parents_lookup.
    destruct (nodes d !! k); [by left|]. case_decide; auto. }
  assert (∀ p d1 (ks : list string),
            nodes d1 = with_parents p (nodes d) →
            nodes d' !! k = nodes d1 !! k ∨ k ∈ ks →
            nodes d' !! k = nodes d !! k ∨ k ∈ ks ∨
            (nodes d !! k = None ∧ nodes d' !! k = Some Dir ∧
             k ∈ parents p)) as Hthen.
  { intros p d1 ks Hn [Hk|Hk]; [|auto].
    rewrite Hk, Hn. destruct (Hdirs p) as [->|?]; auto. }
  assert (∀ p data ev d1,
            write_file w p data ev d1 = (r, d') →
            nodes d' !! k = nodes d1 !! k ∨ k ∈ [p]) as Hwrite.
  { intros p data ev d1
      [(_ & _ & _ & -> & _)|(? & _ & ->)]%write_file_inv; [|by left].
    destruct (decide (k = p)) as [->|]; [right; by left|left].
    by rewrite lookup_insert_ne. }
  destruct a as [size p|p|p]; cbn [perform action_path reach is_copy].
  - unfold save_png. rewrite bind_run.
    destruct (mkdir_parents w p d) as [[e1|[]] d1] eqn:Hm;
      apply mkdir_parents_inv in Hm as [(? & _ & Hn & _)|(? & ? & _ & Hk)];
      try done; [intros [= <- <-]; destruct (Hk k) as [->|?]; auto|].
    intros Hrun%Hwrite. by eapply Hthen.
  - unfold save_ico. rewrite bind_run.
    destruct (mkdir_parents w p d) as [[e1|[]] d1] eqn:Hm;
      apply mkdir_parents_inv in Hm as [(? & _ & Hn & _)|(? & ? & _ & Hk)];
      try done; [intros [= <- <-]; destruct (Hk k) as [->|?]; auto|].
    destruct (ico_frames source sizes).
    + intros (_ & Hk & _)%refused_save_inv. eapply (Hthen p d1 [p] Hn).
      destruct (decide (k = p)) as [->|]; [right; by left|left; auto].
    + intros Hrun%Hwrite. by eapply Hthen.
  - unfold save_svg. rewrite bind_run.
    destruct (mkdir_parents w p d) as [[e1|[]] d1] eqn:Hm;
      apply mkdir_parents_inv in Hm as [(? & _ & Hn & _)|(? & ? & _ & Hk)];
      try done; [intros [= <- <-]; destruct (Hk k) as [->|?]; auto|].
    unfold copy2. intros Hrun. eapply (Hthen p d1 _ Hn).
    destruct (_ || _); [injection Hrun as _ <-; by left|].
    destruct (nodes d1 !! source_path) as [[|data]|];
      try (injection Hrun as _ <-; by left).
    apply Hwrite in Hrun as [Hk|Hk%list_elem_of_singleton]; [by left|right].
    rewrite Hk. apply (destination_reach (nodes d1) (CopySvg p)).
Qed.

Lemma perform_keeps a d r d' k n :
  step a d = (r, d') → nodes d !! k = Some n → k ∉ reach source_path a →
  nodes d' !! k = Some n.
Proof.
  intros Ha Hk Hout.
  destruct (perform_effect a d r d' k Ha) as [->|[?|(? & _)]];
    [done|done|congruence].
Qed.

(** Only the refused ICO save raises [ValueError]; everything else the
    writer raises is an [OSError].  A failing action logs nothing. *)
Lemma perform_fails a d e d' :
  step a d = (inl e, d') →
  journal d' = journal d ∧
  ((∃ msg, e = OSError msg) ∨
   (e = ValueError (ico_refusal w) ∧ (∃ p, a = WriteIco p) ∧
    ico_frames source sizes = [])).
Proof.
  assert (∀ p data ev d1,
            write_file w p data ev d1 = (inl e, d') →
            journal d' = journal d1 ∧ ∃ msg, e = OSError msg) as Hwrite.
  { intros p data ev d1
      [(? & _)|(msg & [= ->] & ->)]%write_file_inv; [done|eauto]. }
  destruct a as [size p|p|p]; cbn [perform].
  - unfold save_png. rewrite bind_run.
    destruct (mkdir_parents w p d) as [[e1|[]] d1] eqn:Hm.
    + apply mkdir_parents_inv in Hm
        as [(? & _)|(msg & [= ->] & Hj & _)]; [done|].
      intros [= <- <-]. eauto.
    + apply mkdir_parents_inv in Hm as [(_ & _ & _ & Hj)|(? & ? & _)]; [|done].
      intros [? ?]%Hwrite. split; [congruence|auto].
  - unfold save_ico. rewrite bind_run.
    destruct (mkdir_parents w p d) as [[e1|[]] d1] eqn:Hm.
    + apply mkdir_parents_inv in Hm
        as [(? & _)|(msg & [= ->] & Hj & _)]; [done|].
      intros [= <- <-]. eauto.
    + apply mkdir_parents_inv in Hm as [(_ & _ & _ & Hj)|(? & ? & _)]; [|done].
      destruct (ico_frames source sizes) as [|frame frames] eqn:Hframes.
      * intros (Hj' & _ & [[= ->]|[msg [= ->]]])%refused_save_inv;
          (split; [congruence|]); [right|left]; eauto.
      * intros [? ?]%Hwrite. split; [congruence|auto].
  - unfold save_svg. rewrite bind_run.
    destruct (mkdir_parents w p d) as [[e1|[]] d1] eqn:Hm.
    + apply mkdir_parents_inv in Hm
        as [(? & _)|(msg & [= ->] & Hj & _)]; [done|].
      intros [= <- <-]. eauto.
    + apply mkdir_parents_inv in Hm as [(_ & _ & _ & Hj)|(? & ? & _)]; [|done].
      unfold copy2. destruct (_ || _); [intros [= <- <-]; eauto|].
      destruct (nodes d1 !! source_path) as [[|data]|];
        try (intros [= <- <-]; eauto).
      intros [? ?]%Hwrite. split; [congruence|auto].
Qed.
End effects.

(** ** Lemmas on actions that keep out of each other's way *)

Section frames.
Context (w : World) (source : Image) (source_path : string) (D : FileData).
Implicit Types (d : Disk) (a b : Action) (l : list Action) (e : exn)
  (m : gmap string Node) (k p q : string).

Local Abbreviation ready := (ready w source source_path D).
Local Abbreviation settled := (settled w source source_path D).
Local Abbreviation put := (put w source source_path D).

Lemma put_lookup a m k :
  put a m !! k =
  if decide (k = destination m source_path a)
  then Some (File (action_data w source D a))
  else with_parents (action_path a) m !! k.
Proof.
  unfold put. case_decide as H.
  - subst k. apply lookup_insert_eq.
  - by rewrite lookup_insert_ne.
Qed.

Lemma apart_sym a b : apart source_path a b → apart source_path b a.
Proof.
  intros H kb ka Hkb Hka. destruct (H ka kb Hka Hkb) as (? & ? & ?).
  split_and!; [congruence|done..].
Qed.

Lemma put_apart a b m k :
  apart source_path a b → k ∈ reach source_path a →
  put b m !! k = m !! k.
Proof.
  intros Hab Hk.
  destruct (Hab k (destination m source_path b) Hk
              (destination_reach _ _ _)) as (Hne & Hpar & _).
  rewrite put_lookup. case_decide; [done|]. by apply with_parents_keep.
Qed.

Lemma put_destination a b m :
  apart source_path a b →
  destination (put b m) source_path a = destination m source_path a.
Proof.
  intros Hab. apply destination_ext.
  rewrite (put_apart a b); [done|done|by left].
Qed.

Lemma put_above a b m q :
  apart source_path a b → q ∈ parents (action_path a) →
  put b m !! q = with_parents (action_path b) m !! q.
Proof.
  intros Hab Hq. rewrite put_lookup. case_decide as Heq; [|done].
  destruct (Hab (action_path a) (destination m source_path b)
              ltac:(by left) (destination_reach _ _ _)) as (_ & _ & Hno).
  by rewrite <- Heq in Hno.
Qed.

Lemma put_makeable a b m q :
  apart source_path a b → q ∈ parents (action_path a) →
  dir_or_makeable w m q = true → dir_or_makeable w (put b m) q = true.
Proof.
  intros Hab Hq. unfold dir_or_makeable.
  rewrite (put_above a b m q Hab Hq), with_parents_lookup.
  destruct (m !! q) as [[|]|]; [done..|]. by case_decide.
Qed.

Lemma put_makeable_inv a b m q :
  apart source_path a b → ready b m → q ∈ parents (action_path a) →
  dir_or_makeable w (put b m) q = true → dir_or_makeable w m q = true.
Proof.
  intros Hab (Hb & _) Hq. unfold dir_or_makeable.
  rewrite (put_above a b m q Hab Hq), with_parents_lookup.
  destruct (m !! q) as [[|]|] eqn:E; [done..|].
  case_decide as Hin; [|done]. intros _.
  specialize (Hb q Hin). unfold dir_or_makeable in Hb. by rewrite E in Hb.
Qed.

Lemma put_source a m :
  m !! source_path = Some (File D) →
  destination m source_path a ≠ source_path →
  put a m !! source_path = Some (File D).
Proof.
  intros Hsrc Hne. rewrite put_lookup. case_decide; [done|].
  by apply with_parents_some.
Qed.

(** An action performed elsewhere does not change what another action
    needs. *)
Lemma ready_frame a b m :
  apart source_path a b → put b m !! source_path = m !! source_path →
  ready a m → ready a (put b m).
Proof.
  intros Hab Hsrc. unfold ready.
  rewrite (put_destination a b m Hab).
  rewrite (put_apart a b m _ Hab (destination_reach _ _ _)), Hsrc.
  intros (Hq & Hrest). split; [|exact Hrest].
  intros q Hin. by apply (put_makeable a b), Hq.
Qed.

(** And what the other action made, it could make. *)
Lemma ready_frame_inv a b m :
  apart source_path a b → ready b m →
  put b m !! source_path = m !! source_path →
  ready a (put b m) → ready a m.
Proof.
  intros Hab Hb Hsrc. unfold ready.
  rewrite (put_destination a b m Hab).
  rewrite (put_apart a b m _ Hab (destination_reach _ _ _)), Hsrc.
  intros (Hq & Hrest). split; [|exact Hrest].
  intros q Hin. by apply (put_makeable_inv a b), Hq.
Qed.

Lemma put_own_destination a m :
  ready a m →
  destination (put a m) source_path a = destination m source_path a.
Proof.
  intros (_ & Hd & _). apply destination_ext.
  rewrite put_lookup. case_decide as Heq.
  - split; [done|]. intros Hdir. by rewrite Heq in Hdir.
  - by rewrite with_parents_keep by apply parents_not_self.
Qed.

Lemma ready_self a m : ready a m → ready a (put a m).
Proof.
  intros Hready. pose proof (put_own_destination a m Hready) as Hdest.
  destruct Hready as (Hq & Hd & Hw & Ha).
  unfold ready. rewrite Hdest.
  assert (put a m !! destination m source_path a =
          Some (File (action_data w source D a))) as Hfile.
  { rewrite put_lookup. by case_decide. }
  split_and!; [|by rewrite Hfile|done|].
  - intros q Hin. specialize (Hq q Hin). unfold dir_or_makeable in *.
    rewrite put_lookup. case_decide.
    + subst q. by apply destination_above in Hin.
    + rewrite with_parents_lookup. destruct (m !! q) as [[|]|]; [done..|].
      by case_decide.
  - destruct a as [size p|p|p]; [done..|].
    destruct Ha as (Hne & Hsame & Hsrc). split_and!; [done..|].
    by apply put_source.
Qed.

Lemma settled_after a m : ready a m → settled a (put a m).
Proof.
  intros Hready. pose proof (ready_self a m Hready) as Hself.
  pose proof (put_own_destination a m Hready) as Hdest.
  split_and!; [done| |].
  - intros q Hin. rewrite put_lookup. case_decide; [by eexists|].
    rewrite with_parents_lookup. destruct (m !! q); [by eexists|].
    case_decide; [by eexists|done].
  - rewrite Hdest, put_lookup. by case_decide.
Qed.

Lemma settled_frame a b m :
  settled a m → apart source_path a b →
  put b m !! source_path = m !! source_path →
  settled a (put b m).
Proof.
  intros (Hready & Hq & Hfile) Hab Hsrc. split_and!.
  - by apply ready_frame.
  - intros q Hin. destruct (Hq q Hin) as [n Hn].
    rewrite put_lookup. case_decide; [by eexists|].
    rewrite (with_parents_some _ _ _ _ Hn). by eexists.
  - rewrite (put_destination a b m Hab).
    by rewrite (put_apart a b m _ Hab (destination_reach _ _ _)).
Qed.


(** Actions that keep apart can be performed in either order. *)
Lemma put_comm a b m :
  apart source_path a b → put a (put b m) = put b (put a m).
Proof.
  intros Hab. pose proof (apart_sym _ _ Hab) as Hba.
  apply map_eq. intros k.
  rewrite !put_lookup, !with_parents_lookup, !put_lookup,
    !with_parents_lookup.
  rewrite (put_destination a b m Hab), (put_destination b a m Hba).
  destruct (Hab (destination m source_path a) (destination m source_path b)
              (destination_reach _ _ _) (destination_reach _ _ _))
    as (Hne & _ & _).
  repeat case_decide; try done; try congruence;
    destruct (m !! k); try done; repeat case_decide; done.
Qed.

Lemma scattered_cons a l :
  scattered source_path (a :: l) →
  (∀ b, b ∈ l → apart source_path a b) ∧ scattered source_path l.
Proof.
  intros [[Hnotin Hnd]%NoDup_cons Hall]. split.
  - intros b Hb. apply Hall; [by left|by right|]. by intros ->.
  - split; [done|]. intros b c Hb Hc. apply Hall; by right.
Qed.

Lemma scattered_perm l1 l2 :
  l1 ≡ₚ l2 → scattered source_path l1 → scattered source_path l2.
Proof.
  intros Hperm [Hnd Hall]. split; [by rewrite <- Hperm|].
  intros a b Ha Hb. apply Hall; by rewrite Hperm.
Qed.

Lemma scattered_app_l l1 l2 :
  scattered source_path (l1 ++ l2) → scattered source_path l1.
Proof.
  intros [[Hnd _]%NoDup_app Hall]. split; [done|].
  intros a b Ha Hb. apply Hall; apply elem_of_app; by left.
Qed.

Lemma scattered_middle l1 a l2 b :
  scattered source_path (l1 ++ a :: l2) → b ∈ l1 → apart source_path b a.
Proof.
  intros [Hnd Hall] Hb. apply Hall.
  - apply elem_of_app. by left.
  - apply elem_of_app. right. by left.
  - intros ->. apply NoDup_app in Hnd as (_ & Hno & _).
    apply (Hno a Hb). by left.
Qed.
End frames.

(** ** Lemmas on runs of the writer *)

Section runs.
Context (w : World) (source : Image) (source_path : string).
Implicit Types (d : Disk) (a b : Action) (l : list Action) (e : exn)
  (m : gmap string Node) (k p q : string) (D : FileData).

Local Abbreviation run := (perform_all w source source_path).
Local Abbreviation step := (perform w source source_path).
Local Abbreviation ready := (ready w source source_path).
Local Abbreviation settled := (settled w source source_path).
Local Abbreviation put := (put w source source_path).

(** A failing run performed a prefix of its actions and stopped at the
    first one that raised. *)
Lemma run_fail_prefix l d e d' :
  run l d = (inl e, d') →
  ∃ performed a rest d1,
    l = performed ++ a :: rest ∧
    run performed d = (inr (), d1) ∧
    step a d1 = (inl e, d').
Proof.
  revert d. induction l as [|a l IH]; intros d; [done|].
  rewrite run_cons. destruct (step a d) as [[e1|[]] d1] eqn:Ha.
  - intros [= <- <-]. by exists [], a, l, d.
  - intros (performed & b & rest & d2 & -> & Hrun & Hb)%IH.
    exists (a :: performed), b, rest, d2. split_and!; [done| |done].
    by rewrite run_cons, Ha.
Qed.

Lemma run_journal l d d' :
  run l d = (inr (), d') →
  journal d' = journal d ++ (event_of source_path <$> l).
Proof.
  revert d. induction l as [|a l IH]; intros d.
  - intros [= <-]. by rewrite app_nil_r.
  - rewrite run_cons. destruct (step a d) as [[e|[]] d1] eqn:Ha; [done|].
    intros Hl. apply perform_ok_inv in Ha as (_ & _ & _ & Hj & _).
    by rewrite (IH _ Hl), Hj, fmap_cons, <- app_assoc.
Qed.

(** The journal of any run lists the actions performed, and a run is
    stopped by an [OSError] or by the [ValueError] of a refused ICO
    save. *)
Lemma run_inv l d r d' :
  run l d = (r, d') →
  ∃ performed rest,
    l = performed ++ rest ∧
    journal d' = journal d ++ (event_of source_path <$> performed) ∧
    ((r = inr () ∧ rest = []) ∨
     (∃ e a rest', r = inl e ∧ rest = a :: rest' ∧
        ((∃ msg, e = OSError msg) ∨
         (e = ValueError (ico_refusal w) ∧ (∃ p, a = WriteIco p) ∧
          ico_frames source ((λ size : Z, (size, size)) <$> ICO_ENTRY_SIZES)
            = [])))).
Proof.
  destruct r as [e|[]].
  - intros (performed & a & rest & d1 & -> & Hrun & Ha)%run_fail_prefix.
    apply perform_fails in Ha as [Hj He].
    exists performed, (a :: rest). split_and!; [done| |].
    + rewrite Hj. by apply run_journal.
    + right. by exists e, a, rest.
  - intros Hrun. exists l, []. rewrite app_nil_r.
    split_and!; [done|by apply run_journal|by left].
Qed.

Lemma run_keeps l d r d' k n :
  run l d = (r, d') → nodes d !! k = Some n →
  (∀ a, a ∈ l → k ∉ reach source_path a) →
  nodes d' !! k = Some n.
Proof.
  revert d. induction l as [|a l IH]; intros d; [by intros [= _ <-]|].
  rewrite run_cons. intros Hrun Hk Hout.
  destruct (step a d) as [[e|[]] d1] eqn:Ha.
  - injection Hrun as _ <-.
    eapply perform_keeps; [done..|]. apply Hout. by left.
  - eapply IH; [done| |].
    + eapply perform_keeps; [done..|]. apply Hout. by left.
    + intros b Hb. apply Hout. by right.
Qed.

(** What any run, failing or not, can change: the files at the paths
    its actions can write, and directories it makes where there was
    nothing. *)
Lemma run_effect l d r d' k :
  run l d = (r, d') →
  nodes d' !! k = nodes d !! k ∨ k ∈ l ≫= reach source_path ∨
  (nodes d !! k = None ∧ nodes d' !! k = Some Dir ∧ k ∈ parents_of l).
Proof.
  revert d. induction l as [|a l IH]; intros d; [intros [= _ <-]; by left|].
  rewrite run_cons. unfold parents_of. rewrite !bind_cons. intros Hrun.
  destruct (step a d) as [[e|[]] d1] eqn:Ha.
  - injection Hrun as _ <-.
    destruct (perform_effect _ _ _ _ _ _ _ k Ha) as [?|[?|(? & ? & ?)]];
      [by left|right; left|right; right]; set_solver.
  - destruct (IH _ Hrun) as [Hk|[?|(Hnone & Hdir & ?)]].
    + rewrite Hk.
      destruct (perform_effect _ _ _ _ _ _ _ k Ha) as [?|[?|(? & ? & ?)]];
        [by left|right; left|right; right]; set_solver.
    + right; left. set_solver.
    + destruct (perform_effect _ _ _ _ _ _ _ k Ha) as [Hk|[?|(? & ? & ?)]];
        [|right; left; set_solver|congruence].
      right; right. rewrite <- Hk. split_and!; [done..|].
      apply elem_of_app. by right.
Qed.

(** After a successful run of actions that keep apart, each rendered
    file holds what its action wrote. *)
Lemma run_written l d d' a (f : FileData) :
  run l d = (inr (), d') → scattered source_path l →
  a ∈ l → written_data w source a = Some f →
  nodes d' !! action_path a = Some (File f).
Proof.
  revert d. induction l as [|b l IH]; intros d; [by intros _ _ ?%elem_of_nil|].
  rewrite run_cons. destruct (step b d) as [[e|[]] d1] eqn:Hb; [done|].
  intros Hl [Hapart Hsc]%scattered_cons [<-|Hin]%elem_of_cons Hf;
    [|by eapply IH].
  apply perform_ok_inv in Hb as (_ & _ & _ & _ & x & Hn & Hx & _).
  eapply run_keeps; [done| |].
  - rewrite Hn, (Hx _ Hf).
    assert (destination (nodes d) source_path a = action_path a) as ->
      by (by destruct a). apply lookup_insert_eq.
  - intros c Hc Hreach.
    destruct (Hapart c Hc (action_path a) (action_path a)) as (Hne & _);
      [by left|done|done].
Qed.

Section with_source_data.
Context (D : FileData).

Lemma perform_source a d d' :
  step a d = (inr (), d') →
  nodes d !! source_path = Some (File D) →
  source_path ≠ action_path a →
  ready D a (nodes d) ∧ nodes d' = put D a (nodes d) ∧
  put D a (nodes d) !! source_path = nodes d !! source_path.
Proof.
  intros Ha Hsrc Hne.
  destruct (perform_ready _ _ _ D _ _ _ Ha ltac:(done)) as (Hready & Hn & _).
  split_and!; [done..|]. rewrite Hsrc. apply put_source; [done|].
  destruct a as [size p|p|p]; cbn [destination action_path] in *;
    [congruence..|].
  by destruct Hready as (_ & _ & _ & ? & _).
Qed.

Lemma run_source_kept l d d' :
  run l d = (inr (), d') →
  nodes d !! source_path = Some (File D) →
  source_path ∉ action_path <$> l →
  nodes d' !! source_path = Some (File D).
Proof.
  revert d. induction l as [|a l IH]; intros d; [by intros [= <-]|].
  rewrite run_cons. destruct (step a d) as [[e|[]] d1] eqn:Ha; [done|].
  rewrite fmap_cons, not_elem_of_cons. intros Hl Hsrc [Hne Hout].
  destruct (perform_source _ _ _ Ha Hsrc Hne) as (_ & Hn & Hkept).
  apply (IH d1); [done| |done]. by rewrite Hn, Hkept.
Qed.

(** The tree a successful run leaves. *)
Lemma run_fold l d d' :
  run l d = (inr (), d') →
  nodes d !! source_path = Some (File D) →
  source_path ∉ action_path <$> l →
  nodes d' = foldl (λ m a, put D a m) (nodes d) l.
Proof.
  revert d. induction l as [|a l IH]; intros d; [by intros [= <-]|].
  rewrite run_cons. destruct (step a d) as [[e|[]] d1] eqn:Ha; [done|].
  rewrite fmap_cons, not_elem_of_cons. intros Hl Hsrc [Hne Hout].
  destruct (perform_source _ _ _ Ha Hsrc Hne) as (_ & Hn & Hkept).
  simpl. rewrite <- Hn. apply IH; [done| |done]. by rewrite Hn, Hkept.
Qed.

(** Every action of a successful run was ready from the start. *)
Lemma run_ready_initial l d d' a :
  run l d = (inr (), d') → scattered source_path l →
  nodes d !! source_path = Some (File D) →
  source_path ∉ action_path <$> l →
  a ∈ l → ready D a (nodes d).
Proof.
  revert d. induction l as [|b l IH]; intros d;
    [by intros _ _ _ _ ?%elem_of_nil|].
  rewrite run_cons. destruct (step b d) as [[e|[]] d1] eqn:Hb; [done|].
  rewrite fmap_cons, not_elem_of_cons.
  intros Hl [Hapart Hsc]%scattered_cons Hsrc [Hne Hout] Hin.
  destruct (perform_source _ _ _ Hb Hsrc Hne) as (Hready & Hn & Hkept).
  apply elem_of_cons in Hin as [->|Hin]; [done|].
  apply (ready_frame_inv w source source_path D a b).
  - apply apart_sym. by apply Hapart.
  - done.
  - done.
  - rewrite <- Hn. apply (IH d1); try done. by rewrite Hn, Hkept.
Qed.

(** Actions that keep apart and are ready all go through. *)
Lemma run_ok l d :
  (∀ a, a ∈ l → ready D a (nodes d)) → scattered source_path l →
  nodes d !! source_path = Some (File D) →
  source_path ∉ action_path <$> l →
  ∃ d', run l d = (inr (), d').
Proof.
  revert d. induction l as [|a l IH]; intros d; [by eexists|].
  rewrite fmap_cons, not_elem_of_cons.
  intros Hready [Hapart Hsc]%scattered_cons Hsrc [Hne Hout].
  pose proof (perform_ok _ _ _ D a d (Hready a ltac:(left))) as Ha.
  destruct (perform_source _ _ _ Ha Hsrc Hne) as (_ & Hn & Hkept).
  cbn [nodes] in Hn.
  destruct (IH {| nodes := put D a (nodes d);
                  journal := journal d ++ [event_of source_path a] |})
    as [d' Hl]; try done.
  - intros b Hb. cbn [nodes]. apply ready_frame.
    + apply apart_sym. by apply Hapart.
    + done.
    + apply Hready. by right.
  - cbn [nodes]. by rewrite Hkept.
  - exists d'. by rewrite run_cons, Ha.
Qed.

Lemma run_settled_frame l d d' a :
  run l d = (inr (), d') → settled D a (nodes d) →
  (∀ b, b ∈ l → apart source_path a b) →
  nodes d !! source_path = Some (File D) →
  source_path ∉ action_path <$> l →
  settled D a (nodes d').
Proof.
  revert d. induction l as [|b l IH]; intros d; [by intros [= <-]|].
  rewrite run_cons. destruct (step b d) as [[e|[]] d1] eqn:Hb; [done|].
  rewrite fmap_cons, not_elem_of_cons.
  intros Hl Hset Hapart Hsrc [Hne Hout].
  destruct (perform_source _ _ _ Hb Hsrc Hne) as (_ & Hn & Hkept).
  apply (IH d1); try done.
  - rewrite Hn. apply settled_frame; [done| |done]. apply Hapart. by left.
  - intros c Hc. apply Hapart. by right.
  - by rewrite Hn, Hkept.
Qed.

(** After a successful run every action is settled. *)
Lemma run_settled l d d' a :
  run l d = (inr (), d') → scattered source_path l →
  nodes d !! source_path = Some (File D) →
  source_path ∉ action_path <$> l →
  a ∈ l → settled D a (nodes d').
Proof.
  revert d. induction l as [|b l IH]; intros d;
    [by intros _ _ _ _ ?%elem_of_nil|].
  rewrite run_cons. destruct (step b d) as [[e|[]] d1] eqn:Hb; [done|].
  rewrite fmap_cons, not_elem_of_cons.
  intros Hl [Hapart Hsc]%scattered_cons Hsrc [Hne Hout] Hin.
  destruct (perform_source _ _ _ Hb Hsrc Hne) as (Hready & Hn & Hkept).
  assert (nodes d1 !! source_path = Some (File D)) as Hsrc1
    by (by rewrite Hn, Hkept).
  apply elem_of_cons in Hin as [->|Hin]; [|by apply (IH d1)].
  apply (run_settled_frame l d1); try done.
  rewrite Hn. by apply settled_after.
Qed.

Lemma run_destination_frame l d d' a :
  run l d = (inr (), d') →
  (∀ b, b ∈ l → apart source_path a b) →
  nodes d !! source_path = Some (File D) →
  source_path ∉ action_path <$> l →
  destination (nodes d') source_path a = destination (nodes d) source_path a.
Proof.
  revert d. induction l as [|b l IH]; intros d; [by intros [= <-]|].
  rewrite run_cons. destruct (step b d) as [[e|[]] d1] eqn:Hb; [done|].
  rewrite fmap_cons, not_elem_of_cons.
  intros Hl Hapart Hsrc [Hne Hout].
  destruct (perform_source _ _ _ Hb Hsrc Hne) as (_ & Hn & Hkept).
  rewrite (IH d1); [| done | | by rewrite Hn, Hkept | done].
  - rewrite Hn. apply put_destination. apply Hapart. by left.
  - intros c Hc. apply Hapart. by right.
Qed.

(** Whether an output path is a directory does not change during a
    successful run of actions that keep apart, so neither does the
    place where the file of an action lands. *)
Lemma run_destination l d d' a :
  run l d = (inr (), d') → scattered source_path l →
  nodes d !! source_path = Some (File D) →
  source_path ∉ action_path <$> l →
  a ∈ l →
  destination (nodes d') source_path a = destination (nodes d) source_path a.
Proof.
  revert d. induction l as [|b l IH]; intros d;
    [by intros _ _ _ _ ?%elem_of_nil|].
  rewrite run_cons. destruct (step b d) as [[e|[]] d1] eqn:Hb; [done|].
  rewrite fmap_cons, not_elem_of_cons.
  intros Hl [Hapart Hsc]%scattered_cons Hsrc [Hne Hout] Hin.
  destruct (perform_source _ _ _ Hb Hsrc Hne) as (Hready & Hn & Hkept).
  assert (nodes d1 !! source_path = Some (File D)) as Hsrc1
    by (by rewrite Hn, Hkept).
  apply elem_of_cons in Hin as [->|Hin].
  - rewrite (run_destination_frame l d1 d' b) by done.
    rewrite Hn. by apply put_own_destination.
  - rewrite (IH d1) by done. rewrite Hn.
    apply put_destination. apply apart_sym. by apply Hapart.
Qed.

(** After a successful run that spares the source file, every output
    holds what its action wrote, where the action put it. *)
Lemma run_nodes l d d' a :
  run l d = (inr (), d') → scattered source_path l →
  nodes d !! source_path = Some (File D) →
  source_path ∉ action_path <$> l →
  a ∈ l →
  nodes d' !! destination (nodes d) source_path a =
    Some (File (action_data w source D a)).
Proof.
  intros Hrun Hsc Hsrc Hout Hin.
  rewrite <- (run_destination _ _ _ _ Hrun Hsc Hsrc Hout Hin).
  by destruct (run_settled _ _ _ _ Hrun Hsc Hsrc Hout Hin) as (_ & _ & ?).
Qed.


(** The files left by a successful run do not depend on the order of
    its actions. *)
Lemma run_permuted l1 l2 d d1 :
  run l1 d = (inr (), d1) → l1 ≡ₚ l2 → scattered source_path l1 →
  nodes d !! source_path = Some (File D) →
  source_path ∉ action_path <$> l1 →
  ∃ d2, run l2 d = (inr (), d2) ∧ nodes d2 = nodes d1.
Proof.
  intros Hrun Hperm Hsc Hsrc Hout.
  assert (source_path ∉ action_path <$> l2) as Hout2 by (by rewrite <- Hperm).
  pose proof (scattered_perm _ _ _ Hperm Hsc) as Hsc2.
  destruct (run_ok l2 d) as [d2 Hrun2]; try done.
  { intros a Ha. eapply run_ready_initial; try done. by rewrite Hperm. }
  exists d2. split; [done|].
  rewrite (run_fold _ _ _ Hrun Hsrc Hout), (run_fold _ _ _ Hrun2 Hsrc Hout2).
  clear Hrun Hrun2 Hsrc Hout Hout2 Hsc2 d1 d2.
  generalize (nodes d) as m. clear d.
  induction Hperm as [|a l1 l2 Hperm IH|a b l|l1 l2 l3 H12 IH12 H23 IH23];
    intros m.
  - done.
  - simpl. apply scattered_cons in Hsc as [_ Hsc]. by rewrite IH.
  - simpl. f_equal. apply put_comm.
    destruct Hsc as [Hnd Hall]. apply Hall; [set_solver..|].
    intros ->. apply NoDup_cons in Hnd as [Hnd _]. set_solver.
  - rewrite <- IH12 by done. apply IH23. by eapply scattered_perm.
Qed.
End with_source_data.
End runs.

(** ** Lemmas on the plan *)

Section plan_facts.
Implicit Types (root : string) (ts : list string) (a : Action).

#[global] Instance joinpath_inj root : Inj (=) (=) (joinpath root).
Proof.
  intros r1 r2. unfold joinpath. destruct (String.eqb root "/").
  - by intros ?%(inj (String.app "/")).
  - by intros ?%(inj (String.app root))%(inj (String.app "/")).
Qed.

Lemma plan_paths root is_svg ts :
  action_path <$> plan root is_svg ts =
  joinpath root <$> relative_paths is_svg ts.
Proof.
  unfold plan, relative_paths. induction ts as [|t ts IH]; [done|].
  rewrite !bind_cons, !fmap_app, IH. f_equal.
  destruct (MANAGED_TARGETS !! t) as [config|]; [|done].
  unfold target_plan.
  destruct is_svg; rewrite !fmap_app, <- !list_fmap_compose; reflexivity.
Qed.

Lemma plan_copy root is_svg ts a :
  a ∈ plan root is_svg ts → is_copy a = true → is_svg = true.
Proof.
  unfold plan. intros (t & Ha & _)%list_elem_of_bind.
  destruct (MANAGED_TARGETS !! t) as [config|]; [|by apply elem_of_nil in Ha].
  unfold target_plan in Ha. rewrite !elem_of_app, !list_elem_of_fmap in Ha.
  destruct Ha as [(x & -> & _)|[(x & -> & _)|Ha]]; [done..|].
  by destruct is_svg; [|apply elem_of_nil in Ha].
Qed.

(** The selections the parser can produce. *)
Lemma selection_cases ts :
  NoDup ts → Forall (λ t, is_Some (MANAGED_TARGETS !! t)) ts →
  ts = [] ∨ ts = ["web"] ∨ ts = ["desktop"] ∨
  ts = ["web"; "desktop"] ∨ ts = ["desktop"; "web"].
Proof.
  intros Hnd Hreg.
  assert (∀ t, t ∈ ts → t = "web" ∨ t = "desktop") as Hin.
  { intros t Ht. apply registered_iff. by eapply Forall_forall in Hreg. }
  destruct ts as [|t1 [|t2 [|t3 ts]]]; [by left| | |].
  - destruct (Hin t1) as [->| ->]; [left|auto|auto].
  - destruct (Hin t1) as [->| ->]; [left|..];
      (destruct (Hin t2) as [->| ->]; [right; left|..]); auto 10;
      apply NoDup_cons in Hnd as [Hn _]; set_solver.
  - exfalso.
    destruct (Hin t1) as [->| ->]; [left|..];
      (destruct (Hin t2) as [->| ->]; [right; left|..]);
      (destruct (Hin t3) as [->| ->]; [right; right; left|..]);
      apply NoDup_cons in Hnd as [Hn1 [Hn2 _]%NoDup_cons]; set_solver.
Qed.

(** No two outputs of a duplicate-free selection share a path. *)
Lemma plan_NoDup root is_svg ts :
  NoDup ts → Forall (λ t, is_Some (MANAGED_TARGETS !! t)) ts →
  NoDup (action_path <$> plan root is_svg ts).
Proof.
  intros Hnd Hreg. rewrite plan_paths. apply (NoDup_fmap_2 _).
  destruct (selection_cases ts Hnd Hreg) as [->|[->|[->|[->| ->]]]];
    destruct is_svg; apply (bool_decide_unpack _); vm_compute; done.
Qed.

Lemma plan_member root is_svg ts a :
  a ∈ plan root is_svg ts →
  ∃ r, r ∈ registry_paths ∧ action_path a = joinpath root r ∧
       (is_copy a = true → a = CopySvg (joinpath root "web/public/favicon.svg")).
Proof.
  unfold plan. intros (t & Ha & _)%list_elem_of_bind.
  destruct (MANAGED_TARGETS !! t) as [config|] eqn:Hc;
    [|by apply elem_of_nil in Ha].
  unfold target_plan in Ha.
  apply registered_cases in Hc as [[_ ->]|[_ ->]];
    destruct is_svg; simpl in Ha;
    rewrite ?elem_of_cons, ?elem_of_nil in Ha;
    repeat (destruct Ha as [->|Ha]); try done;
    (eexists; split_and!; [|reflexivity|done]);
    apply (bool_decide_unpack _); vm_compute; exact I.
Qed.

Lemma registry_prefix_free (r1 r2 : string) :
  r1 ∈ registry_paths → r2 ∈ registry_paths →
  String.prefix (r1 +:+ "/") r2 = false.
Proof.
  assert (Forall (λ r1 : string,
            Forall (λ r2 : string, String.prefix (r1 +:+ "/") r2 = false)
                   registry_paths) registry_paths) as H
    by (apply (bool_decide_unpack _); vm_compute; exact I).
  intros H1 H2. rewrite Forall_forall in H. specialize (H r1 H1).
  rewrite Forall_forall in H. by apply H.
Qed.

Lemma registry_nonempty (r : string) : r ∈ registry_paths → r ≠ EmptyString.
Proof.
  assert (Forall (λ r : string, r ≠ EmptyString) registry_paths) as H
    by (apply (bool_decide_unpack _); vm_compute; exact I).
  rewrite Forall_forall in H. apply H.
Qed.

(** Nothing lies inside an output path of the registry that is itself
    an output path of the registry. *)
Lemma registry_not_inside root (r1 r2 x : string) :
  r1 ∈ registry_paths → r2 ∈ registry_paths →
  joinpath root r2 ≠ joinpath root r1 +:+ String "/" x.
Proof.
  intros H1 H2. rewrite joinpath_app. intros ->%(inj _).
  pose proof (registry_prefix_free r1 _ H1 H2) as Hfree.
  replace (r1 +:+ String "/" x) with ((r1 +:+ "/") +:+ x) in Hfree
    by (by rewrite app_assoc_str).
  by rewrite prefix_app in Hfree.
Qed.

Lemma reach_cases root source_path a (r k : string) :
  r ∈ registry_paths → action_path a = joinpath root r →
  k ∈ reach source_path a →
  k = joinpath root r ∨
  (is_copy a = true ∧
   k = joinpath root r +:+ String "/" (path_name source_path)).
Proof.
  intros Hr Hpath. unfold reach. rewrite Hpath.
  intros [->|Hk]%elem_of_cons; [by left|]. right.
  destruct (is_copy a); [|by apply elem_of_nil in Hk].
  apply list_elem_of_singleton in Hk as ->. split; [done|].
  rewrite joinpath_nest by (by apply registry_nonempty).
  by rewrite joinpath_app.
Qed.

Lemma NoDup_fmap_elem {A B} (f : A → B) (l : list A) (x y : A) :
  NoDup (f <$> l) → x ∈ l → y ∈ l → f x = f y → x = y.
Proof.
  intros Hnd [i Hi]%list_elem_of_lookup [j Hj]%list_elem_of_lookup Heq.
  assert (i = j) as ->.
  { eapply NoDup_lookup; [exact Hnd|..];
      rewrite list_lookup_fmap; [by rewrite Hi|by rewrite Hj, Heq]. }
  congruence.
Qed.

(** The actions of a duplicate-free selection keep out of each other's
    way, whatever the source is called. *)
Lemma plan_scattered root is_svg ts source_path :
  NoDup ts → Forall (λ t, is_Some (MANAGED_TARGETS !! t)) ts →
  scattered source_path (plan root is_svg ts).
Proof.
  intros Hnd Hreg. pose proof (plan_NoDup root is_svg ts Hnd Hreg) as Hpaths.
  split; [by apply NoDup_fmap_1 in Hpaths|].
  intros a b Ha Hb Hne.
  destruct (plan_member _ _ _ _ Ha) as (ra & Hra & Hpa & Hca).
  destruct (plan_member _ _ _ _ Hb) as (rb & Hrb & Hpb & Hcb).
  assert (∀ x y rx ry kx,
            rx ∈ registry_paths → ry ∈ registry_paths →
            action_path x = joinpath root rx →
            action_path y = joinpath root ry →
            kx ∈ reach source_path x →
            kx ∉ parents (action_path y)) as Habove.
  { intros x y rx ry kx Hrx Hry Hpx Hpy Hkx [_ [z Hz]]%parents_elem.
    rewrite Hpy in Hz.
    destruct (reach_cases _ _ _ _ _ Hrx Hpx Hkx) as [->|[_ ->]].
    - exact (registry_not_inside root rx ry z Hrx Hry Hz).
    - rewrite app_assoc_str, app_cons in Hz.
      exact (registry_not_inside root rx ry _ Hrx Hry Hz). }
  intros ka kb Hka Hkb. split_and!.
  - destruct (reach_cases _ _ _ _ _ Hra Hpa Hka) as [->|[Hcopya ->]];
      destruct (reach_cases _ _ _ _ _ Hrb Hpb Hkb) as [->|[Hcopyb ->]].
    + intros Heq. apply Hne.
      apply (NoDup_fmap_elem action_path _ _ _ Hpaths Ha Hb). congruence.
    + intros Heq. exact (registry_not_inside root rb ra _ Hrb Hra Heq).
    + intros Heq. symmetry in Heq.
      exact (registry_not_inside root ra rb _ Hra Hrb Heq).
    + intros _. apply Hne. by rewrite (Hca Hcopya), (Hcb Hcopyb).
  - exact (Habove a b ra rb ka Hra Hrb Hpa Hpb Hka).
  - exact (Habove b a rb ra kb Hrb Hra Hpb Hpa Hkb).
Qed.
End plan_facts.

(** ** Lemmas on the ICO encoder *)

Section ico.
Implicit Types (source : Image) (s : Z).

Lemma resize_size source a b resample :
  width (resize source a b resample) = a ∧
  height (resize source a b resample) = b.
Proof.
  unfold resize. destruct (Z.eqb_spec (width source) a);
    destruct (Z.eqb_spec (height source) b); simpl; done.
Qed.

Lemma filter_fmap_on {A B} (f : A → B) (P : B → Prop) (Q : A → Prop)
    `{!∀ y, Decision (P y)} `{!∀ x, Decision (Q x)} (l : list A) :
  (∀ x, x ∈ l → P (f x) ↔ Q x) →
  filter P (f <$> l) = f <$> filter Q l.
Proof.
  induction l as [|x l IH]; intros Hiff; [done|].
  rewrite fmap_cons, !filter_cons, IH
    by (intros y Hy; apply Hiff; by right).
  pose proof (Hiff x ltac:(left)).
  destruct (decide (P (f x))), (decide (Q x)); tauto || done.
Qed.


Lemma entry_size_bound s : s ∈ ICO_ENTRY_SIZES → 0 < s ≤ 256.
Proof. unfold ICO_ENTRY_SIZES. rewrite !elem_of_cons, elem_of_nil. lia. Qed.

(** For a square image the encoder keeps the entry sizes up to the
    side of the image, in ascending order. *)
Lemma ico_frames_square source :
  width source = height source →
  ico_frames source ((λ s, (s, s)) <$> ICO_ENTRY_SIZES) =
  (λ s, resize source s s LANCZOS) <$>
    filter (λ s, s ≤ width source) ICO_ENTRY_SIZES.
Proof.
  intros Hsq. unfold ico_frames.
  assert (merge_sort (λ a b : Z * Z, a.1 < b.1 ∨ a.1 = b.1 ∧ a.2 ≤ b.2)
            (remove_dups ((λ s, (s, s)) <$> ICO_ENTRY_SIZES)) =
          (λ s, (s, s)) <$> ICO_ENTRY_SIZES) as ->
    by (vm_compute; reflexivity).
  rewrite (filter_fmap_on (λ s, (s, s)) _ (λ s, s ≤ width source)).
  - by rewrite <- list_fmap_compose.
  - intros s Hs%entry_size_bound. simpl. lia.
Qed.

(** A square image is left without a frame exactly when its side is
    below the smallest entry size. *)
Lemma ico_frames_none source :
  width source = height source →
  ico_frames source ((λ s, (s, s)) <$> ICO_ENTRY_SIZES) = [] ↔
  width source < 16.
Proof.
  intros Hsq. rewrite (ico_frames_square _ Hsq). unfold ICO_ENTRY_SIZES.
  split.
  - intros H%fmap_nil_inv. rewrite filter_cons in H.
    destruct (decide (16 ≤ width source)); [done|lia].
  - intros Hsmall. rewrite !filter_cons, filter_nil.
    repeat (destruct (decide _); [lia|]). done.
Qed.


Lemma plan_png root is_svg ts t config size (relative : string) :
  t ∈ ts → MANAGED_TARGETS !! t = Some config →
  (size, relative) ∈ png config →
  WritePng size (joinpath root relative) ∈ plan root is_svg ts.
Proof.
  intros Ht Hc Hrel. unfold plan. apply list_elem_of_bind.
  exists t. split; [|done]. rewrite Hc. unfold target_plan.
  rewrite !elem_of_app. left.
  apply list_elem_of_fmap. by exists (size, relative).
Qed.

Lemma plan_svg root ts t config (relative : string) :
  t ∈ ts → MANAGED_TARGETS !! t = Some config → relative ∈ svg config →
  CopySvg (joinpath root relative) ∈ plan root true ts.
Proof.
  intros Ht Hc Hrel. unfold plan. apply list_elem_of_bind.
  exists t. split; [|done]. rewrite Hc. unfold target_plan.
  rewrite !elem_of_app. right; right.
  apply list_elem_of_fmap. by exists relative.
Qed.
End ico.

(** ** Lemmas on the loader and on [main] *)

Section loader.
Implicit Types (w : World) (d : Disk) (e : exn).

Lemma pil_open_error node e :
  pil_open node = inl e →
  e = UnidentifiedImageError ∨ e = DecompressionBombError ∨
  ∃ msg, e = OSError msg.
Proof.
  unfold pil_open, bomb_checked.
  destruct node as [[|[fmt im|frames|msg|id]]|];
    try destruct (largest_frame frames); try destruct (_ <? _);
    intros [= <-]; eauto.
Qed.

(** Within Pillow's limit no image is refused for its size. *)
Lemma pil_open_within_limit node e :
  pil_open_warns node = false → pil_open node = inl e →
  e = UnidentifiedImageError ∨ ∃ msg, e = OSError msg.
Proof.
  unfold pil_open, pil_open_warns, bomb_checked.
  assert (∀ im : Image,
            (MAX_IMAGE_PIXELS <? width im * height im) = false →
            (2 * MAX_IMAGE_PIXELS <? width im * height im) = false) as Hlim.
  { intros im H%Z.ltb_ge. apply Z.ltb_ge. unfold MAX_IMAGE_PIXELS in *. lia. }
  destruct node as [[|[fmt im|frames|msg|id]]|];
    try (intros _ [= <-]; eauto).
  - intros Hw%Hlim. by rewrite Hw.
  - destruct (largest_frame frames) as [im|]; [|intros _ [= <-]; eauto].
    intros Hw%Hlim. by rewrite Hw.
Qed.

(** The loader raises [ValueError], or lets through the
    [DecompressionBombError] of Pillow or the [OSError] of
    [subprocess.run]. *)
Lemma load_source_image_error w d p e :
  load_source_image w d p = inl e →
  (∃ msg, e = ValueError msg) ∨ e = DecompressionBombError ∨
  ∃ msg, e = OSError msg.
Proof.
  unfold load_source_image.
  destruct (nodes d !! p) as [[|data]|]; try (intros [= <-]; eauto).
  assert (∀ loaded : exn + Image,
            (∀ e', loaded = inl e' →
               (∃ msg, e' = ValueError msg) ∨ e' = DecompressionBombError ∨
               ∃ msg, e' = OSError msg) →
            match loaded with
            | inl e' => inl e'
            | inr rgba =>
                if decide (width rgba ≠ height rgba)
                then inl (ValueError (not_square_message rgba p))
                else inr (normalize rgba)
            end = inl e →
            (∃ msg, e = ValueError msg) ∨ e = DecompressionBombError ∨
            ∃ msg, e = OSError msg) as Htail.
  { intros [e'|rgba] He'; [intros [= <-]; by apply He'|].
    destruct (decide (width rgba ≠ height rgba)); intros [= <-]; eauto. }
  destruct (String.eqb (Py.lower (suffix p)) ".png").
  { apply Htail. unfold load_png_image. intros e'.
    destruct (pil_open (nodes d !! p)) as [e0|[fmt im]] eqn:E.
    - apply pil_open_error in E as [->|[->|[msg ->]]]; intros [= <-]; eauto.
    - destruct (decide (fmt ≠ "PNG")); intros [= <-]; eauto. }
  destruct (String.eqb (Py.lower (suffix p)) ".svg").
  { apply Htail. unfold load_svg_image. intros e'.
    destruct (which w "convert") as [[|c bin]|];
      [intros [= <-]; eauto| |intros [= <-]; eauto].
    destruct (run_convert w _ p _) as [|msg|rendered];
      [intros [= <-]; eauto..|].
    destruct (pil_open (File <$> rendered)) as [e0|[fmt im]] eqn:E; [|done].
    apply pil_open_error in E as [->|[->|[msg ->]]]; intros [= <-]; eauto. }
  intros [= <-]; eauto.
Qed.

(** The dispatch on the lower-cased suffix. *)
Lemma load_source_image_png w d p :
  is_file (nodes d !! p) → Py.lower (suffix p) = ".png" →
  load_source_image w d p = square_or_raise (load_png_image d p) p.
Proof.
  intros [data Hp] Hs. unfold load_source_image. by rewrite Hp, Hs.
Qed.

Lemma load_source_image_svg w d p :
  is_file (nodes d !! p) → Py.lower (suffix p) = ".svg" →
  load_source_image w d p = square_or_raise (load_svg_image w d p) p.
Proof.
  intros [data Hp] Hs. unfold load_source_image. by rewrite Hp, Hs.
Qed.

Lemma load_source_image_is_file w d p source :
  load_source_image w d p = inr source → is_file (nodes d !! p).
Proof.
  unfold load_source_image.
  destruct (nodes d !! p) as [[|data]|]; [done| |done]. by eexists.
Qed.

Lemma load_source_image_square w d p source :
  load_source_image w d p = inr source → width source = height source.
Proof.
  unfold load_source_image.
  destruct (nodes d !! p) as [[|data]|]; [done| |done].
  destruct (if String.eqb _ ".png" then _ else _) as [e|rgba]; [done|].
  destruct (decide (width rgba ≠ height rgba)) as [|Heq]; [done|].
  intros [= <-]. simpl. by apply dec_stable in Heq.
Qed.


(** The longer side of what the rasterizer renders is the side of the
    box it was given. *)
Lemma load_svg_image_size w d p rgba :
  load_svg_image w d p = inr rgba →
  width rgba = RASTER_BOX ∨ height rgba = RASTER_BOX.
Proof.
  unfold load_svg_image, run_convert.
  destruct (which w "convert") as [[|c bin]|]; [done| |done].
  destruct (subprocess_run w _ _) as [msg|status drawing]; [done|].
  destruct (status =? 0); [|done].
  destruct drawing as [[im|id|errmsg]|]; try done.
  simpl. unfold bomb_checked, scale_to_fit.
  destruct (height im <=? width im); simpl;
    (destruct (_ <? _); [done|]); intros [= <-]; simpl; auto.
Qed.

(** An SVG source is loaded as a square of 1024 pixels. *)
Lemma load_source_image_svg_size w d p source :
  Py.lower (suffix p) = ".svg" →
  load_source_image w d p = inr source →
  width source = 1024 ∧ height source = 1024.
Proof.
  intros Hsvg Hload.
  pose proof (load_source_image_is_file _ _ _ _ Hload) as Hfile.
  pose proof (load_source_image_square _ _ _ _ Hload) as Hsq.
  rewrite load_source_image_svg in Hload by done.
  unfold square_or_raise in Hload.
  destruct (load_svg_image w d p) as [e|rgba] eqn:E; [done|].
  destruct (decide (width rgba ≠ height rgba)); [done|].
  injection Hload as <-. simpl in *.
  apply load_svg_image_size in E. unfold RASTER_BOX in E. lia.
Qed.

Lemma parse_args_inr argv args :
  parse_args argv = inr args →
  ∃ value, opt_targets argv = Some value ∧
           opt_source argv = Some (source args) ∧
           parse_targets value = inr (targets args).
Proof.
  unfold parse_args. destruct (opt_targets argv) as [value|].
  - destruct (parse_targets value) as [[]|ts] eqn:E; try done.
    destruct (opt_source argv) as [s|]; [|done].
    intros [= <-]. by exists value.
  - by destruct (opt_source argv).
Qed.

Lemma parse_args_registered argv args :
  parse_args argv = inr args →
  Forall (λ t, is_Some (MANAGED_TARGETS !! t)) (targets args) ∧
  NoDup (targets args).
Proof.
  intros (value & _ & _ & H)%parse_args_inr.
  eauto using parse_targets_registered, parse_targets_NoDup.
Qed.

(** What [main] does once the command line is accepted and the source
    is loaded. *)
Lemma main_loaded w argv d args source_image :
  parse_args argv = inr args →
  load_source_image w d (resolve_source w (source args)) = inr source_image →
  let source_path := resolve_source w (source args) in
  let todo := plan (ROOT_DIR w) (source_is_svg source_path) (targets args) in
  main w argv d =
  match perform_all w source_image source_path todo d with
  | (inr _, d') =>
      (Exit 0 ["synced " +:+ Py.str_of_int (Z.of_nat (length todo)) +:+
               " icon files" +:+ newline] [], d')
  | (inl (ValueError error), d') =>
      (Exit 1 [] ["error: " +:+ error +:+ newline], d')
  | (inl e, d') => (Uncaught e, d')
  end.
Proof.
  intros Hargs Hload source_path todo. unfold main. rewrite Hargs, Hload.
  rewrite sync_targets_plan by (by eapply proj1, parse_args_registered).
  fold source_path todo.
  destruct (perform_all w source_image source_path todo d)
    as [[e|[]] d'] eqn:E; [done|].
  by rewrite length_fmap.
Qed.

End loader.

(** ** Lemmas on SVG sources and SVG outputs *)

Section passthrough.
Implicit Types (w : World) (d : Disk) (root : string) (ts : list string).

Lemma relative_paths_elem is_svg ts (x : string) :
  x ∈ relative_paths is_svg ts ↔
  ∃ t config, t ∈ ts ∧ MANAGED_TARGETS !! t = Some config ∧
    (x ∈ (png config).*2 ∨ x ∈ ico config ∨
     (is_svg = true ∧ x ∈ svg config)).
Proof.
  unfold relative_paths. rewrite list_elem_of_bind. split.
  - intros (t & Hx & Ht). destruct (MANAGED_TARGETS !! t) as [config|] eqn:E;
      [|by apply elem_of_nil in Hx].
    exists t, config. split_and!; [done..|].
    rewrite !elem_of_app in Hx. destruct Hx as [?|[?|Hx]]; [eauto..|].
    destruct is_svg; [eauto|by apply elem_of_nil in Hx].
  - intros (t & config & Ht & Hc & Hx). exists t. split; [|done].
    rewrite Hc, !elem_of_app.
    destruct Hx as [?|[?|[-> ?]]]; eauto.
Qed.

Lemma relative_paths_registered is_svg ts (x : string) :
  x ∈ relative_paths is_svg ts → x ∈ registry_paths.
Proof.
  intros (t & config & _ & Hc & Hx)%relative_paths_elem.
  apply relative_paths_elem. exists t, config. split_and!; [|done|].
  - apply registered_cases in Hc as [[-> _]|[-> _]]; set_solver.
  - destruct Hx as [?|[?|[_ ?]]]; auto.
Qed.


(** The one SVG output of the registry. *)
Lemma svg_output_cases (t : string) (config : TargetConfig)
    (relative : string) :
  MANAGED_TARGETS !! t = Some config → relative ∈ svg config →
  t = "web" ∧ relative = "web/public/favicon.svg".
Proof.
  intros Hc Hrel.
  apply registered_cases in Hc as [[-> ->]|[-> ->]]; simpl in Hrel;
    set_solver.
Qed.

(** The SVG outputs of the registry are outputs of no other kind. *)
Lemma svg_paths_apart ts (relative : string) (t : string)
    (config : TargetConfig) :
  MANAGED_TARGETS !! t = Some config → relative ∈ svg config →
  relative ∉ relative_paths false ts.
Proof.
  intros Hc Hrel (t' & config' & _ & Hc' & Hx)%relative_paths_elem.
  destruct (svg_output_cases _ _ _ Hc Hrel) as [_ ->].
  apply registered_cases in Hc' as [[_ ->]|[_ ->]]; simpl in Hx;
    rewrite ?elem_of_cons, ?elem_of_nil in Hx; naive_solver.
Qed.

Lemma no_copies_without_svg root ts (source_path : string) :
  filter (λ e, is_copied_svg e = true)
         (event_of source_path <$> plan root false ts) = [].
Proof.
  assert (∀ l : list Action,
            (∀ a, a ∈ l → is_copy a = false) →
            filter (λ e, is_copied_svg e = true)
                   (event_of source_path <$> l) = []) as Hnone.
  { induction l as [|a l IH]; intros Hl; [done|].
    rewrite fmap_cons, filter_cons, IH by (intros b Hb; apply Hl; by right).
    pose proof (Hl a ltac:(left)). by destruct a. }
  apply Hnone. intros a Ha. destruct (is_copy a) eqn:E; [|done].
  by apply plan_copy in Ha.
Qed.

(** Of the output paths of the registry only the SVG output counts as
    an SVG source. *)
Lemma registry_source_is_svg root (r : string) :
  r ∈ registry_paths → source_is_svg (joinpath root r) = true →
  r = "web/public/favicon.svg".
Proof.
  assert (∀ dir name r' : string,
            r' = dir +:+ String "/" name →
            all_chars (not_char "/") name = true →
            source_is_svg (String "/" name) = false →
            source_is_svg (joinpath root r') = true →
            r' = "web/public/favicon.svg") as Hname.
  { intros dir name r' -> Hn Hno. unfold source_is_svg, suffix in *.
    rewrite <- joinpath_app, path_name_app by done.
    pose proof (path_name_app EmptyString name Hn) as H.
    rewrite app_nil_l in H. rewrite H in Hno. by rewrite Hno. }
  unfold registry_paths. intros Hr.
  assert (r ∈ [ "web/public/favicon-16x16.png"; "web/public/favicon-32x32.png";
                "web/public/videnoa_icon.png"; "web/public/favicon.ico";
                "web/public/favicon.svg"; "crates/desktop/icons/icon.png";
                "crates/desktop/icons/icon-32.png";
                "crates/desktop/icons/icon-64.png";
                "crates/desktop/icons/icon-128.png";
                "crates/desktop/icons/icon-256.png";
                "crates/desktop/icons/icon.ico" ]) as Hcases by exact Hr.
  clear Hr. rewrite !elem_of_cons, elem_of_nil in Hcases.
  destruct Hcases as [->|[->|[->|[->|[->|[->|[->|[->|[->|[->|[->|[]]]]]]]]]]]].
  - by apply (Hname "web/public" "favicon-16x16.png").
  - by apply (Hname "web/public" "favicon-32x32.png").
  - by apply (Hname "web/public" "videnoa_icon.png").
  - by apply (Hname "web/public" "favicon.ico").
  - done.
  - by apply (Hname "crates/desktop/icons" "icon.png").
  - by apply (Hname "crates/desktop/icons" "icon-32.png").
  - by apply (Hname "crates/desktop/icons" "icon-64.png").
  - by apply (Hname "crates/desktop/icons" "icon-128.png").
  - by apply (Hname "crates/desktop/icons" "icon-256.png").
  - by apply (Hname "crates/desktop/icons" "icon.ico").
Qed.

Lemma web_svg_output_suffix root :
  Py.lower (suffix (joinpath root "web/public/favicon.svg")) = ".svg".
Proof.
  change "web/public/favicon.svg"
    with ("web/public" +:+ String "/" ("favicon" +:+ String "." "svg")).
  rewrite <- joinpath_app, suffix_stem_ext; done.
Qed.

(** A copy that went through did not have the source as its output
    path. *)
Lemma run_copies_apart w source (source_path : string) l d d' (p : string) :
  perform_all w source source_path l d = (inr (), d') →
  CopySvg p ∈ l → p ≠ source_path.
Proof.
  revert d. induction l as [|b l IH]; intros d; [by intros _ ?%elem_of_nil|].
  rewrite run_cons.
  destruct (perform w source source_path b d) as [[e|[]] d1] eqn:Hb; [done|].
  intros Hl [<-|Hin]%elem_of_cons; [|by eapply IH].
  apply perform_ok_inv in Hb as (_ & _ & _ & _ & x & _ & _ & _ & Hcopy).
  destruct (Hcopy eq_refl) as (Hne & _ & Hsrc). intros ->.
  cbn [destination] in Hne. unfold copy_destination in Hne.
  by rewrite Hsrc in Hne.
Qed.

(** A successful run from an SVG source wrote no file over the
    source. *)
Lemma svg_source_spared w source (source_path : string) ts d d' :
  source_is_svg source_path = true →
  perform_all w source source_path (plan (ROOT_DIR w) true ts) d =
    (inr (), d') →
  source_path ∉ action_path <$> plan (ROOT_DIR w) true ts.
Proof.
  intros Hsvg Hrun. rewrite plan_paths.
  intros (r & -> & Hr)%list_elem_of_fmap.
  pose proof (registry_source_is_svg _ _
                (relative_paths_registered _ _ _ Hr) Hsvg) as ->.
  apply relative_paths_elem in Hr as (t & config & Ht & Hc & Hx).
  assert ("web/public/favicon.svg" ∈ svg config) as Hin.
  { apply registered_cases in Hc as [[_ ->]|[_ ->]]; simpl in *;
      [by left|].
    rewrite ?elem_of_cons, ?elem_of_nil in Hx.
    decompose [or and] Hx; discriminate || done. }
  by apply (run_copies_apart _ _ _ _ _ _ _ Hrun
              (plan_svg _ _ _ _ _ Ht Hc Hin)).
Qed.

(** The SVG output of the registry is neither a PNG or ICO output nor a
    directory above one. *)
Lemma svg_output_untouched w source (source_path : string) ts d r d'
    (t : string) (config : TargetConfig) (relative : string) :
  MANAGED_TARGETS !! t = Some config → relative ∈ svg config →
  perform_all w source source_path (plan (ROOT_DIR w) false ts) d = (r, d') →
  nodes d' !! joinpath (ROOT_DIR w) relative =
  nodes d !! joinpath (ROOT_DIR w) relative.
Proof.
  intros Hc Hrel Hrun.
  assert (relative ∈ registry_paths) as Hreg.
  { apply relative_paths_elem. exists t, config. split_and!; [|done|auto].
    apply registered_cases in Hc as [[-> _]|[-> _]]; set_solver. }
  destruct (run_effect _ _ _ _ _ _ _ (joinpath (ROOT_DIR w) relative) Hrun)
    as [?|[Hin|(_ & _ & Hin)]]; [done|exfalso..].
  - apply list_elem_of_bind in Hin as (a & Hk & Ha).
    assert (is_copy a = false) as Hno.
    { destruct (is_copy a) eqn:E; [|done]. by apply plan_copy in Ha. }
    unfold reach in Hk. rewrite Hno in Hk.
    apply list_elem_of_singleton in Hk.
    assert (action_path a ∈ action_path <$> plan (ROOT_DIR w) false ts)
      as Hpath by (by apply list_elem_of_fmap_2).
    rewrite plan_paths, <- Hk in Hpath.
    apply (proj1 (list_elem_of_fmap_inj _ _ _)) in Hpath.
    by eapply svg_paths_apart in Hpath.
  - unfold parents_of in Hin.
    apply list_elem_of_bind in Hin as (a & [_ [x Hx]]%parents_elem & Ha).
    destruct (plan_member _ _ _ _ Ha) as (ra & Hra & Hpa & _).
    rewrite Hpa in Hx.
    exact (registry_not_inside _ _ _ _ Hreg Hra Hx).
Qed.
End passthrough.

(** * The claims *)



(** C2.  A source whose decoded width differs from its height, PNG or
    SVG: [main] returns 1, the one line on standard error is
    "error: source image must be square, got WxH: path", and the disk
    (file tree and journal of writes) is as before the run. *)
Theorem non_square_source_rejected (w : World) (argv : Argv) (d : Disk)
    (args : CliArgs) (rgba : Image) :
  parse_args argv = inr args →
  is_file (nodes d !! resolve_source w (source args)) →
  (Py.lower (suffix (resolve_source w (source args))) = ".png" ∧
   load_png_image d (resolve_source w (source args)) = inr rgba) ∨
  (Py.lower (suffix (resolve_source w (source args))) = ".svg" ∧
   load_svg_image w d (resolve_source w (source args)) = inr rgba) →
  width rgba ≠ height rgba →
  ∃ msg,
    main w argv d = (Exit 1 [] ["error: " +:+ msg +:+ newline], d) ∧
    msg = not_square_message rgba (resolve_source w (source args)) ∧
    Py.contains "must be square" msg = true.
Proof.
  intros Hargs Hfile Hdecode Hne.
  set (source_path := resolve_source w (source args)) in *.
  exists (not_square_message rgba source_path).
  assert (load_source_image w d source_path =
          inl (ValueError (not_square_message rgba source_path))) as Hload.
  { destruct Hdecode as [[Hs Hd]|[Hs Hd]].
    - rewrite load_source_image_png, Hd by done. simpl.
      by destruct (decide (width rgba ≠ height rgba)).
    - rewrite load_source_image_svg, Hd by done. simpl.
      by destruct (decide (width rgba ≠ height rgba)). }
  split_and!; [|done|].
  - unfold main. rewrite Hargs. fold source_path. by rewrite Hload.
  - unfold not_square_message.
    apply (contains_app "source image " "must be square").
Qed.

Lemma non_square_source_rejected_witness :
  ∃ msg,
    main Run.world (Run.argv "/art/wide.png" "web") Run.disk =
      (Exit 1 [] ["error: " +:+ msg +:+ newline], Run.disk) ∧
    msg = not_square_message (convert_rgba (Run.picture 640 480 3))
            "/art/wide.png" ∧
    Py.contains "must be square" msg = true.
Proof.
  apply (non_square_source_rejected Run.world
           (Run.argv "/art/wide.png" "web") Run.disk
           {| source := "/art/wide.png"; targets := ["web"] |}
           (convert_rgba (Run.picture 640 480 3))).
  - vm_compute. reflexivity.
  - eexists. vm_compute. reflexivity.
  - left. split; vm_compute; reflexivity.
  - simpl. lia.
Defined.

(** C8.  An SVG source when [convert] is not found on the system path:
    [main] returns 1, the one line on standard error says that
    ImageMagick's [convert] is not installed, and the disk is as before
    the run. *)
Theorem missing_rasterizer_reported (w : World) (argv : Argv) (d : Disk)
    (args : CliArgs) :
  parse_args argv = inr args →
  is_file (nodes d !! resolve_source w (source args)) →
  Py.lower (suffix (resolve_source w (source args))) = ".svg" →
  which w "convert" = None ∨ which w "convert" = Some EmptyString →
  main w argv d =
    (Exit 1 []
       ["error: source is SVG but ImageMagick 'convert' is not installed"
        +:+ newline], d) ∧
  load_svg_image w d (resolve_source w (source args)) =
    inl (ValueError
           "source is SVG but ImageMagick 'convert' is not installed").
Proof.
  intros Hargs Hfile Hsuffix Hwhich.
  assert (load_svg_image w d (resolve_source w (source args)) =
          inl (ValueError
                 "source is SVG but ImageMagick 'convert' is not installed"))
    as Hsvg by (unfold load_svg_image; by destruct Hwhich as [-> | ->]).
  split; [|done]. unfold main. rewrite Hargs.
  by rewrite load_source_image_svg, Hsvg.
Qed.

Lemma missing_rasterizer_reported_witness :
  main Run.world_without_convert (Run.argv "/art/Logo.SVG" "web") Run.disk =
    (Exit 1 []
       ["error: source is SVG but ImageMagick 'convert' is not installed"
        +:+ newline], Run.disk) ∧
  load_svg_image Run.world_without_convert Run.disk "/art/Logo.SVG" =
    inl (ValueError
           "source is SVG but ImageMagick 'convert' is not installed").
Proof.
  apply (missing_rasterizer_reported Run.world_without_convert
           (Run.argv "/art/Logo.SVG" "web") Run.disk
           {| source := "/art/Logo.SVG"; targets := ["web"] |}).
  - vm_compute. reflexivity.
  - eexists. vm_compute. reflexivity.
  - vm_compute. reflexivity.
  - left. reflexivity.
Defined.

(** ** Order of first occurrence *)

Section first_occurrence_order.
Implicit Types (l raw : list string) (x y a : string) (i j k : nat).




End first_occurrence_order.



(** C4.  [parse_targets] raises [ArgumentTypeError] when every
    comma-separated segment is blank after trimming, and when some
    non-blank trimmed segment is not a key of the registry; in the
    second case the message names the offending token and ends with
    the list of all registry keys, "desktop,web".  Through the argument
    parser the error ends the process with status 2 and a usage
    message. *)
Theorem parse_targets_rejects (value : string) :
  ((∀ segment, segment ∈ Py.split "," value →
               Py.strip segment = EmptyString) →
   parse_targets value =
     inl (ArgumentTypeError "--targets must include at least one target")) ∧
  (∀ segment,
     segment ∈ Py.split "," value →
     Py.strip segment ≠ EmptyString →
     ¬ is_Some (MANAGED_TARGETS !! Py.strip segment) →
     ∃ unknown supported,
       parse_targets value =
         inl (ArgumentTypeError
                ("unknown target(s): " +:+ Py.join "," unknown +:+
                 ". Supported targets: " +:+ Py.join "," supported)) ∧
       Py.strip segment ∈ unknown ∧
       supported = ["desktop"; "web"] ∧
       (∀ t, t ∈ supported ↔ is_Some (MANAGED_TARGETS !! t))) ∧
  (∀ w argv d msg,
     opt_targets argv = Some value →
     parse_targets value = inl (ArgumentTypeError msg) →
     main w argv d =
       (Exit 2 [] [format_usage (prog w);
                   prog w +:+ ": error: argument --targets: " +:+ msg +:+
                   newline], d)).
Proof.
  split_and!.
  - intros Hblank. unfold parse_targets.
    destruct (raw_targets_of value) as [|t raw] eqn:E; [done|].
    assert (t ∈ raw_targets_of value) as Ht by (rewrite E; left).
    apply raw_targets_elem in Ht as (seg & Hseg & <- & Hne).
    by apply Hblank in Hseg.
  - intros segment Hseg Hne Hunknown.
    assert (Py.strip segment ∈ raw_targets_of value) as Hraw
      by (apply raw_targets_elem; eauto).
    unfold parse_targets.
    destruct (raw_targets_of value) as [|t raw] eqn:E;
      [by apply elem_of_nil in Hraw|].
    assert (Py.strip segment ∈
            Py.sorted (list_to_set (t :: raw) ∖ dom MANAGED_TARGETS)) as Hin.
    { apply elem_of_sorted, elem_of_difference.
      split; [by apply elem_of_list_to_set|]. by rewrite elem_of_dom. }
    destruct (Py.sorted (_ ∖ _)) as [|u unknown] eqn:Eu;
      [by apply elem_of_nil in Hin|].
    exists (u :: unknown), ["desktop"; "web"]. rewrite sorted_known.
    split_and!; [done..|].
    intros k. rewrite registered_iff. set_solver.
  - intros w argv d msg Hv Hp. unfold main, parse_args.
    by rewrite Hv, Hp, app_assoc_str.
Qed.

(** C10.  Every name in a list returned by [parse_targets] is a key of
    the registry, so the writer's lookup finds a configuration for each
    of them and [sync_targets] never raises [KeyError] on such a list;
    the same holds for the targets [parse_args] hands to [main]. *)
Theorem registry_lookup_succeeds (value : string) (ts : list string) :
  parse_targets value = inr ts →
  Forall (λ t, is_Some (MANAGED_TARGETS !! t)) ts ∧
  (∀ t d, t ∈ ts → ∃ config, lookup_target t d = (inr config, d)) ∧
  (∀ w source source_path d e d',
     sync_targets w source source_path ts d = (inl e, d') →
     ∀ key, e ≠ KeyError key) ∧
  (∀ argv args, opt_targets argv = Some value →
     parse_args argv = inr args → targets args = ts).
Proof.
  intros Hparse. pose proof (parse_targets_registered _ _ Hparse) as Hreg.
  split_and!; [done| | |].
  - intros t d Ht. eapply Forall_forall in Hreg as [config Hc]; [|done].
    exists config. unfold lookup_target. by rewrite Hc.
  - intros w source source_path d e d'.
    rewrite sync_targets_plan by done.
    destruct (perform_all _ _ _ _ d) as [[e'|[]] d1] eqn:Hrun; [|done].
    intros [= <- <-] key.
    apply run_inv in Hrun
      as (? & ? & _ & _
          & [[? _]|(e0 & a & rest & [= ->] & _ & [[msg ->]|[-> _]])]);
      done.
  - intros argv args Hv (value' & Hv' & _ & Hp)%parse_args_inr.
    rewrite Hv in Hv'. injection Hv' as <-. rewrite Hparse in Hp.
    by injection Hp.
Qed.

Lemma registry_lookup_succeeds_witness :
  Forall (λ t, is_Some (MANAGED_TARGETS !! t)) ["desktop"; "web"].
Proof.
  refine (proj1 (registry_lookup_succeeds " desktop ,, web,desktop"
                   ["desktop"; "web"] _)).
  vm_compute. reflexivity.
Defined.


(** C6 does not hold of the code.  From a valid square 64x64 PNG source
    the run succeeds and the ICO file of the web target embeds five
    sizes, up to 64, not seven: [save_ico] asks for the seven sizes but
    hands the encoder the source as it is, and the encoder drops every
    size larger than the image, whereas [save_png] resizes the source
    to each configured size, up or down. *)
Lemma small_source_ico_sizes :
  ∃ d',
    main Run.world (Run.argv "/art/small.PNG" "web") Run.disk =
      (Exit 0 ["synced 4 icon files" +:+ newline] [], d') ∧
    embedded_sizes <$> file_at d' "/repo/web/public/favicon.ico" =
      Some [(16, 16); (24, 24); (32, 32); (48, 48); (64, 64)] ∧
    embedded_sizes <$> file_at d' "/repo/web/public/favicon.ico" ≠
      Some ((λ s, (s, s)) <$> ICO_ENTRY_SIZES).
Proof.
  eexists. split; [vm_compute; reflexivity|].
  split; [vm_compute; reflexivity|]. vm_compute. discriminate.
Qed.

(** C7, as stated, fails: a run whose source file is SVG need not write
    the SVG passthrough file.  Without ImageMagick the run from
    [Logo.SVG] for target web ends with status 1 and leaves the disk as
    it was, so there is no file at the web target's SVG output path
    although the source is SVG. *)
Lemma svg_source_without_passthrough :
  main Run.world_without_convert (Run.argv "/art/Logo.SVG" "web") Run.disk =
    (Exit 1 []
       ["error: source is SVG but ImageMagick 'convert' is not installed"
        +:+ newline], Run.disk) ∧
  is_file (nodes Run.disk !! "/art/Logo.SVG") ∧
  Py.lower (suffix "/art/Logo.SVG") = ".svg" ∧
  file_at Run.disk "/repo/web/public/favicon.svg" = None ∧
  ¬ (file_at Run.disk "/repo/web/public/favicon.svg" ≠ None ↔
     Py.lower (suffix "/art/Logo.SVG") = ".svg").
Proof.
  split_and!; [vm_compute; reflexivity|by eexists|vm_compute; reflexivity
              |vm_compute; reflexivity|].
  intros [_ H]. apply H; vm_compute; reflexivity.
Qed.

(** C7, amended.  In every run, successful or not, a file is copied to
    an SVG output only if the source file is SVG, and when the source
    is not SVG every SVG output path of the registry is left as it was.
    In every run that [main] ends with status 0, each configured SVG
    output path of each selected target is written if and only if the
    source file is SVG, and then the copy holds exactly the data of the
    source file, at the output path or, when that path is an existing
    directory, inside it under the name of the source; and for a PNG
    source with the single target web the run writes exactly its three
    PNG files and its one ICO file, in this order, and no SVG file. *)
Theorem svg_passthrough (w : World) (argv : Argv) (d : Disk)
    (o : Outcome) (d' : Disk) :
  main w argv d = (o, d') →
  ∃ new,
    journal d' = journal d ++ new ∧
    (∀ e, e ∈ new → is_copied_svg e = true →
       ∃ args, parse_args argv = inr args ∧
               Py.lower (suffix (resolve_source w (source args))) = ".svg") ∧
    (∀ args t config relative,
       parse_args argv = inr args →
       Py.lower (suffix (resolve_source w (source args))) ≠ ".svg" →
       MANAGED_TARGETS !! t = Some config → relative ∈ svg config →
       nodes d' !! joinpath (ROOT_DIR w) relative =
       nodes d !! joinpath (ROOT_DIR w) relative) ∧
    (∀ out err, o = Exit 0 out err →
       ∃ args,
         parse_args argv = inr args ∧
         (∀ t config relative,
            t ∈ targets args → MANAGED_TARGETS !! t = Some config →
            relative ∈ svg config →
            (joinpath (ROOT_DIR w) relative ∈ event_path <$> new ↔
             Py.lower (suffix (resolve_source w (source args))) = ".svg") ∧
            (Py.lower (suffix (resolve_source w (source args))) = ".svg" →
             ∃ source_data,
               file_at d (resolve_source w (source args)) =
                 Some source_data ∧
               file_at d'
                 (copy_destination (nodes d)
                    (resolve_source w (source args))
                    (joinpath (ROOT_DIR w) relative)) = Some source_data)) ∧
         (Py.lower (suffix (resolve_source w (source args))) = ".png" →
          targets args = ["web"] →
          new = [ SavedPng (joinpath (ROOT_DIR w)
                              "web/public/favicon-16x16.png") 16 9;
                  SavedPng (joinpath (ROOT_DIR w)
                              "web/public/favicon-32x32.png") 32 9;
                  SavedPng (joinpath (ROOT_DIR w)
                              "web/public/videnoa_icon.png") 512 9;
                  SavedIco (joinpath (ROOT_DIR w) "web/public/favicon.ico")
                    [(16, 16); (24, 24); (32, 32); (48, 48); (64, 64);
                     (128, 128); (256, 256)] ] ∧
          length (filter (λ e, is_saved_png e = true) new) = 3%nat ∧
          length (filter (λ e, is_saved_ico e = true) new) = 1%nat ∧
          length (filter (λ e, is_copied_svg e = true) new) = 0%nat)).
Proof.
  intros Hmain.
  destruct (parse_args argv) as [message|args] eqn:Hargs.
  { unfold main in Hmain. rewrite Hargs in Hmain. injection Hmain as <- <-.
    exists []. rewrite app_nil_r.
    split_and!; [done|by intros e ?%elem_of_nil|done|done]. }
  destruct (load_source_image w d (resolve_source w (source args)))
    as [e|source_image] eqn:Hload.
  { unfold main in Hmain. rewrite Hargs, Hload in Hmain.
    exists []. rewrite app_nil_r.
    destruct e; injection Hmain as <- <-;
      (split_and!; [done|by intros e ?%elem_of_nil|done|done]). }
  destruct (parse_args_registered _ _ Hargs) as [Hreg Hnd].
  rewrite (main_loaded _ _ _ _ _ Hargs Hload) in Hmain. cbv zeta in Hmain.
  set (source_path := resolve_source w (source args)) in *.
  assert (source_is_svg source_path = true ↔
          Py.lower (suffix source_path) = ".svg") as Hsvg
    by (unfold source_is_svg; apply String.eqb_eq).
  destruct (perform_all _ _ _ _ d) as [r d1] eqn:Hrun.
  assert (d1 = d') as -> by (by destruct r as [[]|[]]; injection Hmain).
  destruct (run_inv _ _ _ _ _ _ _ Hrun)
    as (performed & rest & Hplan & Hj & Hend).
  exists (event_of source_path <$> performed).
  assert (∀ args' t config relative,
            (inr args : string + CliArgs) = inr args' →
            Py.lower (suffix (resolve_source w (source args'))) ≠ ".svg" →
            MANAGED_TARGETS !! t = Some config → relative ∈ svg config →
            nodes d' !! joinpath (ROOT_DIR w) relative =
            nodes d !! joinpath (ROOT_DIR w) relative) as Hkept.
  { intros args' t config relative [= <-] Hno Hc Hrel.
    fold source_path in Hno.
    assert (source_is_svg source_path = false) as Heq
      by (destruct (source_is_svg source_path); [by destruct Hno; apply Hsvg|done]).
    rewrite Heq in Hrun. by eapply svg_output_untouched. }
  split_and!; [done| |done|].
  { intros ev (a & -> & Ha)%list_elem_of_fmap Hcopy.
    exists args. split; [done|]. apply Hsvg.
    apply (plan_copy (ROOT_DIR w) _ (targets args) a).
    - rewrite Hplan. apply elem_of_app. by left.
    - by destruct a. }
  intros out err ->. exists args. split; [done|]. fold source_path.
  destruct r as [e|[]]; [by destruct e|].
  destruct Hend as [[_ ->]|(e & ? & ? & ? & _)]; [|done].
  rewrite app_nil_r in Hplan. subst performed.
  assert (∀ l : list Action,
            event_path <$> (event_of source_path <$> l) =
            action_path <$> l) as Hpaths.
  { intros l. rewrite <- list_fmap_compose. apply list_fmap_ext.
    by intros _ [] _. }
  split.
  - intros t config relative Ht Hc Hrel. split.
    + rewrite Hpaths, plan_paths, (list_elem_of_fmap_inj _). split.
      * intros Hin. apply Hsvg.
        destruct (source_is_svg source_path); [done|].
        by eapply svg_paths_apart in Hin.
      * intros Hs. apply Hsvg in Hs. rewrite Hs.
        apply relative_paths_elem. exists t, config. eauto 10.
    + intros Hs. apply Hsvg in Hs. rewrite Hs in Hrun.
      destruct (load_source_image_is_file _ _ _ _ Hload) as [D HD].
      exists D. unfold file_at. rewrite HD. split; [done|].
      pose proof (run_nodes _ _ _ D _ _ _
                    (CopySvg (joinpath (ROOT_DIR w) relative)) Hrun
                    (plan_scattered _ _ _ _ Hnd Hreg) HD
                    (svg_source_spared _ _ _ _ _ _ Hs Hrun)
                    (plan_svg _ _ _ _ _ Ht Hc Hrel)) as Hfile.
      cbn [destination action_data] in Hfile. by rewrite Hfile.
  - intros Hpng Hweb. rewrite Hweb.
    assert (source_is_svg source_path = false) as ->
      by (unfold source_is_svg; by rewrite Hpng).
    rewrite (plan_cons _ _ _ _ _ lookup_web). done.
Qed.

Lemma svg_passthrough_witness :
  (∃ new,
     journal (main Run.world (Run.argv "/art/icon.png" "web") Run.disk).2 =
       journal Run.disk ++ new ∧
     length (filter (λ e, is_copied_svg e = true) new) = 0%nat) ∧
  (∃ source_data,
     file_at Run.disk "/art/Logo.SVG" = Some source_data ∧
     file_at (main Run.world (Run.argv "/art/Logo.SVG" "web") Run.disk).2
       "/repo/web/public/favicon.svg" = Some source_data).
Proof.
  split.
  - destruct (svg_passthrough Run.world (Run.argv "/art/icon.png" "web")
                Run.disk
                (main Run.world (Run.argv "/art/icon.png" "web") Run.disk).1
                (main Run.world (Run.argv "/art/icon.png" "web") Run.disk).2)
      as (new & Hj & _ & _ & Hok).
    + by destruct (main _ _ _).
    + exists new. split; [exact Hj|].
      destruct (Hok ["synced 4 icon files" +:+ newline] [])
        as (args & Hargs & _ & Hweb).
      * vm_compute. reflexivity.
      * assert (args = {| source := "/art/icon.png"; targets := ["web"] |})
          as -> by (vm_compute in Hargs; by injection Hargs).
        by destruct Hweb as (_ & _ & _ & ?).
  - destruct (svg_passthrough Run.world (Run.argv "/art/Logo.SVG" "web")
                Run.disk
                (main Run.world (Run.argv "/art/Logo.SVG" "web") Run.disk).1
                (main Run.world (Run.argv "/art/Logo.SVG" "web") Run.disk).2)
      as (new & _ & _ & _ & Hok).
    + by destruct (main _ _ _).
    + destruct (Hok ["synced 5 icon files" +:+ newline] [])
        as (args & Hargs & Hsvg & _).
      * vm_compute. reflexivity.
      * assert (args = {| source := "/art/Logo.SVG"; targets := ["web"] |})
          as -> by (vm_compute in Hargs; by injection Hargs).
        destruct (Hsvg "web" web_config "web/public/favicon.svg")
          as [_ Hcopy]; [by left|reflexivity|by left|].
        apply Hcopy. vm_compute. reflexivity.
Defined.

(** ** Case of the suffix *)

Section suffix_case.
Implicit Types (ext stem dir lowered : string) (c : ascii).

(** Any case mix of "svg" or "png" lower-cases to it and is a
    well-formed extension. *)
Lemma case_mix_extension lowered ext :
  lowered = "svg" ∨ lowered = "png" → case_mix lowered ext →
  Py.lower (String "." ext) = String "." lowered ∧
  ext ≠ EmptyString ∧
  all_chars (not_char "/") ext = true ∧
  all_chars (not_char ".") ext = true.
Proof.
  intros [-> | ->] H;
    destruct ext as [|c1 [|c2 [|c3 [|c4 ext]]]]; simpl in H; try tauto;
    destruct H as ([->| ->] & [->| ->] & [->| ->] & _);
    (split_and!; [vm_compute; reflexivity|discriminate
                 |vm_compute; reflexivity..]).
Qed.

Lemma case_mix_suffix lowered dir stem ext :
  lowered = "svg" ∨ lowered = "png" → case_mix lowered ext →
  stem ≠ EmptyString → all_chars (not_char "/") stem = true →
  suffix (dir +:+ String "/" (stem +:+ String "." ext)) = String "." ext ∧
  Py.lower (suffix (dir +:+ String "/" (stem +:+ String "." ext))) =
    String "." lowered.
Proof.
  intros Hl Hmix Hstem Hslash.
  destruct (case_mix_extension _ _ Hl Hmix) as (Hlower & ? & ? & ?).
  by rewrite suffix_stem_ext.
Qed.
End suffix_case.

(** C9, as stated, fails: a path ending in [.SVG] need not be
    rasterized.  For the file [/art/.SVG] the suffix is empty, as for
    every name that has nothing before its only dot, so the loader
    rejects the file although the rasterizer would have rendered it,
    and the writer would copy no SVG. *)
Lemma dot_svg_not_rasterized :
  "/art/.SVG" = "/art/" +:+ ".SVG" ∧
  is_file (nodes Scene.disk !! "/art/.SVG") ∧
  suffix "/art/.SVG" = EmptyString ∧
  load_source_image Run.world Scene.disk "/art/.SVG" =
    inl (ValueError "source must be a .svg or .png image: /art/.SVG") ∧
  load_source_image Run.world Scene.disk "/art/.SVG" ≠
    square_or_raise (load_svg_image Run.world Scene.disk "/art/.SVG")
                    "/art/.SVG" ∧
  source_is_svg "/art/.SVG" = false ∧
  main Run.world (Run.argv "/art/.SVG" "web") Scene.disk =
    (Exit 1 [] ["error: source must be a .svg or .png image: /art/.SVG" +:+
                newline], Scene.disk).
Proof.
  split_and!; try (vm_compute; reflexivity); [by eexists|].
  vm_compute. discriminate.
Qed.

(** C9, amended.  The loader and the writer decide on the same
    lower-cased suffix of the source path.  For every source path whose
    last component is a non-empty stem, a dot and an extension that is
    "svg" in any mix of upper and lower case, the suffix is that
    extension, the loader rasterizes the file, and the writer performs
    the plan with SVG passthrough, so a successful run for target web
    writes the SVG copy, which holds the data of the source.  When the
    extension is "png" in any mix of case the loader decodes the file
    as PNG and the writer copies no SVG and leaves the SVG output path
    alone.  So [name.SVG] counts as [.svg] and [name.PNG] as [.png]. *)
Theorem suffix_case_insensitive (dir stem ext : string) :
  stem ≠ EmptyString → all_chars (not_char "/") stem = true →
  let source_path := dir +:+ String "/" (stem +:+ String "." ext) in
  (case_mix "svg" ext →
   suffix source_path = String "." ext ∧
   (∀ w d,
      is_file (nodes d !! source_path) →
      load_source_image w d source_path =
      square_or_raise (load_svg_image w d source_path) source_path) ∧
   (∀ w source ts d written d',
      Forall (λ t, is_Some (MANAGED_TARGETS !! t)) ts →
      sync_targets w source source_path ts d = (inr written, d') →
      written = joinpath (ROOT_DIR w) <$> relative_paths true ts ∧
      ("web" ∈ ts →
       joinpath (ROOT_DIR w) "web/public/favicon.svg" ∈ written ∧
       CopiedSvg source_path
         (joinpath (ROOT_DIR w) "web/public/favicon.svg") ∈ journal d' ∧
       (NoDup ts →
        ∀ source_data,
          file_at d source_path = Some source_data →
          file_at d'
            (copy_destination (nodes d) source_path
               (joinpath (ROOT_DIR w) "web/public/favicon.svg")) =
          Some source_data)))) ∧
  (case_mix "png" ext →
   suffix source_path = String "." ext ∧
   (∀ w d,
      is_file (nodes d !! source_path) →
      load_source_image w d source_path =
      square_or_raise (load_png_image d source_path) source_path) ∧
   (∀ w source ts d written d',
      Forall (λ t, is_Some (MANAGED_TARGETS !! t)) ts →
      sync_targets w source source_path ts d = (inr written, d') →
      written = joinpath (ROOT_DIR w) <$> relative_paths false ts ∧
      (∃ new, journal d' = journal d ++ new ∧
              filter (λ e, is_copied_svg e = true) new = []) ∧
      nodes d' !! joinpath (ROOT_DIR w) "web/public/favicon.svg" =
      nodes d !! joinpath (ROOT_DIR w) "web/public/favicon.svg")).
Proof.
  intros Hstem Hslash source_path. split.
  - intros Hmix.
    destruct (case_mix_suffix "svg" dir stem ext ltac:(by left)
                Hmix Hstem Hslash) as [Hsuffix Hsvg].
    fold source_path in Hsuffix, Hsvg. split_and!; [done| |].
    + intros w d Hfile. by apply load_source_image_svg.
    + intros w source ts d written d' Hreg.
      rewrite sync_targets_plan by done.
      assert (source_is_svg source_path = true) as Heq
        by (unfold source_is_svg; by rewrite Hsvg).
      rewrite Heq.
      destruct (perform_all _ _ _ _ d) as [[e|[]] d1] eqn:Hrun; [done|].
      intros [= <- <-]. split; [apply plan_paths|]. intros Hweb.
      pose proof (plan_svg (ROOT_DIR w) ts "web" web_config
                    "web/public/favicon.svg" Hweb lookup_web
                    ltac:(by left)) as Hin.
      split_and!.
      * eapply list_elem_of_fmap_2'; [exact Hin|done].
      * rewrite (run_journal _ _ _ _ _ _ Hrun). apply elem_of_app. right.
        eapply list_elem_of_fmap_2'; [exact Hin|done].
      * intros Hnd D HD. unfold file_at in *.
        destruct (nodes d !! source_path) as [[|D']|] eqn:Hdata; try done.
        injection HD as ->.
        pose proof (run_nodes _ _ _ D _ _ _ _ Hrun
                      (plan_scattered _ _ _ _ Hnd Hreg) Hdata
                      (svg_source_spared _ _ _ _ _ _ Heq Hrun) Hin) as Hfile.
        cbn [destination action_data] in Hfile. by rewrite Hfile.
  - intros Hmix.
    destruct (case_mix_suffix "png" dir stem ext ltac:(by right)
                Hmix Hstem Hslash) as [Hsuffix Hpng].
    fold source_path in Hsuffix, Hpng. split_and!; [done| |].
    + intros w d Hfile. by apply load_source_image_png.
    + intros w source ts d written d' Hreg.
      rewrite sync_targets_plan by done.
      assert (source_is_svg source_path = false) as ->
        by (unfold source_is_svg; by rewrite Hpng).
      destruct (perform_all _ _ _ _ d) as [[e|[]] d1] eqn:Hrun; [done|].
      intros [= <- <-]. split_and!; [apply plan_paths| |].
      * eexists. split; [by eapply run_journal|].
        apply no_copies_without_svg.
      * eapply (svg_output_untouched _ _ _ _ _ _ _ "web" web_config);
          [reflexivity|by left|exact Hrun].
Qed.

Lemma suffix_case_insensitive_witness :
  (suffix "/art/Logo.SVG" = ".SVG" ∧
   load_source_image Run.world Run.disk "/art/Logo.SVG" =
     square_or_raise (load_svg_image Run.world Run.disk "/art/Logo.SVG")
                     "/art/Logo.SVG") ∧
  (suffix "/art/small.PNG" = ".PNG" ∧
   load_source_image Run.world Run.disk "/art/small.PNG" =
     square_or_raise (load_png_image Run.disk "/art/small.PNG")
                     "/art/small.PNG").
Proof.
  split.
  - destruct (suffix_case_insensitive "/art" "Logo" "SVG")
      as [Hsvg _]; [discriminate|reflexivity|].
    destruct Hsvg as (Hsuffix & Hload & _).
    + simpl. split_and!; (by right) || done.
    + split; [exact Hsuffix|]. apply Hload. eexists. reflexivity.
  - destruct (suffix_case_insensitive "/art" "small" "PNG")
      as [_ Hpng]; [discriminate|reflexivity|].
    destruct Hpng as (Hsuffix & Hload & _).
    + simpl. split_and!; (by right) || done.
    + split; [exact Hsuffix|]. apply Hload. eexists. reflexivity.
Defined.


Lemma parse_targets_rejects_witness :
  ∃ unknown supported,
    parse_targets "web, bogus" =
      inl (ArgumentTypeError
             ("unknown target(s): " +:+ Py.join "," unknown +:+
              ". Supported targets: " +:+ Py.join "," supported)) ∧
    Py.strip " bogus" ∈ unknown ∧
    supported = ["desktop"; "web"] ∧
    (∀ t, t ∈ supported ↔ is_Some (MANAGED_TARGETS !! t)).
Proof.
  destruct (parse_targets_rejects "web, bogus") as (_ & Hunknown & _).
  apply (Hunknown " bogus").
  - vm_compute. right. left.
  - vm_compute. discriminate.
  - vm_compute. by intros [? ?].
Defined.


(** * Further properties of the script *)

(** ** Tokens of [--targets] *)

Section tokens.
Implicit Types (s seg tok : string) (c : ascii).

Lemma split_segments_clean c s seg :
  seg ∈ Py.split c s → all_chars (not_char c) seg = true.
Proof.
  revert seg. induction s as [|x s IH]; intros seg; simpl.
  - by intros ->%list_elem_of_singleton.
  - destruct (Ascii.eqb x c) eqn:E.
    + intros [->|?]%elem_of_cons; [done|by apply IH].
    + pose proof (split_nonempty c s).
      destruct (Py.split c s) as [|first rest]; [done|].
      intros [->|?]%elem_of_cons; [|apply IH; by right].
      simpl. unfold not_char at 1. rewrite E. simpl. apply IH. by left.
Qed.

Lemma lstrip_all_chars (P : ascii → bool) s :
  all_chars P s = true → all_chars P (Py.lstrip s) = true.
Proof.
  induction s as [|x s IH]; [done|]. simpl.
  intros [Hx Hs]%andb_prop. destruct (Py.isspace x); [by apply IH|].
  simpl. by rewrite Hx, Hs.
Qed.

Lemma rstrip_all_chars (P : ascii → bool) s :
  all_chars P s = true → all_chars P (Py.rstrip s) = true.
Proof.
  induction s as [|x s IH]; [done|]. simpl.
  intros [Hx Hs]%andb_prop. specialize (IH Hs).
  destruct (Py.rstrip s) as [|y r].
  - destruct (Py.isspace x); [done|]. simpl. by rewrite Hx.
  - cbn [all_chars] in *. by rewrite Hx, IH.
Qed.

Lemma rstrip_cons x s :
  Py.rstrip (String x s) =
  match Py.rstrip s with
  | EmptyString => if Py.isspace x then EmptyString else String x EmptyString
  | r => String x r
  end.
Proof. reflexivity. Qed.

Lemma rstrip_idempotent s : Py.rstrip (Py.rstrip s) = Py.rstrip s.
Proof.
  induction s as [|x s IH]; [done|]. rewrite rstrip_cons.
  destruct (Py.rstrip s) as [|y r] eqn:E.
  - destruct (Py.isspace x) eqn:Ex; [done|]. simpl. by rewrite Ex.
  - by rewrite rstrip_cons, IH.
Qed.

Lemma lstrip_head s :
  Py.lstrip s = EmptyString ∨
  ∃ x r, Py.lstrip s = String x r ∧ Py.isspace x = false.
Proof.
  induction s as [|x s IH]; [by left|]. simpl.
  destruct (Py.isspace x) eqn:E; [done|]. right. eauto.
Qed.

Lemma rstrip_keeps_head x r :
  Py.isspace x = false →
  ∃ r', Py.rstrip (String x r) = String x r'.
Proof.
  intros Hx. simpl. destruct (Py.rstrip r); [|by eexists].
  rewrite Hx. by eexists.
Qed.

Lemma strip_idempotent s : Py.strip (Py.strip s) = Py.strip s.
Proof.
  unfold Py.strip. destruct (lstrip_head s) as [->|(x & r & -> & Hx)]; [done|].
  destruct (rstrip_keeps_head x r Hx) as [r' Hr]. rewrite Hr.
  cbn [Py.lstrip]. rewrite Hx, <- Hr. apply rstrip_idempotent.
Qed.
End tokens.

(** X1.  Every token [parse_targets] works on is non-empty, has no
    leading or trailing whitespace left to strip, and contains no
    comma. *)
Theorem raw_targets_clean (value tok : string) :
  tok ∈ raw_targets_of value →
  tok ≠ EmptyString ∧ Py.strip tok = tok ∧
  all_chars (not_char ",") tok = true.
Proof.
  intros (seg & Hseg & <- & Hne)%raw_targets_elem. split_and!; [done| |].
  - apply strip_idempotent.
  - apply rstrip_all_chars, lstrip_all_chars.
    by eapply split_segments_clean.
Qed.

Lemma raw_targets_clean_witness :
  "desktop" ≠ EmptyString ∧ Py.strip "desktop" = "desktop" ∧
  all_chars (not_char ",") "desktop" = true.
Proof.
  apply (raw_targets_clean "web ,, desktop ,x").
  vm_compute. right. left.
Defined.

(** X2.  A list [parse_targets] returns is never empty and has at most
    two names, and joining it with commas and parsing again gives the
    same list. *)
Theorem parse_targets_join_round_trip (value : string) (ts : list string) :
  parse_targets value = inr ts →
  ts ≠ [] ∧ (length ts ≤ 2)%nat ∧
  parse_targets (Py.join "," ts) = inr ts.
Proof.
  intros Hparse.
  pose proof (parse_targets_registered _ _ Hparse) as Hreg.
  pose proof (parse_targets_NoDup _ _ Hparse) as Hnd.
  assert (ts ≠ []) as Hne.
  { apply parse_targets_inr in Hparse as (Hraw & _ & ->).
    by destruct (raw_targets_of value). }
  destruct (selection_cases ts Hnd Hreg) as [->|[->|[->|[->| ->]]]];
    [done|split_and!; [done|simpl; lia|by vm_compute]..].
Qed.

Lemma parse_targets_join_round_trip_witness :
  ["desktop"; "web"] ≠ [] ∧ (length ["desktop"; "web"] ≤ 2)%nat ∧
  parse_targets (Py.join "," ["desktop"; "web"]) = inr ["desktop"; "web"].
Proof.
  apply (parse_targets_join_round_trip "desktop, web ,desktop,").
  vm_compute. reflexivity.
Defined.

(** X3.  When some token is not a registry key, the error message of
    [parse_targets] lists exactly the unknown tokens, each once, in
    ascending order, separated by commas. *)
Theorem unknown_targets_listed (value tok : string) :
  tok ∈ raw_targets_of value → ¬ is_Some (MANAGED_TARGETS !! tok) →
  ∃ unknown,
    parse_targets value =
      inl (ArgumentTypeError
             ("unknown target(s): " +:+ Py.join "," unknown +:+
              ". Supported targets: desktop,web")) ∧
    NoDup unknown ∧
    StronglySorted String.le unknown ∧
    (∀ t, t ∈ unknown ↔
          t ∈ raw_targets_of value ∧ ¬ is_Some (MANAGED_TARGETS !! t)).
Proof.
  intros Htok Hunknown.
  exists (Py.sorted (list_to_set (raw_targets_of value) ∖ dom MANAGED_TARGETS)).
  assert (∀ t, t ∈ Py.sorted (list_to_set (raw_targets_of value)
                               ∖ dom MANAGED_TARGETS) ↔
               t ∈ raw_targets_of value ∧ ¬ is_Some (MANAGED_TARGETS !! t))
    as Hmem.
  { intros t. rewrite elem_of_sorted, elem_of_difference,
      elem_of_list_to_set, elem_of_dom. done. }
  split_and!; [| | |done].
  - unfold parse_targets. destruct (raw_targets_of value) as [|t raw] eqn:E;
      [by apply elem_of_nil in Htok|].
    destruct (Py.sorted _) as [|u unknown] eqn:Eu.
    + assert (tok ∈ @nil string) as ?%elem_of_nil by (by apply Hmem). done.
    + by rewrite sorted_known.
  - unfold Py.sorted. rewrite merge_sort_Permutation. apply NoDup_elements.
  - unfold Py.sorted. apply (StronglySorted_merge_sort _).
Qed.

Lemma unknown_targets_listed_witness :
  ∃ unknown,
    parse_targets "zeta, web,alpha ,zeta" =
      inl (ArgumentTypeError
             ("unknown target(s): " +:+ Py.join "," unknown +:+
              ". Supported targets: desktop,web")) ∧
    NoDup unknown ∧
    StronglySorted String.le unknown ∧
    (∀ t, t ∈ unknown ↔
          t ∈ raw_targets_of "zeta, web,alpha ,zeta" ∧
          ¬ is_Some (MANAGED_TARGETS !! t)).
Proof.
  apply (unknown_targets_listed "zeta, web,alpha ,zeta" "alpha").
  - vm_compute. do 2 right. left.
  - vm_compute. by intros [? ?].
Defined.

Example unknown_targets_sorted_once :
  parse_targets "zeta, web,alpha ,zeta" =
  inl (ArgumentTypeError
         "unknown target(s): alpha,zeta. Supported targets: desktop,web").
Proof. vm_compute. reflexivity. Qed.

(** ** The loader *)

(** X4.  Whatever [load_source_image] returns is square and is the
    RGBA conversion of what was decoded: for a [.png] suffix from the
    source file itself, which holds a PNG-encoded image, and for a
    [.svg] suffix from the file the rasterizer rendered, whose format
    is not looked at.  Nothing is returned for any other suffix or for
    a path that is not a regular file. *)
Theorem load_source_image_returns (w : World) (d : Disk)
    (source_path : string) (source : Image) :
  load_source_image w d source_path = inr source →
  is_file (nodes d !! source_path) ∧
  width source = height source ∧
  ∃ decoded,
    source = normalize (convert_rgba decoded) ∧
    ((Py.lower (suffix source_path) = ".png" ∧
      nodes d !! source_path = Some (File (ImageFile "PNG" decoded))) ∨
     (Py.lower (suffix source_path) = ".svg" ∧
      ∃ convert_bin rendered format,
        which w "convert" = Some convert_bin ∧
        convert_bin ≠ EmptyString ∧
        run_convert w convert_bin source_path (nodes d !! source_path) =
          ConvertDone (Some rendered) ∧
        pil_open (Some (File rendered)) = inr (format, decoded))).
Proof.
  intros Hload.
  pose proof (load_source_image_is_file _ _ _ _ Hload) as Hfile.
  pose proof (load_source_image_square _ _ _ _ Hload) as Hsq.
  split_and!; [done..|].
  destruct Hfile as [data Hdata]. unfold load_source_image in Hload.
  rewrite Hdata in Hload.
  destruct (String.eqb_spec (Py.lower (suffix source_path)) ".png")
    as [Hpng|_].
  - unfold load_png_image in Hload. rewrite Hdata in Hload.
    destruct (pil_open (Some (File data))) as [e|[format image]] eqn:Eopen.
    { by destruct e. }
    destruct (decide (format ≠ "PNG")) as [|Hfmt%dec_stable]; [done|].
    subst format.
    destruct (decide (width (convert_rgba image) ≠
                      height (convert_rgba image))); [done|].
    injection Hload as <-. exists image. split; [done|]. left.
    split; [done|]. f_equal.
    destruct data as [fmt im|frames|msg|id]; simpl in Eopen;
      unfold bomb_checked in Eopen.
    + destruct (_ <? _); [done|]. by injection Eopen as -> ->.
    + destruct (largest_frame frames); [|done].
      destruct (_ <? _); by simplify_eq.
    + done.
    + done.
  - destruct (String.eqb_spec (Py.lower (suffix source_path)) ".svg")
      as [Hsvg|_]; [|done].
    unfold load_svg_image in Hload. rewrite Hdata in Hload.
    destruct (which w "convert") as [[|c bin]|] eqn:Ewhich; [done| |done].
    destruct (run_convert w _ _ _) as [|msg|rendered] eqn:Erun; [done..|].
    destruct (pil_open (File <$> rendered)) as [e|[format image]] eqn:Eopen.
    { by destruct e. }
    destruct (decide (width (convert_rgba image) ≠
                      height (convert_rgba image))); [done|].
    injection Hload as <-. exists image. split; [done|]. right.
    split; [done|]. destruct rendered as [rendered|]; [|done].
    exists (String c bin), rendered, format. by rewrite Hdata.
Qed.

Lemma load_source_image_returns_witness :
  is_file (nodes Run.disk !! "/art/Logo.SVG") ∧
  width (normalize (convert_rgba (Run.picture 1024 1024 5))) =
  height (normalize (convert_rgba (Run.picture 1024 1024 5))).
Proof.
  destruct (load_source_image_returns Run.world Run.disk "/art/Logo.SVG"
              (normalize (convert_rgba (Run.picture 1024 1024 5))))
    as (Hfile & Hsq & _).
  - vm_compute. reflexivity.
  - exact (conj Hfile Hsq).
Defined.

(** X5.  A source path that does not exist, or that is not a regular
    file, is reported before its suffix or content is looked at:
    [main] returns 1 with the one line "error: source file does not
    exist: path" or "error: source path is not a file: path", and
    writes nothing. *)
Theorem missing_source_reported (w : World) (argv : Argv) (d : Disk)
    (args : CliArgs) :
  parse_args argv = inr args →
  ¬ is_file (nodes d !! resolve_source w (source args)) →
  ∃ msg,
    main w argv d = (Exit 1 [] ["error: " +:+ msg +:+ newline], d) ∧
    (nodes d !! resolve_source w (source args) = None →
     msg = "source file does not exist: " +:+
           resolve_source w (source args)) ∧
    (is_Some (nodes d !! resolve_source w (source args)) →
     msg = "source path is not a file: " +:+
           resolve_source w (source args)).
Proof.
  intros Hargs Hnot. unfold main, load_source_image. rewrite Hargs.
  destruct (nodes d !! resolve_source w (source args)) as [[|data]|] eqn:E.
  - eexists. split_and!; [done| |done]. done.
  - destruct Hnot. by eexists.
  - eexists. split_and!; [done|done|]. by intros [? ?].
Qed.

Lemma missing_source_reported_witness :
  ∃ msg,
    main Run.world (Run.argv "/art" "web") Run.disk =
      (Exit 1 [] ["error: " +:+ msg +:+ newline], Run.disk) ∧
    (nodes Run.disk !! "/art" = None →
     msg = "source file does not exist: /art") ∧
    (is_Some (nodes Run.disk !! "/art") →
     msg = "source path is not a file: /art").
Proof.
  apply (missing_source_reported Run.world (Run.argv "/art" "web") Run.disk
           {| source := "/art"; targets := ["web"] |}).
  - vm_compute. reflexivity.
  - vm_compute. by intros [? ?].
Defined.

(** X6.  An existing file whose lower-cased suffix is neither [.png]
    nor [.svg] is rejected whatever it contains: [main] returns 1 with
    the one line "error: source must be a .svg or .png image: path" and
    writes nothing.  A file named just [.svg] is such a file, its suffix
    being empty. *)
Theorem unsupported_suffix_rejected (w : World) (argv : Argv) (d : Disk)
    (args : CliArgs) :
  parse_args argv = inr args →
  is_file (nodes d !! resolve_source w (source args)) →
  Py.lower (suffix (resolve_source w (source args))) ≠ ".png" →
  Py.lower (suffix (resolve_source w (source args))) ≠ ".svg" →
  main w argv d =
    (Exit 1 [] ["error: source must be a .svg or .png image: " +:+
                resolve_source w (source args) +:+ newline], d).
Proof.
  intros Hargs [data Hdata] Hpng Hsvg.
  unfold main, load_source_image. rewrite Hargs, Hdata.
  destruct (String.eqb_spec (Py.lower (suffix (resolve_source w (source args))))
              ".png"); [done|].
  destruct (String.eqb_spec (Py.lower (suffix (resolve_source w (source args))))
              ".svg"); [done|].
  by rewrite app_assoc_str.
Qed.

Lemma unsupported_suffix_rejected_witness :
  main Scene.world (Run.argv "/art/.svg" "web") Scene.disk =
    (Exit 1 [] ["error: source must be a .svg or .png image: " +:+
                "/art/.svg" +:+ newline], Scene.disk).
Proof.
  apply (unsupported_suffix_rejected Scene.world (Run.argv "/art/.svg" "web")
           Scene.disk {| source := "/art/.svg"; targets := ["web"] |}).
  - vm_compute. reflexivity.
  - eexists. vm_compute. reflexivity.
  - vm_compute. discriminate.
  - vm_compute. discriminate.
Defined.

(** X7.  A file with a [.png] suffix that does not hold a PNG-encoded
    image, and whose decoded size is within the limit at which Pillow
    raises [DecompressionBombError] (at most twice [MAX_IMAGE_PIXELS]
    pixels), is rejected and nothing is written: "source must be a PNG
    image" when it decodes as another format, "source is not a readable
    image" when Pillow does not identify it, "cannot read source image"
    when decoding fails. *)
Theorem non_png_content_rejected (w : World) (argv : Argv) (d : Disk)
    (args : CliArgs) (data : FileData) :
  parse_args argv = inr args →
  Py.lower (suffix (resolve_source w (source args))) = ".png" →
  nodes d !! resolve_source w (source args) = Some (File data) →
  (∀ image, data ≠ ImageFile "PNG" image) →
  (∀ format image, data = ImageFile format image →
     width image * height image ≤ 2 * MAX_IMAGE_PIXELS) →
  (∀ frames image, data = IcoFile frames →
     largest_frame frames = Some image →
     width image * height image ≤ 2 * MAX_IMAGE_PIXELS) →
  ∃ msg,
    main w argv d = (Exit 1 [] ["error: " +:+ msg +:+ newline], d) ∧
    (∀ format image, data = ImageFile format image →
       msg = "source must be a PNG image: " +:+
             resolve_source w (source args)) ∧
    (∀ frames image, data = IcoFile frames →
       largest_frame frames = Some image →
       msg = "source must be a PNG image: " +:+
             resolve_source w (source args)) ∧
    (∀ id, data = OtherFile id →
       msg = "source is not a readable image: " +:+
             resolve_source w (source args)) ∧
    (∀ errmsg, data = BrokenImageFile errmsg →
       msg = "cannot read source image: " +:+
             resolve_source w (source args) +:+ ": " +:+ errmsg).
Proof.
  intros Hargs Hpng Hdata Hnot Himage Hframes.
  set (source_path := resolve_source w (source args)) in *.
  assert (∀ format image,
            width image * height image ≤ 2 * MAX_IMAGE_PIXELS →
            bomb_checked format image = inr (format, image)) as Hsize.
  { intros format image Hle. unfold bomb_checked.
    destruct (Z.ltb_spec (2 * MAX_IMAGE_PIXELS) (width image * height image));
      [lia|done]. }
  assert (∃ msg, load_png_image d source_path = inl (ValueError msg) ∧
            (∀ format image, data = ImageFile format image →
               msg = "source must be a PNG image: " +:+ source_path) ∧
            (∀ frames image, data = IcoFile frames →
               largest_frame frames = Some image →
               msg = "source must be a PNG image: " +:+ source_path) ∧
            (∀ id, data = OtherFile id →
               msg = "source is not a readable image: " +:+ source_path) ∧
            (∀ errmsg, data = BrokenImageFile errmsg →
               msg = "cannot read source image: " +:+ source_path +:+
                     ": " +:+ errmsg)) as (msg & Hload & Hmsg).
  { unfold load_png_image. rewrite Hdata.
    destruct data as [format image|frames|errmsg|id]; simpl.
    - rewrite (Hsize _ _ (Himage _ _ eq_refl)).
      destruct (decide (format ≠ "PNG")) as [|Heq%dec_stable];
        [|subst; by destruct (Hnot image)].
      eexists. split; [done|]. split_and!; try done.
    - destruct (largest_frame frames) as [image|] eqn:E; simpl.
      + rewrite (Hsize _ _ (Hframes _ _ eq_refl E)). simpl.
        eexists. split; [done|]. split_and!; try done.
      + eexists. split; [done|]. split_and!; try done.
        intros frames' image [= <-]. by rewrite E.
    - eexists. split; [done|]. split_and!; try done.
      by intros ? [= <-].
    - eexists. split; [done|]. split_and!; try done. }
  exists msg. split; [|done]. unfold main. rewrite Hargs.
  fold source_path. rewrite load_source_image_png by (by eexists || done).
  by rewrite Hload.
Qed.

Lemma non_png_content_rejected_witness :
  ∃ msg,
    main Scene.world (Run.argv "/art/photo.png" "web") Scene.disk =
      (Exit 1 [] ["error: " +:+ msg +:+ newline], Scene.disk) ∧
    msg = "source must be a PNG image: /art/photo.png".
Proof.
  destruct (non_png_content_rejected Scene.world
              (Run.argv "/art/photo.png" "web") Scene.disk
              {| source := "/art/photo.png"; targets := ["web"] |}
              (ImageFile "JPEG" (Run.picture 32 32 7)))
    as (msg & Hmain & Hformat & _).
  - vm_compute. reflexivity.
  - vm_compute. reflexivity.
  - vm_compute. reflexivity.
  - intros image. discriminate.
  - intros format image [= <- <-]. vm_compute. discriminate.
  - intros frames image. discriminate.
  - exists msg. split; [exact Hmain|]. by eapply Hformat.
Defined.

(** X8.  For an SVG source with ImageMagick installed, a rasterizer
    that exits with a non-zero status gives "cannot rasterize SVG
    source", and a rendered file that Pillow does not identify gives
    "rendered SVG is not a readable image: path"; in both cases [main]
    returns 1 and writes nothing. *)
Theorem rasterizer_failure_reported (w : World) (argv : Argv) (d : Disk)
    (args : CliArgs) (convert_bin : string) :
  parse_args argv = inr args →
  is_file (nodes d !! resolve_source w (source args)) →
  Py.lower (suffix (resolve_source w (source args))) = ".svg" →
  which w "convert" = Some convert_bin → convert_bin ≠ EmptyString →
  (run_convert w convert_bin (resolve_source w (source args))
     (nodes d !! resolve_source w (source args)) = ConvertFailed →
   main w argv d =
     (Exit 1 [] ["error: cannot rasterize SVG source" +:+ newline], d)) ∧
  (∀ id,
     run_convert w convert_bin (resolve_source w (source args))
       (nodes d !! resolve_source w (source args)) =
       ConvertDone (Some (OtherFile id)) →
     main w argv d =
       (Exit 1 [] ["error: rendered SVG is not a readable image: " +:+
                   resolve_source w (source args) +:+ newline], d)).
Proof.
  intros Hargs Hfile Hsvg Hwhich Hbin.
  set (source_path := resolve_source w (source args)) in *.
  split.
  - intros Hrun. unfold main. rewrite Hargs. fold source_path.
    rewrite load_source_image_svg by done.
    unfold load_svg_image. rewrite Hwhich.
    destruct convert_bin as [|c bin]; [done|]. by rewrite Hrun.
  - intros id Hrun. unfold main. rewrite Hargs. fold source_path.
    rewrite load_source_image_svg by done.
    unfold load_svg_image. rewrite Hwhich.
    destruct convert_bin as [|c bin]; [done|]. rewrite Hrun. simpl.
    by rewrite app_assoc_str.
Qed.

Lemma rasterizer_failure_reported_witness :
  main Scene.world (Run.argv "/art/bad.svg" "web") Scene.disk =
    (Exit 1 [] ["error: cannot rasterize SVG source" +:+ newline],
     Scene.disk).
Proof.
  destruct (rasterizer_failure_reported Scene.world
              (Run.argv "/art/bad.svg" "web") Scene.disk
              {| source := "/art/bad.svg"; targets := ["web"] |}
              "/usr/bin/convert") as [Hfailed _].
  - vm_compute. reflexivity.
  - eexists. vm_compute. reflexivity.
  - vm_compute. reflexivity.
  - vm_compute. reflexivity.
  - discriminate.
  - apply Hfailed. vm_compute. reflexivity.
Defined.

(** X18.  An image of more than twice [MAX_IMAGE_PIXELS] pixels behind a
    [.png] source path is not reported as an error of the source:
    Pillow's [DecompressionBombError] is no [ValueError], [OSError] or
    [UnidentifiedImageError], so it passes both handlers of
    [load_png_image] and the handler of [main], whatever the format of
    the file, and nothing is written. *)
Theorem oversized_source_escapes (w : World) (argv : Argv) (d : Disk)
    (args : CliArgs) (format : string) (image : Image) :
  parse_args argv = inr args →
  Py.lower (suffix (resolve_source w (source args))) = ".png" →
  nodes d !! resolve_source w (source args) =
    Some (File (ImageFile format image)) →
  2 * MAX_IMAGE_PIXELS < width image * height image →
  load_png_image d (resolve_source w (source args)) =
    inl DecompressionBombError ∧
  main w argv d = (Uncaught DecompressionBombError, d).
Proof.
  intros Hargs Hpng Hdata Hbig.
  set (source_path := resolve_source w (source args)) in *.
  assert (load_png_image d source_path = inl DecompressionBombError)
    as Hload.
  { unfold load_png_image. rewrite Hdata. simpl. unfold bomb_checked.
    by destruct (Z.ltb_spec (2 * MAX_IMAGE_PIXELS)
                   (width image * height image)); [|lia]. }
  split; [done|]. unfold main. rewrite Hargs. fold source_path.
  rewrite load_source_image_png by (by eexists || done).
  by rewrite Hload.
Qed.

Lemma oversized_source_escapes_witness :
  main Run.world (Run.argv "/art/vast.png" "web") Scene.disk =
    (Uncaught DecompressionBombError, Scene.disk).
Proof.
  apply (oversized_source_escapes Run.world (Run.argv "/art/vast.png" "web")
           Scene.disk {| source := "/art/vast.png"; targets := ["web"] |}
           "PNG" (Run.picture 20000 20000 17)).
  - vm_compute. reflexivity.
  - vm_compute. reflexivity.
  - vm_compute. reflexivity.
  - vm_compute. reflexivity.
Defined.

(** ** The writer: partial runs, files written, repeated runs *)

(** X9.  After a successful writer run every PNG output decodes again:
    the file at the path of a configured (size, path) entry of a
    selected target opens as format PNG, with width and height equal to
    the configured size, and it is the source resized with the
    resampling filter. *)
Theorem png_outputs_decode (w : World) (source : Image)
    (source_path : string) (ts : list string) (d d' : Disk)
    (written : list string) (t : string) (config : TargetConfig)
    (size : Z) (relative : string) :
  NoDup ts →
  Forall (λ t, is_Some (MANAGED_TARGETS !! t)) ts →
  sync_targets w source source_path ts d = (inr written, d') →
  t ∈ ts → MANAGED_TARGETS !! t = Some config →
  (size, relative) ∈ png config →
  ∃ image,
    pil_open (nodes d' !! joinpath (ROOT_DIR w) relative) =
      inr ("PNG", image) ∧
    image = resize source size size (RESAMPLE_FILTER w) ∧
    width image = size ∧ height image = size ∧
    load_png_image d' (joinpath (ROOT_DIR w) relative) =
      inr (convert_rgba image).
Proof.
  intros Hnd Hreg Hsync Ht Hc Hrel.
  rewrite sync_targets_plan in Hsync by done.
  destruct (perform_all _ _ _ _ d) as [[e|[]] d1] eqn:Hrun; [done|].
  injection Hsync as _ <-.
  pose proof (plan_png (ROOT_DIR w) (source_is_svg source_path)
                _ _ _ _ _ Ht Hc Hrel) as Hin.
  pose proof (run_written _ _ _ _ _ _ _ _ Hrun
                (plan_scattered _ _ _ _ Hnd Hreg) Hin eq_refl) as Hfile.
  cbn [action_path] in Hfile.
  assert (pil_open (nodes d1 !! joinpath (ROOT_DIR w) relative) =
          inr ("PNG", resize source size size (RESAMPLE_FILTER w))) as Hopen.
  { rewrite Hfile. simpl. unfold bomb_checked.
    destruct (resize_size source size size (RESAMPLE_FILTER w)) as [-> ->].
    assert (0 < size ≤ 512) as Hsize.
    { apply registered_cases in Hc as [[_ ->]|[_ ->]]; simpl in Hrel;
        rewrite ?elem_of_cons, ?elem_of_nil in Hrel;
        decompose [or] Hrel; simplify_eq; lia. }
    destruct (Z.ltb_spec (2 * MAX_IMAGE_PIXELS) (size * size)); [|done].
    unfold MAX_IMAGE_PIXELS in *. nia. }
  eexists. split_and!.
  - exact Hopen.
  - done.
  - apply resize_size.
  - apply resize_size.
  - unfold load_png_image. rewrite Hopen.
    by destruct (decide ("PNG" ≠ "PNG")).
Qed.

Lemma png_outputs_decode_witness :
  ∃ image,
    pil_open (nodes (sync_targets Run.world
                       (normalize (convert_rgba (Run.picture 64 64 2)))
                       "/art/small.PNG" ["web"] Run.disk).2
              !! "/repo/web/public/videnoa_icon.png") =
      inr ("PNG", image) ∧
    width image = 512 ∧ height image = 512.
Proof.
  destruct (png_outputs_decode Run.world
              (normalize (convert_rgba (Run.picture 64 64 2)))
              "/art/small.PNG" ["web"] Run.disk
              (sync_targets Run.world
                 (normalize (convert_rgba (Run.picture 64 64 2)))
                 "/art/small.PNG" ["web"] Run.disk).2
              ["/repo/web/public/favicon-16x16.png";
               "/repo/web/public/favicon-32x32.png";
               "/repo/web/public/videnoa_icon.png";
               "/repo/web/public/favicon.ico"]
              "web" web_config 512 "web/public/videnoa_icon.png")
    as (image & Hopen & _ & Hw & Hh & _).
  - apply (bool_decide_unpack _). vm_compute. exact I.
  - repeat constructor. by eexists.
  - vm_compute. reflexivity.
  - by left.
  - reflexivity.
  - simpl. do 2 right. by left.
  - exists image. split_and!; [exact Hopen|exact Hw|exact Hh].
Defined.



(** X10.  Writes are not rolled back.  When the source was loaded and
    the writer raises, the plan stopped at its first action that could
    not be carried out: the actions before it were performed and logged
    in plan order, their PNG and ICO files are on disk, and no later
    action was tried.  The exception is an [OSError], which escapes
    [main], or the [ValueError] of an ICO save for a source under
    16 pixels, which [main] reports with status 1; either way the disk
    is left as the writer left it. *)
Theorem partial_writes_remain (w : World) (argv : Argv) (d : Disk)
    (args : CliArgs) (source_image : Image) (e : exn) (d' : Disk) :
  parse_args argv = inr args →
  load_source_image w d (resolve_source w (source args)) = inr source_image →
  sync_targets w source_image (resolve_source w (source args))
    (targets args) d = (inl e, d') →
  ∃ performed a rest,
    plan (ROOT_DIR w) (source_is_svg (resolve_source w (source args)))
      (targets args) = performed ++ a :: rest ∧
    journal d' =
      journal d ++ (event_of (resolve_source w (source args)) <$> performed) ∧
    (∀ b f, b ∈ performed → written_data w source_image b = Some f →
            nodes d' !! action_path b = Some (File f)) ∧
    (((∃ msg, e = OSError msg) ∧ main w argv d = (Uncaught e, d')) ∨
     (e = ValueError (ico_refusal w) ∧ (∃ p, a = WriteIco p) ∧
      width source_image < 16 ∧
      main w argv d =
        (Exit 1 [] ["error: " +:+ ico_refusal w +:+ newline], d'))).
Proof.
  intros Hargs Hload Hsync.
  destruct (parse_args_registered _ _ Hargs) as [Hreg Hnd].
  set (source_path := resolve_source w (source args)) in *.
  pose proof (plan_scattered (ROOT_DIR w) (source_is_svg source_path)
                (targets args) source_path Hnd Hreg) as Hsc.
  rewrite sync_targets_plan in Hsync by done.
  destruct (perform_all _ _ _ _ d) as [[e'|[]] d1] eqn:Hrun; [|done].
  injection Hsync as -> ->.
  pose proof (main_loaded _ _ _ _ _ Hargs Hload) as Hmain.
  cbv zeta in Hmain. fold source_path in Hmain. rewrite Hrun in Hmain.
  destruct (run_fail_prefix _ _ _ _ _ _ _ Hrun)
    as (performed & a & rest & d2 & Hplan & Hpre & Hstep).
  rewrite Hplan in Hsc.
  destruct (perform_fails _ _ _ _ _ _ _ Hstep) as [Hj Hcause].
  exists performed, a, rest. split_and!; [done| | |].
  - rewrite Hj. by eapply run_journal.
  - intros b f Hb Hf.
    eapply perform_keeps; [exact Hstep| |].
    + eapply run_written; [exact Hpre| |done..].
      by eapply scattered_app_l.
    + intros Hin.
      destruct (scattered_middle _ _ _ _ _ Hsc Hb (action_path b)
                  (action_path b)) as (Hne & _); [by left|done|done].
  - destruct Hcause as [[msg ->]|(-> & Hico & Hnone)]; [left|right].
    + split; [by eexists|done].
    + split_and!; [done|done| |done].
      apply ico_frames_none; [|done].
      by eapply load_source_image_square.
Qed.

Example run_stops_at_unwritable_ico :
  (main Scene.world (Run.argv "/art/icon.png" "web,desktop") Scene.disk).1 =
    Uncaught (OSError "cannot write /repo/web/public/favicon.ico") ∧
  event_path <$>
    journal (main Scene.world (Run.argv "/art/icon.png" "web,desktop")
               Scene.disk).2 =
    [ "/repo/web/public/favicon-16x16.png";
      "/repo/web/public/favicon-32x32.png";
      "/repo/web/public/videnoa_icon.png" ].
Proof. split; vm_compute; reflexivity. Qed.

Example run_stops_at_refused_ico :
  (main Run.world (Run.argv "/art/tiny.png" "web") Scene.disk).1 =
    Exit 1 [] ["error: no size fits the image" +:+ newline] ∧
  event_path <$>
    journal (main Run.world (Run.argv "/art/tiny.png" "web") Scene.disk).2 =
    [ "/repo/web/public/favicon-16x16.png";
      "/repo/web/public/favicon-32x32.png";
      "/repo/web/public/videnoa_icon.png" ] ∧
  nodes (main Run.world (Run.argv "/art/tiny.png" "web") Scene.disk).2
    !! "/repo/web/public/favicon.ico" = None.
Proof. split_and!; vm_compute; reflexivity. Qed.

Example run_stops_at_refused_mkdir :
  (main Scene.world_without_mkdir (Run.argv "/art/icon.png" "desktop,web")
     Run.disk).1 =
    Uncaught (OSError ("cannot make the directory of " +:+
                       "/repo/web/public/favicon-16x16.png")) ∧
  length (journal (main Scene.world_without_mkdir
                     (Run.argv "/art/icon.png" "desktop,web")
                     Run.disk).2) = 6%nat ∧
  nodes (main Scene.world_without_mkdir
           (Run.argv "/art/icon.png" "desktop,web") Run.disk).2
    !! "/repo/web" = Some Dir ∧
  nodes (main Scene.world_without_mkdir
           (Run.argv "/art/icon.png" "desktop,web") Run.disk).2
    !! "/repo/web/public" = None.
Proof. split_and!; vm_compute; reflexivity. Qed.

Lemma partial_writes_remain_witness :
  ∃ performed a,
    length performed = 3%nat ∧
    journal (main Scene.world (Run.argv "/art/icon.png" "web,desktop")
               Scene.disk).2 =
      journal Scene.disk ++ (event_of "/art/icon.png" <$> performed) ∧
    (∀ b f, b ∈ performed →
       written_data Scene.world
         (normalize (convert_rgba (Run.picture 512 512 1))) b = Some f →
       nodes (main Scene.world (Run.argv "/art/icon.png" "web,desktop")
                Scene.disk).2 !! action_path b = Some (File f)) ∧
    a = WriteIco "/repo/web/public/favicon.ico".
Proof.
  destruct (partial_writes_remain Scene.world
              (Run.argv "/art/icon.png" "web,desktop") Scene.disk
              {| source := "/art/icon.png"; targets := ["web"; "desktop"] |}
              (normalize (convert_rgba (Run.picture 512 512 1)))
              (OSError "cannot write /repo/web/public/favicon.ico")
              (main Scene.world (Run.argv "/art/icon.png" "web,desktop")
                 Scene.disk).2)
    as (performed & a & rest & Hplan & Hj & Hfiles & _).
  - vm_compute. reflexivity.
  - vm_compute. reflexivity.
  - vm_compute. reflexivity.
  - assert (length (journal (main Scene.world
                               (Run.argv "/art/icon.png" "web,desktop")
                               Scene.disk).2) = 3%nat) as Hlen
      by (vm_compute; reflexivity).
    rewrite Hj, length_app, length_fmap in Hlen. simpl in Hlen.
    exists performed, a. split_and!; [lia|exact Hj|exact Hfiles|].
    assert (plan (ROOT_DIR Scene.world)
              (source_is_svg (resolve_source Scene.world "/art/icon.png"))
              ["web"; "desktop"] !! 3%nat = Some a) as Hat.
    { simpl source in Hplan. simpl targets in Hplan. rewrite Hplan.
      assert (length performed = 3%nat) as <- by lia.
      by rewrite list_lookup_middle. }
    vm_compute in Hat. by injection Hat as <-.
Defined.



Example copy_into_directory :
  (main Run.world (Run.argv "/art/Logo.SVG" "web")
     Scene.disk_with_directory).1 =
    Exit 0 ["synced 5 icon files" +:+ newline] [] ∧
  nodes (main Run.world (Run.argv "/art/Logo.SVG" "web")
           Scene.disk_with_directory).2
    !! "/repo/web/public/favicon.svg" = Some Dir ∧
  nodes (main Run.world (Run.argv "/art/Logo.SVG" "web")
           Scene.disk_with_directory).2
    !! "/repo/web/public/favicon.svg/Logo.SVG" = Some (File (OtherFile 5)).
Proof. split_and!; vm_compute; reflexivity. Qed.



(** X13.  The files a successful writer run leaves do not depend on the
    order of the selected targets: any reordering of the selection also
    succeeds from the same disk, writes the same paths in another
    order, and ends with the same file tree. *)
Theorem target_order_irrelevant (w : World) (source : Image)
    (source_path : string) (ts1 ts2 : list string) (d d1 : Disk)
    (written1 : list string) :
  NoDup ts1 →
  Forall (λ t, is_Some (MANAGED_TARGETS !! t)) ts1 →
  ts1 ≡ₚ ts2 →
  is_file (nodes d !! source_path) →
  source_path ∉ written1 →
  sync_targets w source source_path ts1 d = (inr written1, d1) →
  ∃ written2 d2,
    sync_targets w source source_path ts2 d = (inr written2, d2) ∧
    written2 ≡ₚ written1 ∧ nodes d2 = nodes d1.
Proof.
  intros Hnd Hreg Hperm Hfile Hsrc Hsync.
  assert (Forall (λ t, is_Some (MANAGED_TARGETS !! t)) ts2) as Hreg2
    by (by rewrite <- Hperm).
  rewrite sync_targets_plan in Hsync by done.
  destruct (perform_all _ _ _ _ d) as [[e|[]] d1'] eqn:Hrun; [done|].
  injection Hsync as <- <-.
  assert (plan (ROOT_DIR w) (source_is_svg source_path) ts1 ≡ₚ
          plan (ROOT_DIR w) (source_is_svg source_path) ts2) as Hplans
    by (unfold plan; by rewrite Hperm).
  destruct Hfile as [D HD].
  destruct (run_permuted _ _ _ D _ _ _ _ Hrun Hplans
              (plan_scattered _ _ _ _ Hnd Hreg) HD Hsrc)
    as (d2 & Hrun2 & Hn).
  eexists _, d2. rewrite sync_targets_plan, Hrun2 by done.
  split_and!; [done| |done]. by rewrite Hplans.
Qed.

Lemma target_order_irrelevant_witness :
  ∃ written2 d2,
    sync_targets Run.world (normalize (convert_rgba (Run.picture 1024 1024 5)))
      "/art/Logo.SVG" ["desktop"; "web"] Run.disk = (inr written2, d2) ∧
    written2 ≡ₚ joinpath "/repo" <$> relative_paths true ["web"; "desktop"] ∧
    nodes d2 =
    nodes (sync_targets Run.world
             (normalize (convert_rgba (Run.picture 1024 1024 5)))
             "/art/Logo.SVG" ["web"; "desktop"] Run.disk).2.
Proof.
  apply (target_order_irrelevant Run.world
           (normalize (convert_rgba (Run.picture 1024 1024 5)))
           "/art/Logo.SVG" ["web"; "desktop"] ["desktop"; "web"] Run.disk).
  - apply (bool_decide_unpack _). vm_compute. exact I.
  - repeat constructor; by eexists.
  - apply perm_swap.
  - eexists. vm_compute. reflexivity.
  - apply (bool_decide_unpack _). vm_compute. exact I.
  - vm_compute. reflexivity.
Defined.

(** ** SVG passthrough: the copy and the same-file case *)

(** X14.  The SVG passthrough is a verbatim copy.  After a successful
    writer run from an SVG source, the place where [shutil.copy2] puts
    the copy for a configured SVG output path of a selected target
    holds exactly the data of the source file: the output path itself
    when it was not a directory before the run, and otherwise the path
    under the source's name inside it, the output path staying a
    directory.  The source is not among the written paths and is itself
    unchanged. *)
Theorem svg_copy_verbatim (w : World) (source : Image)
    (source_path : string) (ts : list string) (d d' : Disk)
    (written : list string) (source_data : FileData) (t : string)
    (config : TargetConfig) (relative : string) :
  NoDup ts →
  Forall (λ t, is_Some (MANAGED_TARGETS !! t)) ts →
  Py.lower (suffix source_path) = ".svg" →
  nodes d !! source_path = Some (File source_data) →
  sync_targets w source source_path ts d = (inr written, d') →
  t ∈ ts → MANAGED_TARGETS !! t = Some config → relative ∈ svg config →
  (nodes d !! joinpath (ROOT_DIR w) relative ≠ Some Dir →
   nodes d' !! joinpath (ROOT_DIR w) relative = Some (File source_data)) ∧
  (nodes d !! joinpath (ROOT_DIR w) relative = Some Dir →
   nodes d' !! joinpath (ROOT_DIR w) relative = Some Dir ∧
   nodes d' !! joinpath (joinpath (ROOT_DIR w) relative)
                 (path_name source_path) = Some (File source_data)) ∧
  (source_path ∉ written) ∧
  nodes d' !! source_path = Some (File source_data).
Proof.
  intros Hnd Hreg Hsvg Hdata Hsync Ht Hc Hrel.
  rewrite sync_targets_plan in Hsync by done.
  assert (source_is_svg source_path = true) as Heq
    by (unfold source_is_svg; by rewrite Hsvg).
  rewrite Heq in Hsync.
  destruct (perform_all _ _ _ _ d) as [[e|[]] d1] eqn:Hrun; [done|].
  injection Hsync as <- <-.
  pose proof (svg_source_spared _ _ _ _ _ _ Heq Hrun) as Hsrc.
  pose proof (plan_scattered (ROOT_DIR w) true ts source_path Hnd Hreg)
    as Hsc.
  pose proof (plan_svg (ROOT_DIR w) _ _ _ _ Ht Hc Hrel) as Hin.
  pose proof (run_nodes _ _ _ source_data _ _ _ _ Hrun Hsc Hdata Hsrc Hin)
    as Hcopy.
  pose proof (run_destination _ _ _ source_data _ _ _ _ Hrun Hsc Hdata Hsrc
                Hin) as Hsame.
  cbn [destination action_data] in Hcopy, Hsame.
  unfold copy_destination in Hcopy, Hsame.
  set (p := joinpath (ROOT_DIR w) relative) in *.
  split_and!; [| |done|by eapply run_source_kept].
  - intros Hfile.
    by destruct (nodes d !! p) as [[|]|].
  - intros Hdir. rewrite Hdir in Hcopy, Hsame. split; [|done].
    assert (joinpath p (path_name source_path) ≠ p) as Hne.
    { destruct (svg_output_cases _ _ _ Hc Hrel) as [_ ->].
      intros Hp. apply (f_equal String.length) in Hp. revert Hp.
      unfold joinpath at 1.
      destruct (String.eqb_spec p "/") as [Hroot|_].
      - by apply joinpath_not_root in Hroot.
      - rewrite !length_app_str. simpl. lia. }
    by destruct (nodes d1 !! p) as [[|]|].
Qed.

Lemma svg_copy_verbatim_witness :
  nodes (sync_targets Run.world
           (normalize (convert_rgba (Run.picture 1024 1024 5)))
           "/art/Logo.SVG" ["web"] Run.disk).2
    !! "/repo/web/public/favicon.svg" = Some (File (OtherFile 5)) ∧
  nodes (sync_targets Run.world
           (normalize (convert_rgba (Run.picture 1024 1024 5)))
           "/art/Logo.SVG" ["web"] Run.disk).2
    !! "/art/Logo.SVG" = Some (File (OtherFile 5)).
Proof.
  destruct (svg_copy_verbatim Run.world
              (normalize (convert_rgba (Run.picture 1024 1024 5)))
              "/art/Logo.SVG" ["web"] Run.disk
              (sync_targets Run.world
                 (normalize (convert_rgba (Run.picture 1024 1024 5)))
                 "/art/Logo.SVG" ["web"] Run.disk).2
              (joinpath "/repo" <$> relative_paths true ["web"])
              (OtherFile 5) "web" web_config "web/public/favicon.svg")
    as (Hfile & _ & _ & Hsource).
  - apply (bool_decide_unpack _). vm_compute. exact I.
  - repeat constructor; by eexists.
  - vm_compute. reflexivity.
  - vm_compute. reflexivity.
  - vm_compute. reflexivity.
  - by left.
  - reflexivity.
  - by left.
  - split; [apply Hfile; vm_compute; discriminate|exact Hsource].
Defined.

(** X15.  When the source is the web target's own SVG output, a run
    that selects web never ends with status 0: the copy of the file
    onto itself is refused, and once the source is loaded the run ends
    with an uncaught [OSError]. *)
Theorem source_is_own_output (w : World) (argv : Argv) (d : Disk)
    (args : CliArgs) :
  parse_args argv = inr args →
  resolve_source w (source args) =
    joinpath (ROOT_DIR w) "web/public/favicon.svg" →
  "web" ∈ targets args →
  (∀ out err d', main w argv d ≠ (Exit 0 out err, d')) ∧
  (∀ source_image,
     load_source_image w d (resolve_source w (source args)) =
       inr source_image →
     ∃ msg d', main w argv d = (Uncaught (OSError msg), d')).
Proof.
  intros Hargs Hpath Hweb.
  destruct (parse_args_registered _ _ Hargs) as [Hreg _].
  assert (source_is_svg (resolve_source w (source args)) = true) as Hsvg
    by (unfold source_is_svg; by rewrite Hpath, web_svg_output_suffix).
  assert (∀ source_image d',
            perform_all w source_image (resolve_source w (source args))
              (plan (ROOT_DIR w) true (targets args)) d ≠ (inr (), d'))
    as Hnever.
  { intros source_image d' Hrun.
    eapply (run_copies_apart _ _ _ _ _ _
              (joinpath (ROOT_DIR w) "web/public/favicon.svg"));
      [exact Hrun| |by rewrite Hpath].
    apply (plan_svg _ _ "web" web_config); [done|done|by left]. }
  split.
  - intros out err d' Hmain.
    destruct (load_source_image w d (resolve_source w (source args)))
      as [e|source_image] eqn:Hload.
    { unfold main in Hmain. rewrite Hargs, Hload in Hmain. by destruct e. }
    rewrite (main_loaded _ _ _ _ _ Hargs Hload) in Hmain. cbv zeta in Hmain.
    rewrite Hsvg in Hmain.
    destruct (perform_all _ _ _ _ d) as [[e|[]] d1] eqn:Hrun; [by destruct e|].
    by eapply Hnever.
  - intros source_image Hload.
    rewrite (main_loaded _ _ _ _ _ Hargs Hload). cbv zeta. rewrite Hsvg.
    destruct (perform_all _ _ _ _ d) as [[e|[]] d1] eqn:Hrun;
      [|by eapply Hnever in Hrun].
    apply run_inv in Hrun
      as (? & ? & _ & _
          & [[? _]|(e0 & a & rest & [= ->] & _ & [[msg ->]|(_ & _ & Hnone)])]);
      [done|by eexists _, _|].
    destruct (load_source_image_svg_size _ _ _ _
                (proj1 (String.eqb_eq _ _) Hsvg) Hload) as [Hw Hh].
    apply ico_frames_none in Hnone; [lia|congruence].
Qed.

Lemma source_is_own_output_witness :
  ∃ msg d',
    main Run.world (Run.argv "/repo/web/public/favicon.svg" "web")
      Scene.disk = (Uncaught (OSError msg), d').
Proof.
  destruct (source_is_own_output Run.world
              (Run.argv "/repo/web/public/favicon.svg" "web") Scene.disk
              {| source := "/repo/web/public/favicon.svg";
                 targets := ["web"] |}) as [_ Hraise].
  - vm_compute. reflexivity.
  - vm_compute. reflexivity.
  - by left.
  - apply (Hraise (normalize (convert_rgba (Run.picture 1024 1024 11)))).
    vm_compute. reflexivity.
Defined.

Example run_source_is_own_output :
  (main Run.world (Run.argv "/repo/web/public/favicon.svg" "web")
     Scene.disk).1 =
    Uncaught (OSError "same file: /repo/web/public/favicon.svg") ∧
  length (journal (main Run.world
                     (Run.argv "/repo/web/public/favicon.svg" "web")
                     Scene.disk).2) = 4%nat.
Proof. split; vm_compute; reflexivity. Qed.

